(** * vroomy/plugins: identifier parsing, acquisition, build/test and registry

    A shallow embedding of the Go package [plugins] and the properties its
    specification states about it.

    Conventions of the embedding:
    - a Go [string] is a [string] of bytes ([ascii]);
    - a Go [error] value is an [option Err], [None] being [nil];
    - a run-time panic is the outcome [Panic] of the result type [Res];
    - every call that leaves the process (an [exec.Cmd], [plugin.Open], a
      call into loaded plugin code) is answered by an environment that sees
      the history of the earlier calls, and is appended to that history;
      [os.Stat] is answered from the history and leaves it as it is. The
      history is the state every effectful function threads;
    - the sources hold several revisions of some files. The registry that
      keeps a slice of records, its entries and the tools they run are
      modelled at the top level; what plugin.go has of its own is in the
      modules [PluginGo] and [PluginMap]. *)

From Stdlib Require Import String Ascii List Arith ZArith Lia Bool Permutation.
Import ListNotations.
Open Scope string_scope.
Open Scope list_scope.

Set Implicit Arguments.

(* ================================================================== *)
(** ** Results, panics and errors *)

(** The run-time panics the modelled code can raise. *)
Inductive panic : Type :=
| IndexOutOfRange (index : Z) (len : nat)
| NilPointerDereference
| ReflectPanic (what : string).

Inductive Res (A : Type) : Type :=
| Ret (a : A)
| Panic (p : panic).
Arguments Ret {A} a.
Arguments Panic {A} p.

Definition res_bind {A B} (r : Res A) (k : A -> Res B) : Res B :=
  match r with
  | Ret a => k a
  | Panic p => Panic p
  end.

Declare Scope res_scope.
Delimit Scope res_scope with res.
Notation "x <- r ;; k" := (res_bind r (fun x => k))
  (at level 61, r at next level, right associativity) : res_scope.

(** Errors: [errors.Error] (a string type), [fmt.Errorf] and the errors of
    [os/exec] all carry a text; [errors.ErrorList] carries the texts of the
    errors pushed to it. *)
Inductive Err : Type :=
| Error (msg : string)
| ErrorList (msgs : list string).

Definition error : Type := option Err.

Definition Err_eqb (a b : Err) : bool :=
  match a, b with
  | Error x, Error y => String.eqb x y
  | ErrorList xs, ErrorList ys =>
      if list_eq_dec string_dec xs ys then true else false
  | _, _ => false
  end.

(** The method [Error() string]. For a list, the texts joined by newlines. *)
Definition Error_text (e : Err) : string :=
  match e with
  | Error msg => msg
  | ErrorList msgs => String.concat (String "010"%char "") msgs
  end.

Definition ErrExpectedEndParen : Err := Error "expected ending parenthesis".
Definition ErrInvalidDir : Err := Error "invalid directory, cannot be empty".
Definition ErrPluginKeyExists : Err :=
  Error "plugin cannot be added, key already exists".
Definition ErrPluginNotLoaded : Err :=
  Error "plugin with that key has not been loaded".
Definition ErrNotAddressable : Err :=
  Error "provided backend must be addressable".
(** [errors.ErrIsClosed] of github.com/hatchify/errors. *)
Definition ErrIsClosed : Err := Error "cannot perform action on closed instance".

(* ================================================================== *)
(** ** The parts of Go's [strings], [path] and [path/filepath] the code uses *)

(** [s[n:]] and [s[:n]] for [n <= len(s)]. *)
Fixpoint drop (n : nat) (s : string) : string :=
  match n, s with
  | 0, _ => s
  | S k, String _ s' => drop k s'
  | S _, EmptyString => EmptyString
  end.

Fixpoint take (n : nat) (s : string) : string :=
  match n, s with
  | 0, _ => EmptyString
  | S k, String c s' => String c (take k s')
  | S _, EmptyString => EmptyString
  end.

(** [l[i]] on a slice. *)
Definition index {A} (l : list A) (i : nat) : Res A :=
  match nth_error l i with
  | Some a => Ret a
  | None => Panic (IndexOutOfRange (Z.of_nat i) (List.length l))
  end.

(** [s[i]] on a string, the index computed in [int]. *)
Definition byteAt (s : string) (i : Z) : Res ascii :=
  if (i <? 0)%Z then Panic (IndexOutOfRange i (String.length s))
  else match String.get (Z.to_nat i) s with
       | Some c => Ret c
       | None => Panic (IndexOutOfRange i (String.length s))
       end.

Module strings.

Fixpoint HasPrefix (s prefix : string) {struct prefix} : bool :=
  match prefix, s with
  | EmptyString, _ => true
  | String _ _, EmptyString => false
  | String c p', String d s' => Ascii.eqb c d && HasPrefix s' p'
  end.

(** [strings.Index]: the first position where [substr] occurs, [None] for
    Go's [-1]. *)
Fixpoint Index (s substr : string) : option nat :=
  if HasPrefix s substr then Some 0
  else match s with
       | EmptyString => None
       | String _ s' => option_map S (Index s' substr)
       end.

Definition Contains (s substr : string) : bool :=
  match Index s substr with Some _ => true | None => false end.

(** The loop of [genSplit]: cut at the first occurrence of [sep], go on
    behind it. Every round with a non-empty [sep] consumes a byte of [s],
    so [length s] rounds are enough ([genSplit_fuel] below). *)
Fixpoint genSplit (fuel : nat) (s sep : string) : list string :=
  match fuel with
  | 0 => [s]
  | S f =>
      match Index s sep with
      | None => [s]
      | Some m => take m s :: genSplit f (drop (m + String.length sep) s) sep
      end
  end.

(** [explode]: one string per byte (Go cuts at UTF-8 sequences; the two
    agree on ASCII text). *)
Fixpoint explode (s : string) : list string :=
  match s with
  | EmptyString => []
  | String c s' => String c EmptyString :: explode s'
  end.

Definition Split (s sep : string) : list string :=
  match sep with
  | EmptyString => explode s
  | String _ _ => genSplit (String.length s) s sep
  end.

(** [strings.LastIndex] for a one-byte separator. *)
Fixpoint LastIndexByte (s : string) (c : ascii) : option nat :=
  match s with
  | EmptyString => None
  | String d s' =>
      match LastIndexByte s' c with
      | Some i => Some (S i)
      | None => if Ascii.eqb d c then Some 0 else None
      end
  end.

End strings.

Module path.

(** [path.Split]: directory (with its final slash) and file. *)
Definition Split (p : string) : string * string :=
  match strings.LastIndexByte p "/"%char with
  | None => (EmptyString, p)
  | Some i => (take (i + 1) p, drop (i + 1) p)
  end.

End path.

(* ================================================================== *)
(** ** utils.go: keys and handler keys *)

Open Scope res_scope.

(** [ParseKey] returns stripped gitUrl and plugin alias. *)
Definition ParseKey (key : string) : Res (string * string) :=
  let spl := strings.Split key " as " in
  newKey <- index spl 0 ;;
  if (1 <? List.length spl)%nat then
    alias <- index spl 1 ;;
    Ret (newKey, alias)
  else
    let '(_, name) := path.Split newKey in
    alias <- index (strings.Split name "-") 0 ;;
    alias <- index (strings.Split alias "@") 0 ;;
    alias <- index (strings.Split alias "#") 0 ;;
    Ret (newKey, alias).

(** [getHandlerParts]: the results are (key, handler, args, err). *)
Definition getHandlerParts (handlerKey : string)
  : Res (string * string * list string * error) :=
  let spl := strings.Split handlerKey "." in
  key <- index spl 0 ;;
  handler <- index spl 1 ;;
  let spl := strings.Split handler "(" in
  if (List.length spl =? 1)%nat then Ret (key, handler, [], None)
  else
    handler <- index spl 0 ;;
    argsStr <- index spl 1 ;;
    c <- byteAt argsStr (Z.of_nat (String.length argsStr) - 1) ;;
    if negb (Ascii.eqb c ")"%char) then
      Ret (key, handler, [], Some ErrExpectedEndParen)
    else
      let argsStr := take (String.length argsStr - 1) argsStr in
      Ret (key, handler, strings.Split argsStr ",", None).

(** [stripEmpty] drops the empty strings of a slice. *)
Fixpoint stripEmpty (ss : list string) : list string :=
  match ss with
  | [] => []
  | str :: rest =>
      if (String.length str =? 0)%nat then stripEmpty rest
      else str :: stripEmpty rest
  end.

(** [removeBranchHash] cuts the key at its first '#', then at its first '@'. *)
Definition removeBranchHash (gitURL : string) : Res string :=
  spl0 <- index (strings.Split gitURL "#") 0 ;;
  index (strings.Split spl0 "@") 0.

Module filepath.

(** The text behind the last slash. *)
Definition lastElem (p : string) : string := snd (path.Split p).

(** [filepath.Ext]: from the last dot of the last element on, or empty. *)
Definition Ext (p : string) : string :=
  let name := lastElem p in
  match strings.LastIndexByte name "."%char with
  | Some i => drop i name
  | None => EmptyString
  end.

Fixpoint trimSlashes (s : string) : string :=
  match s with
  | EmptyString => EmptyString
  | String c s' =>
      match trimSlashes s' with
      | EmptyString => if Ascii.eqb c "/"%char then EmptyString
                       else String c EmptyString
      | t => String c t
      end
  end.

(** [filepath.Base] (Unix): the last element, trailing slashes removed. *)
Definition Base (p : string) : string :=
  match p with
  | EmptyString => "."
  | _ =>
      match lastElem (trimSlashes p) with
      | EmptyString => "/"
      | e => e
      end
  end.

End filepath.

(** [getPluginKey]: the base name up to its first dot. *)
Definition getPluginKey (filename : string) : Res string :=
  index (strings.Split (filepath.Base filename) ".") 0.

(** What the code reads of a [*url.URL]. *)
Record URL : Type := { Path : string; Fragment : string }.

(** The functions of Go's library that are called and not re-implemented
    here: [url.Parse] (an error, or the URL) and [path.Join] (on Unix,
    [filepath.Join] is the same function). *)
Record GoLib : Type := {
  url_Parse : string -> URL + Err;
  path_Join : list string -> string
}.

(** A symbol of a loaded plugin, by its Go type. *)
Inductive Symbol : Type :=
| FuncError            (* a func() error *)
| FuncInterface        (* a func() interface{} *)
| OtherSymbol (typeName : string).

(** What the code reads of a [*plugin.Plugin]: its path and its symbols. *)
Record Handle : Type := {
  pluginpath : string;
  syms : list (string * Symbol)
}.

(** A plugin entry. The logger [out] is not modelled (it only prints), nor is
    the goloader code module [cm]. [p] is the [*plugin.Plugin], [None] for
    [nil]. *)
Record Plugin : Type := {
  p : option Handle;
  importKey : string;
  alias : string;
  gitURL : string;
  filename : string;
  branch : string;
  update : bool
}.

Definition set_branch (b : string) (x : Plugin) : Plugin :=
  {| p := p x; importKey := importKey x; alias := alias x; gitURL := gitURL x;
     filename := filename x; branch := b; update := update x |}.
Definition set_p (h : option Handle) (x : Plugin) : Plugin :=
  {| p := h; importKey := importKey x; alias := alias x; gitURL := gitURL x;
     filename := filename x; branch := branch x; update := update x |}.

(** [addToMap] returns false if key was already in map; else the map gains
    the key. The results are the map it leaves, and the answer. *)
Definition addToMap (key val : string) (uniqueKeys : list (string * string))
  : list (string * string) * bool :=
  if existsb (fun kv => String.eqb (fst kv) key) uniqueKeys
  then (uniqueKeys, false)
  else (uniqueKeys ++ [(key, val)], true).

Definition isLocal (path : string) : bool := strings.HasPrefix path "./".

Section WithGoLib.

Variable lib : GoLib.

(** [gitRepoFromURL] will truncate a nested plugin source to the git repo
    that needs updating. *)
Definition gitRepoFromURL (gitURL : string) : Res string :=
  let comps := strings.Split gitURL "/" in
  if (3 <? List.length comps)%nat then
    c0 <- index comps 0 ;;
    c1 <- index comps 1 ;;
    c2 <- index comps 2 ;;
    Ret (path_Join lib [c0; c1; c2])
  else Ret gitURL.

(** [isGitReference]: the key parses as a URL behind an http scheme. *)
Definition isGitReference (handlerKey : string) : bool :=
  match url_Parse lib ("http://" ++ handlerKey) with
  | inl _ => true
  | inr _ => false
  end.

(** [getGitURLParts]: the results are (gitUser, repoName, branch, err). *)
Definition getGitURLParts (gitURL : string)
  : Res (string * string * string * error) :=
  let comps := strings.Split gitURL "@" in
  comps0 <- index comps 0 ;;
  match url_Parse lib ("http://" ++ comps0) with
  | inr err => Ret ("", "", "", Some err)
  | inl u =>
      let parts := stripEmpty (strings.Split (Path u) "/") in
      gitUser <- index parts 0 ;;
      repoName <- index parts 1 ;;
      if (1 <? List.length comps)%nat then
        branch <- index comps 1 ;;
        Ret (gitUser, repoName, branch, None)
      else
        Ret (gitUser, repoName, Fragment u, None)
  end.

(** [newPlugin] of the registry that keeps a slice of records: a key that
    parses as a URL is a repository reference; any other key must name a
    [.so] file. The results are (pp, err). *)
Definition newPlugin (dir key : string) (update : bool)
  : Res (option Plugin * error) :=
  let importKey := key in
  ka <- ParseKey key ;;
  let '(key, alias) := ka in
  if isGitReference key then
    parts <- getGitURLParts key ;;
    let '(_, repoName, branch, err) := parts in
    match err with
    | Some e => Ret (None, Some e)
    | None =>
        let alias :=
          if (String.length alias =? 0)%nat then repoName else alias in
        gitURL <- removeBranchHash key ;;
        Ret (Some {| p := None; importKey := importKey; alias := alias;
                     gitURL := gitURL;
                     filename := path_Join lib [dir; (alias ++ ".so")%string];
                     branch := branch; update := update |}, None)
    end
  else
    if String.eqb (filepath.Ext key) ".so" then
      alias <- (if (String.length alias =? 0)%nat then getPluginKey key
                else Ret alias) ;;
      Ret (Some {| p := None; importKey := importKey; alias := alias;
                   gitURL := ""; filename := key; branch := "";
                   update := update |}, None)
    else
      Ret (None, Some (Error ("plugin type not supported: " ++ key))).

End WithGoLib.

(** plugin.go holds an earlier [newPlugin]: a key with a file extension is a
    plugin file, whatever else it looks like. *)
Module PluginGo.

(** Modelled from the spec: the function [parseKey] that plugin.go calls,
    which the sources hold only under its later name [ParseKey]. The
    specification describes it as [ParseKey] is written: it splits on the
    literal delimiter [" as "], the second half (if present) is the explicit
    alias, otherwise the alias is the final path segment, truncated at the
    first occurrence of a hyphen, then of an at sign, then of a hash. *)
Definition parseKey (key : string) : Res (string * string) := ParseKey key.

Section WithGoLib.

Variable lib : GoLib.

Definition newPlugin (dir key : string) (update : bool)
  : Res (option Plugin * error) :=
  let importKey := key in
  ka <- parseKey key ;;
  let '(key, alias) := ka in
  if negb (String.eqb (filepath.Ext key) "") then
    alias <- (if (String.length alias =? 0)%nat then getPluginKey key
              else Ret alias) ;;
    Ret (Some {| p := None; importKey := importKey; alias := alias;
                 gitURL := ""; filename := key; branch := "";
                 update := update |}, None)
  else if isGitReference lib key then
    parts <- getGitURLParts lib key ;;
    let '(_, repoName, branch, err) := parts in
    match err with
    | Some e => Ret (None, Some e)
    | None =>
        let alias :=
          if (String.length alias =? 0)%nat then repoName else alias in
        gitURL <- removeBranchHash key ;;
        Ret (Some {| p := None; importKey := importKey; alias := alias;
                     gitURL := gitURL;
                     filename := path_Join lib [dir; (alias ++ ".so")%string];
                     branch := branch; update := update |}, None)
    end
  else
    Ret (None, Some (Error ("plugin type not supported: " ++ key))).

End WithGoLib.

End PluginGo.

(** An instance of [GoLib] for running the model on plain keys: no validation
    ([url.Parse] rejects control bytes, bad escapes, bad ports and bad host
    characters; none occur in the keys used below), the fragment cut at the
    first '#', the query at the first '?', the host up to the first slash;
    [Join] of clean, non-empty elements. *)
Definition cut (s sep : string) : string * string :=
  match strings.Index s sep with
  | Some i => (take i s, drop (i + String.length sep) s)
  | None => (s, EmptyString)
  end.

Definition plainLib : GoLib :=
  {| url_Parse := fun raw =>
       let '(u, frag) := cut raw "#" in
       let '(u, _) := cut u "?" in
       let rest := drop 7 u in
       match strings.Index rest "/" with
       | Some i => inl {| Path := drop i rest; Fragment := frag |}
       | None => inl {| Path := ""; Fragment := frag |}
       end;
     path_Join := String.concat "/" |}.

(* ================================================================== *)
(** ** Go values behind [interface{}] and the part of [reflect] that
       [Backend] uses *)

Inductive GoType : Type :=
| TInt
| TString
| TNamed (name : string) (methods : list string)
| TPtr (elem : GoType)
| TInterface (name : string) (methods : list string).

Lemma GoType_eq_dec (a b : GoType) : {a = b} + {a <> b}.
Proof.
  decide equality; try apply string_dec; apply (list_eq_dec string_dec).
Defined.

Fixpoint typeName (t : GoType) : string :=
  match t with
  | TInt => "int"
  | TString => "string"
  | TNamed n _ => n
  | TPtr e => "*" ++ typeName e
  | TInterface n _ => n
  end.

(** The method set of a type, each method a name with its signature. *)
Definition methodSet (t : GoType) : list string :=
  match t with
  | TNamed _ ms => ms
  | TInterface _ ms => ms
  | TPtr (TNamed _ ms) => ms
  | _ => []
  end.

Inductive GoVal : Type :=
| VInt (n : Z)
| VString (s : string)
| VOpaque (n : nat)
| VPtr (target : option nat)              (* nil, or the address of a variable *)
| VNilIface                               (* a nil interface variable *)
| VIface (t : GoType) (v : GoVal).        (* an interface variable's content *)

(** A value of type [interface{}]: nil, or a dynamic type with its value. *)
Definition iface : Type := option (GoType * GoVal).

(** The variables a pointer can point to: declared type and content. *)
Definition Heap : Type := list (GoType * GoVal).

Fixpoint store {A} (l : list A) (i : nat) (a : A) : list A :=
  match l, i with
  | [], _ => []
  | _ :: l', 0 => a :: l'
  | x :: l', S j => x :: store l' j a
  end.

Module reflect.

(** A [reflect.Value]: the zero Value, or a typed value that is
    addressable when it was reached through a pointer. *)
Inductive Value : Type :=
| Zero
| Val (typ : GoType) (v : GoVal) (addr : option nat).

Definition ValueOf (i : iface) : Value :=
  match i with
  | None => Zero
  | Some (t, v) => Val t v None
  end.

(** [Value.Elem] panics unless the kind is Interface or Ptr; a nil pointer
    or nil interface gives the zero Value. *)
Definition Elem (heap : Heap) (x : Value) : Res Value :=
  match x with
  | Zero => Panic (ReflectPanic "reflect.Value.Elem on zero Value")
  | Val (TPtr _) (VPtr None) _ => Ret Zero
  | Val (TPtr _) (VPtr (Some l)) _ =>
      match nth_error heap l with
      | Some (t, v) => Ret (Val t v (Some l))
      | None => Panic NilPointerDereference
      end
  | Val (TInterface _ _) VNilIface _ => Ret Zero
  | Val (TInterface _ _) (VIface t v) _ => Ret (Val t v None)
  | Val t _ _ =>
      Panic (ReflectPanic ("reflect.Value.Elem on " ++ typeName t ++ " Value"))
  end.

Definition CanSet (x : Value) : bool :=
  match x with
  | Val _ _ (Some _) => true
  | _ => false
  end.

Definition Type_ (x : Value) : Res GoType :=
  match x with
  | Zero => Panic (ReflectPanic "reflect.Value.Type on zero Value")
  | Val t _ _ => Ret t
  end.

(** [Type.Implements] panics on a non-interface argument. *)
Definition Implements (t u : GoType) : Res bool :=
  match u with
  | TInterface _ ms =>
      Ret (forallb (fun m => existsb (String.eqb m) (methodSet t)) ms)
  | _ => Panic (ReflectPanic "non-interface type passed to Type.Implements")
  end.

(** [Value.Set]: the variable behind [x] receives [y]. *)
Definition Set_ (heap : Heap) (x y : Value) : Res Heap :=
  match x, y with
  | Val t _ (Some l), Val ty vy _ =>
      match t with
      | TInterface _ _ => Ret (store heap l (t, VIface ty vy))
      | _ => Ret (store heap l (t, vy))
      end
  | _, _ => Panic (ReflectPanic "reflect.Value.Set")
  end.

End reflect.

(* ================================================================== *)
(** ** The world outside the process *)

(** The calls that leave the process. A command of [os/exec] is named by its
    tool and arguments and by the git URL its working directory is computed
    from. *)
Inductive Call : Type :=
| GitCheckout (gitURL branch : string)   (* git checkout <branch> *)
| GitFetchTags (gitURL : string)         (* git fetch --tags --force *)
| GitPull (gitURL : string)              (* git pull origin *)
| GoModDownload (gitURL : string)        (* go mod download *)
| GoGet (gitURL : string)                (* go get -v -d -buildmode=plugin *)
| GoBuild (gitURL filename : string)     (* go build ... -o <cwd>/<filename> *)
| GoTest (gitURL : string)               (* go test *)
| OpenPlugin (filename : string)         (* plugin.Open *)
| CallSymbol (pluginpath name : string). (* a function of a loaded plugin *)

(** What [Cmd.Run] leaves: its error and the two buffers. *)
Record Output : Type := { runErr : error; stdout : string; stderr : string }.

Definition History : Type := list Call.

(** The environment answers every call from the history of the calls made
    so far. [stat] is [os.Stat]: [None] for an error, else [IsDir]. *)
Record Env : Type := {
  run : History -> Call -> Output;
  stat : History -> string -> option bool;
  goSrcDir : string -> string;
  pluginOpen : History -> string -> option Handle * error;
  callError : History -> string -> string -> error;
  callInterface : History -> string -> string -> iface
}.

(** Effectful code: a function of the history that returns or panics, and
    the history it leaves. *)
Definition M (A : Type) : Type := History -> Res A * History.

Definition ret {A} (a : A) : M A := fun h => (Ret a, h).

Definition bind {A B} (m : M A) (k : A -> M B) : M B :=
  fun h =>
    match m h with
    | (Ret a, h') => k a h'
    | (Panic e, h') => (Panic e, h')
    end.

Definition liftRes {A} (r : Res A) : M A := fun h => (r, h).

Declare Scope m_scope.
Delimit Scope m_scope with M.
Notation "x <- m ;; k" := (bind m (fun x => k))
  (at level 61, m at next level, right associativity) : m_scope.
Notation "' pat <- m ;; k" := (bind m (fun x => match x with pat => k end))
  (at level 61, pat pattern, m at next level, right associativity) : m_scope.

(** [errors.ErrorList] of github.com/hatchify/errors: [Push] drops nil,
    appends an error, and appends the members of a list; [Err] is nil for an
    empty list. *)
Definition Push (errs : list string) (e : error) : list string :=
  match e with
  | None => errs
  | Some (Error msg) => errs ++ [msg]
  | Some (ErrorList msgs) => errs ++ msgs
  end.

Definition Err_ (errs : list string) : error :=
  match errs with
  | [] => None
  | _ => Some (ErrorList errs)
  end.

Section WithEnv.

Variable env : Env.

Local Open Scope m_scope.

Definition exec (c : Call) : M Output :=
  fun h => (Ret (run env h c), h ++ [c]).

Definition osStat (name : string) : M (option bool) :=
  fun h => (Ret (stat env h name), h).

(** *** utils.go: the tools *)

Definition gitFetchTags (gitURL : string) : M error :=
  o <- exec (GitFetchTags gitURL) ;;
  ret (runErr o).

(** The results are (resp, err). *)
Definition gitCheckout (gitURL branch : string) : M (string * error) :=
  o <- exec (GitCheckout gitURL branch) ;;
  match runErr o, String.length (stderr o) with
  | None, 0 => ret (stdout o, None)
  | _, _ =>
      let errStr := stderr o in
      if String.eqb errStr "" then ret ("", runErr o)
      else if strings.Contains errStr "Already on" then ret ("", runErr o)
      else if strings.Contains errStr "Switched to" then
        ret (stderr o, runErr o)
      else ret ("", Some (Error (stderr o)))
  end.

Definition gitPull (gitURL : string) : M (string * error) :=
  o <- exec (GitPull gitURL) ;;
  match runErr o with
  | Some e =>
      if (0 <? String.length (stderr o))%nat
      then ret ("", Some (Error (stderr o)))
      else ret ("", Some e)
  | None =>
      let outStr := stdout o in
      if strings.Contains outStr "up to date" then ret ("", None)
      else ret (outStr, None)
  end.

Definition updatePluginDependencies (gitURL : string) : M error :=
  o <- exec (GoModDownload gitURL) ;;
  match runErr o with
  | Some _ => ret (Some (Error (stderr o)))
  | None => ret None
  end.

Definition goGet (gitURL : string) : M error :=
  o <- exec (GoGet gitURL) ;;
  match runErr o with
  | Some _ => ret (Some (Error (stderr o)))
  | None => ret None
  end.

Definition goBuild (gitURL filename : string) : M error :=
  o <- exec (GoBuild gitURL filename) ;;
  match runErr o with
  | Some e =>
      if (0 <? String.length (stderr o))%nat
      then ret (Some (Error (stderr o)))
      else ret (Some e)
  | None => ret None
  end.

(** The results are (pass, err). *)
Definition goTest (gitURL : string) : M (bool * error) :=
  o <- exec (GoTest gitURL) ;;
  match runErr o with
  | Some _ => ret (false, Some (Error (stderr o)))
  | None => ret (strings.Contains (stdout o) "PASS", None)
  end.

Definition doesPluginExist (filename : string) : M bool :=
  info <- osStat filename ;;
  match info with
  | None => ret false
  | Some isDir => ret (negb isDir)
  end.

Definition doesPluginSourceExist (gitURL : string) : M bool :=
  info <- osStat (goSrcDir env gitURL) ;;
  match info with
  | None => ret false
  | Some isDir => ret isDir
  end.

(** *** The methods of a plugin entry *)

Definition checkout (pi : Plugin) : M error :=
  '(status, err) <- gitCheckout (gitURL pi) (branch pi) ;;
  ret err.

Definition updateDependencies (pi : Plugin) : M error :=
  updatePluginDependencies (gitURL pi).

Definition headIsNowAt (e : Err) : bool :=
  strings.Contains (Error_text e) "HEAD is now at".

(** The results are (shouldPull, err). *)
Definition setTargetBranch (pi : Plugin) : M (bool * error) :=
  let setVersion : M (bool * error) :=
    (* No need to pull *)
    err <- updateDependencies pi ;;
    ret (false, err) in
  err <- checkout pi ;;
  match err with
  | Some e =>
      (* Err is expected when setting an explicit version *)
      if negb (headIsNowAt e) then
        err <- gitFetchTags (gitURL pi) ;;
        match err with
        | Some _ => ret (true, err)
        | None =>
            err <- checkout pi ;;
            match err with
            | None => ret (true, err)
            | Some e' =>
                if negb (headIsNowAt e') then ret (true, err)
                else setVersion
            end
        end
      else setVersion
  | None =>
      (* Currently tracking release channel or current branch, needs pull *)
      ret (true, None)
  end.

(** [updatePlugin] may change the entry's branch: the results are the
    entry and err. *)
Definition updatePlugin (pi : Plugin) (branch' : string)
  : M (Plugin * error) :=
  let pull (pi : Plugin) : M (Plugin * error) :=
    (* Ensure we're up to date with the given branch *)
    '(status, err) <- gitPull (gitURL pi) ;;
    match err, String.length status with
    | None, 0 => ret (pi, None)          (* Already had these refs *)
    | _, _ =>
        err <- updateDependencies pi ;;
        ret (pi, err)
    end in
  if (String.length (gitURL pi) =? 0)%nat then ret (pi, None)
  else
    exists_ <- doesPluginSourceExist (gitURL pi) ;;
    _ <- (if negb exists_ then goGet (gitURL pi) else ret None) ;;
    (* Override branch if set *)
    let pi := if (0 <? String.length branch')%nat
              then set_branch branch' pi else pi in
    if (0 <? String.length (branch pi))%nat then
      '(shouldPull, err) <- setTargetBranch pi ;;
      match shouldPull, err with
      | true, None => pull pi
      | _, _ => ret (pi, err)
      end
    else pull pi.

Definition build (pi : Plugin) : M error :=
  goBuild (gitURL pi) (filename pi).

Definition test (pi : Plugin) : M error :=
  exists_ <- doesPluginExist (filename pi) ;;
  if exists_ && negb (update pi) then ret None
  else
    '(pass, err) <- goTest (gitURL pi) ;;
    match err with
    | Some _ => ret (Some (Error (alias pi ++ " failed test")))
    | None => ret None
    end.

(** [init] as plugin.go has it: [p.p, err = plugin.Open(p.filename)]. The
    results are the entry and err. *)
Definition init (pi : Plugin) : M (Plugin * error) :=
  fun h =>
    let '(handle, err) := pluginOpen env h (filename pi) in
    (Ret (set_p handle pi, err), h ++ [OpenPlugin (filename pi)]).

End WithEnv.

(* ================================================================== *)
(** ** The registry *)

Record Plugins : Type := {
  dir : string;        (* Root directory *)
  Branch : string;     (* Override config if set *)
  ps : list Plugin;    (* Internal plugin store *)
  closed : bool
}.

Definition set_ps (l : list Plugin) (r : Plugins) : Plugins :=
  {| dir := dir r; Branch := Branch r; ps := l; closed := closed r |}.
Definition set_closed (b : bool) (r : Plugins) : Plugins :=
  {| dir := dir r; Branch := Branch r; ps := ps r; closed := b |}.

(** Modelled from the spec: the method [append] of the type [pluginslice],
    which the sources do not hold. "Fails with duplicate alias if the
    derived/explicit alias already exists in the registry", "without mutating
    state"; otherwise it "appends the record". The error is the package's
    [ErrPluginKeyExists]. *)
Definition pluginslice_append (s : list Plugin) (pi : Plugin)
  : list Plugin * error :=
  if existsb (fun x => String.eqb (alias x) (alias pi)) s
  then (s, Some ErrPluginKeyExists)
  else (s ++ [pi], None).

(** Modelled from the spec: the method [get] of the type [pluginslice],
    which the sources do not hold: the record registered under an alias,
    and whether there is one. *)
Definition pluginslice_get (s : list Plugin) (key : string) : option Plugin :=
  find (fun x => String.eqb (alias x) key) s.

(** [New] will return a new instance of plugins. *)
Definition New (dir : string) : option Plugins * error :=
  if (String.length dir =? 0)%nat then (None, Some ErrInvalidDir)
  else (Some {| dir := dir; Branch := ""; ps := []; closed := false |}, None).

(** [Plugins.New] will load a new plugin by plugin key. The results are the
    registry it leaves, and (key, err). *)
Definition Plugins_New (lib : GoLib) (r : Plugins) (pluginKey : string)
  (update : bool) : Res (Plugins * (string * error)) :=
  (pe <- newPlugin lib (dir r) pluginKey update ;;
   match pe with
   | (_, Some e) => Ret (r, ("", Some e))
   | (None, None) => Panic NilPointerDereference
   | (Some pi, None) =>
       let '(out, err) := pluginslice_append (ps r) pi in
       let r := set_ps out r in
       match err with
       | Some e => Ret (r, ("", Some e))
       | None => Ret (r, (alias pi, None))
       end
   end)%res.

(** [plugin.Plugin.Lookup] of Go's library: the symbol, or an error; a nil
    receiver is dereferenced. *)
Definition plugin_Lookup (h : option Handle) (symName : string)
  : Res (option Symbol * error) :=
  match h with
  | None => Panic NilPointerDereference
  | Some h =>
      match find (fun kv => String.eqb (fst kv) symName) (syms h) with
      | Some (_, sym) => Ret (Some sym, None)
      | None =>
          Ret (None, Some (Error ("plugin: symbol " ++ symName ++
                                  " not found in plugin " ++ pluginpath h)))
      end
  end.

(** The queue of github.com/gdbu/queue runs the submitted tasks in an order
    of its own. [picks] tells, round by round, which of the waiting tasks
    runs next; a task runs to its end before the next one is picked. *)
Fixpoint schedule {A} (picks : list nat) (fuel : nat) (waiting : list A)
  : list A :=
  match fuel, waiting with
  | 0, _ => []
  | _, [] => []
  | S f, x :: _ =>
      let i := hd 0 picks mod List.length waiting in
      nth i waiting x ::
        schedule (tl picks) f (firstn i waiting ++ skipn (S i) waiting)
  end.

Section Registry.

Variable env : Env.
Variable lib : GoLib.

Local Open Scope m_scope.

(** [Retrieve] will update or download all of the plugins: one update per
    repository, none for local plugins. The entries are updated in place:
    the results are the entries as the loop leaves them, and err. *)
Fixpoint retrieveAll (l : list Plugin) (branch' : string)
  (uniqueKeys : list (string * string)) : M (list Plugin * error) :=
  match l with
  | [] => ret ([], None)
  | pi :: rest =>
      gitRepo <- liftRes (gitRepoFromURL lib (gitURL pi)) ;;
      let '(uniqueKeys, added) := addToMap gitRepo "" uniqueKeys in
      if negb added then
        '(rest', err) <- retrieveAll rest branch' uniqueKeys ;;
        ret (pi :: rest', err)
      else if isLocal (gitURL pi) then
        (* Skip fetch on local plugins *)
        '(rest', err) <- retrieveAll rest branch' uniqueKeys ;;
        ret (pi :: rest', err)
      else
        '(pi', err) <- updatePlugin env pi branch' ;;
        match err with
        | Some _ => ret (pi' :: rest, err)
        | None =>
            '(rest', err) <- retrieveAll rest branch' uniqueKeys ;;
            ret (pi' :: rest', err)
        end
  end.

Definition Retrieve (r : Plugins) : M (Plugins * error) :=
  '(l, err) <- retrieveAll (ps r) (Branch r) [] ;;
  ret (set_ps l r, err).

(** [Build] will build all of the plugins. *)
Fixpoint buildAll (l : list Plugin) : M error :=
  match l with
  | [] => ret None
  | pi :: rest =>
      err <- build env pi ;;
      match err with
      | Some _ => ret err
      | None => buildAll rest
      end
  end.

Definition Build (r : Plugins) : M error := buildAll (ps r).

(** [BuildAsync]: one task per record, each pushing the result of its
    build; the tasks run in the order the queue picks. *)
Fixpoint buildTasks (order : list Plugin) (errs : list string)
  : M (list string) :=
  match order with
  | [] => ret errs
  | pi :: rest =>
      err <- build env pi ;;
      buildTasks rest (Push errs err)
  end.

Definition BuildAsync (picks : list nat) (r : Plugins) : M error :=
  errs <- buildTasks (schedule picks (List.length (ps r)) (ps r)) [] ;;
  ret (Err_ errs).

(** [Test] will test all of the plugins. *)
Fixpoint testAll (l : list Plugin) : M error :=
  match l with
  | [] => ret None
  | pi :: rest =>
      err <- test env pi ;;
      match err with
      | Some _ => ret err
      | None => testAll rest
      end
  end.

Definition Test (r : Plugins) : M error := testAll (ps r).

(** [TestAsync]: as [BuildAsync], with the tests. *)
Fixpoint testTasks (order : list Plugin) (errs : list string)
  : M (list string) :=
  match order with
  | [] => ret errs
  | pi :: rest =>
      err <- test env pi ;;
      testTasks rest (Push errs err)
  end.

Definition TestAsync (picks : list nat) (r : Plugins) : M error :=
  errs <- testTasks (schedule picks (List.length (ps r)) (ps r)) [] ;;
  ret (Err_ errs).

(** [Initialize] will initialize all loaded plugins, up to the first that
    fails to load. *)
Fixpoint initAll (l : list Plugin) : M (list Plugin * error) :=
  match l with
  | [] => ret ([], None)
  | pi :: rest =>
      '(pi', err) <- init env pi ;;
      match err with
      | Some _ => ret (pi' :: rest, err)
      | None =>
          '(rest', err) <- initAll rest ;;
          ret (pi' :: rest', err)
      end
  end.

Definition Initialize (r : Plugins) : M (Plugins * error) :=
  '(l, err) <- initAll (ps r) ;;
  ret (set_ps l r, err).

(** [Get] will return a plugin by key: (plugin, err). *)
Definition Get (r : Plugins) (key : string) : option Handle * error :=
  match pluginslice_get (ps r) key with
  | None =>
      (None, Some (Error ("Cannot find plugin " ++ key ++ ": " ++
                          Error_text ErrPluginNotLoaded)))
  | Some pi => (p pi, None)
  end.

Definition symbolType (s : Symbol) : string :=
  match s with
  | FuncError => "func() error"
  | FuncInterface => "func() interface {}"
  | OtherSymbol n => n
  end.

Definition callSymbolInterface (h : Handle) (name : string) : M iface :=
  fun hist => (Ret (callInterface env hist (pluginpath h) name),
               hist ++ [CallSymbol (pluginpath h) name]).

Definition callSymbolError (h : Handle) (name : string) : M error :=
  fun hist => (Ret (callError env hist (pluginpath h) name),
               hist ++ [CallSymbol (pluginpath h) name]).

(** [Backend] will associate the backend of the requested key. [backend]
    is the destination as the caller passed it; the results are the heap
    it leaves, and err. *)
Definition Backend (r : Plugins) (key : string) (backend : iface)
  (heap : Heap) : M (Heap * error) :=
  match Get r key with
  | (_, Some e) => ret (heap, Some e)
  | (pi, None) =>
      '(sym, err) <- liftRes (plugin_Lookup pi "Backend") ;;
      match err, sym, pi with
      | Some e, _, _ => ret (heap, Some e)
      | None, Some FuncInterface, Some h =>
          let refVal := reflect.ValueOf backend in
          elem <- liftRes (reflect.Elem heap refVal) ;;
          if negb (reflect.CanSet elem) then
            ret (heap, Some ErrNotAddressable)
          else
            be <- callSymbolInterface h "Backend" ;;
            let beVal := reflect.ValueOf be in
            et <- liftRes (reflect.Type_ elem) ;;
            bt <- liftRes (reflect.Type_ beVal) ;;
            if GoType_eq_dec et bt then
              heap' <- liftRes (reflect.Set_ heap elem beVal) ;;
              ret (heap', None)
            else
              impl <- liftRes (reflect.Implements bt et) ;;
              if impl then
                heap' <- liftRes (reflect.Set_ heap elem beVal) ;;
                ret (heap', None)
              else
                (* The provided value isn't an exact match, nor does it
                   match the provided interface *)
                ret (heap, Some (Error ("invalid type, expected " ++
                       typeName et ++ " and received " ++ typeName bt)))
      | None, Some s, _ =>
          ret (heap, Some (Error
            ("invalid symbol, expected func() interface{} and received " ++
             symbolType s)))
      | None, None, _ => ret (heap, Some (Error
            "invalid symbol, expected func() interface{} and received <nil>"))
      end
  end.

(** [closePlugin]: a plugin without a [Close] symbol, or with one of
    another type, has nothing to close. *)
Definition closePlugin (h : option Handle) : M error :=
  '(sym, err) <- liftRes (plugin_Lookup h "Close") ;;
  match err, sym, h with
  | Some _, _, _ => ret None
  | None, Some FuncError, Some h => callSymbolError h "Close"
  | None, _, _ => ret None
  end.

Fixpoint closeAll (l : list Plugin) (errs : list string) : M (list string) :=
  match l with
  | [] => ret errs
  | pi :: rest =>
      err <- closePlugin (p pi) ;;
      match err with
      | Some e =>
          closeAll rest
            (Push errs (Some (Error ("error closing " ++ alias pi ++ " (" ++
               filename pi ++ "): " ++ Error_text e))))
      | None => closeAll rest errs
      end
  end.

(** [Close] will close plugins: the results are the registry it leaves,
    and err. *)
Definition Close (r : Plugins) : M (Plugins * error) :=
  if closed r then ret (r, Some ErrIsClosed)
  else
    errs <- closeAll (ps r) [] ;;
    ret (set_closed true r, Err_ errs).

End Registry.

(* ================================================================== *)
(** ** plugin.go: the registry that maps keys to registered plugins *)

Module PluginMap.

Section WithPlugin.

(** The values of the interface [Plugin]. *)
Variable PluginImpl : Type.

(** [pm] is a Go map: the entries in the order they were added, no key
    twice. *)
Record Plugins : Type := {
  pm : list (string * PluginImpl);
  closed : bool
}.

Definition lookup (key : string) (m : list (string * PluginImpl))
  : option PluginImpl :=
  option_map snd (find (fun kv => String.eqb (fst kv) key) m).

Definition newPlugins : Plugins := {| pm := []; closed := false |}.

Definition keyLoaded (key : string) : Err :=
  Error ("plugin with the key of <" ++ key ++ "> has already been loaded").

(** [Register] will register a plugin with a given key: the results are
    the registry it leaves, and err. *)
Definition Register (r : Plugins) (key : string) (pi : PluginImpl)
  : Plugins * error :=
  if closed r then (r, Some ErrIsClosed)
  else
    match lookup key (pm r) with
    | Some _ => (r, Some (keyLoaded key))
    | None => ({| pm := pm r ++ [(key, pi)]; closed := closed r |}, None)
    end.

(** [Get] will get a plugin by its key: (pi, err). *)
Definition Get (r : Plugins) (key : string) : option PluginImpl * error :=
  if closed r then (None, Some ErrIsClosed)
  else
    match lookup key (pm r) with
    | Some pi => (Some pi, None)
    | None =>
        (None, Some (Error ("plugin with key of <" ++ key ++
                            "> has not been registered")))
    end.

End WithPlugin.

End PluginMap.

(* ================================================================== *)
(** ** Runs of single builds, and environments to run the model in *)

(** The command a build of a record runs. *)
Definition buildCall (pi : Plugin) : Call := GoBuild (gitURL pi) (filename pi).

(** [BuildRun env h results h']: starting from the history [h], the records
    of [results] were built one after the other, each with the outcome
    paired with it, leaving the history [h']. *)
Inductive BuildRun (env : Env) : History -> list (Plugin * error) -> History
  -> Prop :=
| BuildRun_nil (h : History) : BuildRun env h [] h
| BuildRun_cons (h h1 h2 : History) (pi : Plugin) (err : error)
    (rest : list (Plugin * error)) :
    build env pi h = (Ret err, h1) ->
    BuildRun env h1 rest h2 ->
    BuildRun env h ((pi, err) :: rest) h2.

(** The texts an [errors.ErrorList] holds after the outcomes of [results]
    were pushed to it: those of the builds that failed, in their order. *)
Definition failures (results : list (Plugin * error)) : list string :=
  flat_map (fun x => Push [] (snd x)) results.

Definition succeeded : Output := {| runErr := None; stdout := ""; stderr := "" |}.

Definition failed (diagnostic : string) : Output :=
  {| runErr := Some (Error "exit status 1"); stdout := "";
     stderr := diagnostic |}.

(** Every tool succeeds silently, no file exists, plugin code returns nil. *)
Definition quietEnv : Env :=
  {| run := fun _ _ => succeeded;
     stat := fun _ _ => None;
     goSrcDir := fun u => ("/go/src/" ++ u)%string;
     pluginOpen := fun _ f =>
       (None, Some (Error ("plugin.Open(" ++ f ++ "): realpath failed")));
     callError := fun _ _ _ => None;
     callInterface := fun _ _ _ => None |}.

(** Every file asked for exists and is no directory. *)
Definition builtEnv : Env :=
  {| run := fun _ _ => succeeded;
     stat := fun _ _ => Some false;
     goSrcDir := fun u => ("/go/src/" ++ u)%string;
     pluginOpen := fun _ f =>
       (None, Some (Error ("plugin.Open(" ++ f ++ "): realpath failed")));
     callError := fun _ _ _ => None;
     callInterface := fun _ _ _ => None |}.

(** The sources are there; git answers a checkout with [checkoutAnswer]
    and a fetch of the tags with [fetchAnswer]. *)
Definition gitEnv (checkoutAnswer fetchAnswer : Output) : Env :=
  {| run := fun _ c =>
       match c with
       | GitCheckout _ _ => checkoutAnswer
       | GitFetchTags _ => fetchAnswer
       | _ => succeeded
       end;
     stat := fun _ _ => Some true;
     goSrcDir := fun u => ("/go/src/" ++ u)%string;
     pluginOpen := fun _ f =>
       (None, Some (Error ("plugin.Open(" ++ f ++ "): realpath failed")));
     callError := fun _ _ _ => None;
     callInterface := fun _ _ _ => None |}.

(** The build of the file named [bad] fails, every other build succeeds. *)
Definition oneBadBuildEnv (bad : string) : Env :=
  {| run := fun _ c =>
       match c with
       | GoBuild _ f => if String.eqb f bad then failed "build failed"
                        else succeeded
       | _ => succeeded
       end;
     stat := fun _ _ => None;
     goSrcDir := fun u => ("/go/src/" ++ u)%string;
     pluginOpen := fun _ f =>
       (None, Some (Error ("plugin.Open(" ++ f ++ "): realpath failed")));
     callError := fun _ _ _ => None;
     callInterface := fun _ _ _ => None |}.

(** The outcome of an operation, with the closed flag of the registry it
    leaves set to [b]. *)
Definition flagged {E} (b : bool) (out : Res (Plugins * E))
  : Res (Plugins * E) :=
  match out with
  | Ret (r', e) => Ret (set_closed b r', e)
  | Panic pe => Panic pe
  end.

(** The destination is no pointer: a nil interface, or a value whose
    dynamic type is neither a pointer type nor (as no dynamic type is) an
    interface type. *)
Definition notPointer (backend : iface) : Prop :=
  match backend with
  | None => True
  | Some (TPtr _, _) => False
  | Some (TInterface _ _, _) => False
  | Some _ => True
  end.

(** What git says on its error stream when it checks out a tag, and when
    it does not know the reference. *)
Definition detachedNotice : Output :=
  {| runErr := None; stdout := "";
     stderr := "Note: switching to 'v1.2.0'. HEAD is now at 1a2b3c4 release" |}.

Definition unknownRef : Output :=
  failed "error: pathspec 'v1.2.0' did not match any file(s) known to git".

Definition pinned : Plugin :=
  {| p := None; importKey := "github.com/user/plugin@v1.2.0";
     alias := "plugin"; gitURL := "github.com/user/plugin";
     filename := "plugins/plugin.so"; branch := "v1.2.0"; update := false |}.

(** A loaded plugin with a [Close] and a [Backend] symbol. *)
Definition fooHandle : Handle :=
  {| pluginpath := "plugins/foo.so";
     syms := [("Close", FuncError); ("Backend", FuncInterface)] |}.

Definition foo : Plugin :=
  {| p := Some fooHandle; importKey := "github.com/user/foo";
     alias := "foo"; gitURL := "github.com/user/foo";
     filename := "plugins/foo.so"; branch := ""; update := false |}.

Definition bar : Plugin :=
  {| p := None; importKey := "github.com/user/bar";
     alias := "bar"; gitURL := "github.com/user/bar";
     filename := "plugins/bar.so"; branch := ""; update := false |}.

Definition baz : Plugin :=
  {| p := None; importKey := "github.com/user/baz";
     alias := "baz"; gitURL := "github.com/user/baz";
     filename := "plugins/baz.so"; branch := ""; update := false |}.

Definition registryOf (l : list Plugin) : Plugins :=
  {| dir := "plugins"; Branch := ""; ps := l; closed := false |}.

(* ================================================================== *)
(** ** More of utils.go *)

(** [trimSlash] takes one final slash away. *)
Definition trimSlash (s : string) : Res string :=
  (if (String.length s =? 0)%nat then Ret ""
   else
     c <- byteAt s (Z.of_nat (String.length s) - 1) ;;
     if negb (Ascii.eqb c "/"%char) then Ret s
     else Ret (take (String.length s - 1) s))%res.

(** [getGitDir]: the directory of the repository under $HOME/go/src, from
    the host, the user and the repository name of the git URL. [homeDir] is
    what [os.Getenv("HOME")] answers. *)
Definition getGitDir (lib : GoLib) (homeDir gitURL : string) : Res string :=
  (let spl := strings.Split gitURL "/" in
   let parts := [homeDir; "go"; "src"] in
   parts <- (if (0 <? List.length spl)%nat
             then c <- index spl 0 ;; Ret (parts ++ [c]) else Ret parts) ;;
   parts <- (if (1 <? List.length spl)%nat
             then c <- index spl 1 ;; Ret (parts ++ [c]) else Ret parts) ;;
   parts <- (if (2 <? List.length spl)%nat
             then c <- index spl 2 ;; Ret (parts ++ [c]) else Ret parts) ;;
   Ret (path_Join lib parts))%res.

(** [getGitPluginKey]: the results are (key, branch, err). *)
Definition getGitPluginKey (lib : GoLib) (gitURL : string)
  : Res (string * string * error) :=
  (parts <- getGitURLParts lib gitURL ;;
   let '(_, key, branch, err) := parts in
   Ret (key, branch, err))%res.

(** Go's [int] on the 64-bit platforms: [n++] wraps around. *)
Definition wrapInt (z : Z) : Z :=
  ((z + 2 ^ 63) mod 2 ^ 64 - 2 ^ 63)%Z.

(** How a wait on a channel ends: the function returns, leaving values in
    the channel unread, or it waits for ever. *)
Inductive Waited : Type :=
| Returned (err : error) (unread : list error)
| Blocked.

(** [waitForProcesses] ranges over the channel. [received] holds the values
    the channel delivers, in their order; [chClosed] tells whether the channel
    is closed behind them: a range over an open channel that delivers nothing
    more waits, a range over a closed one ends. [n] is the count so far. *)
Fixpoint waitLoop (received : list error) (chClosed : bool) (n count : Z)
  : Waited :=
  match received with
  | [] => if chClosed then Returned None [] else Blocked
  | err :: rest =>
      match err with
      | Some _ => Returned err rest
      | None =>
          let n := wrapInt (n + 1) in
          if (n =? count)%Z then Returned None rest
          else waitLoop rest chClosed n count
      end
  end.

Definition waitForProcesses (received : list error) (chClosed : bool)
  (count : Z) : Waited :=
  waitLoop received chClosed 0 count.

(* ================================================================== *)
(** ** More of plugin.go: the methods of its plugin entry *)

(** The double quote, for the texts that hold one. *)
Definition quote : string := String "034"%char EmptyString.

Module PluginGoEntry.

Section WithEnv.

Variable env : Env.

Local Open Scope m_scope.

Definition retrieve (pi : Plugin) : M error :=
  if (String.length (gitURL pi) =? 0)%nat then ret None
  else
    exists_ <- doesPluginSourceExist env (gitURL pi) ;;
    if negb exists_ then
      (* We don't have the source yet. Download it *)
      err <- goGet env (gitURL pi) ;;
      match err with
      | Some e => ret (Some (Error ("error performing go get: " ++
                                    Error_text e)))
      | None => ret None
      end
    else
      (* We have the source already. Perform git pull *)
      '(_, err) <- gitPull env (gitURL pi) ;;
      match err with
      | Some e => ret (Some (Error ("error performing git pull: " ++
                                    Error_text e)))
      | None =>
          (* Update all the plugin dependencies *)
          err <- updatePluginDependencies env (gitURL pi) ;;
          match err with
          | Some e => ret (Some (Error ("error updating plugin dependencies: "
                                        ++ Error_text e)))
          | None => ret None
          end
      end.

Definition checkout (pi : Plugin) : M error :=
  if ((String.length (gitURL pi) =? 0) || (String.length (branch pi) =? 0))%nat
  then ret None
  else
    '(status, err) <- gitCheckout env (gitURL pi) (branch pi) ;;
    match err with
    | Some e =>
        ret (Some (Error ("error encountered while switching to " ++ quote ++
                          branch pi ++ quote ++ ": " ++ Error_text e)))
    | None =>
        (* Ensure we're up to date with the given branch *)
        '(status, err) <- gitPull env (gitURL pi) ;;
        match String.length status, err with
        | S _, None =>
            (* Ensure we have all the current dependencies *)
            updatePluginDependencies env (gitURL pi)
        | _, _ => ret err
        end
    end.

End WithEnv.

End PluginGoEntry.

(* ================================================================== *)
(** ** More of plugin.go: the operations of the registry that maps keys *)

Module PluginMapOps.

(** A registered plugin is a value of the interface [Plugin]; here it is
    the name under which the environment answers for its methods. *)
Definition Registry : Type := PluginMap.Plugins string.

(** [Loaded] will return the plugins which have been loaded: a map of its
    own with the same entries. *)
Definition Loaded (r : Registry) : list (string * string) := PluginMap.pm r.

Definition notImplemented : Err := Error "testing has not yet been implemented".

(** [Test] and [TestAsync] return the same error, whatever the registry
    holds. *)
Definition Test (r : Registry) : error := Some notImplemented.
Definition TestAsync (r : Registry) : error := Some notImplemented.

Section WithEnv.

Variable env : Env.

Local Open Scope m_scope.

(** The methods [Backend()] and [Close()] of a registered plugin. *)
Definition callBackend (pi : string) : M iface :=
  fun hist => (Ret (callInterface env hist pi "Backend"),
               hist ++ [CallSymbol pi "Backend"]).

Definition callClose (pi : string) : M error :=
  fun hist => (Ret (callError env hist pi "Close"),
               hist ++ [CallSymbol pi "Close"]).

(** [Backend] will associate the backend of the requested key: the results
    are the heap it leaves, and err. *)
Definition Backend (r : Registry) (key : string) (backend : iface)
  (heap : Heap) : M (Heap * error) :=
  if PluginMap.closed r then ret (heap, Some ErrIsClosed)
  else
    match PluginMap.lookup key (PluginMap.pm r) with
    | None =>
        ret (heap, Some (Error ("plugin with key of <" ++ key ++
                                "> has not been registered")))
    | Some pi =>
        let refVal := reflect.ValueOf backend in
        elem <- liftRes (reflect.Elem heap refVal) ;;
        if negb (reflect.CanSet elem) then ret (heap, Some ErrNotAddressable)
        else
          be <- callBackend pi ;;
          let beVal := reflect.ValueOf be in
          et <- liftRes (reflect.Type_ elem) ;;
          bt <- liftRes (reflect.Type_ beVal) ;;
          if GoType_eq_dec et bt then
            heap' <- liftRes (reflect.Set_ heap elem beVal) ;;
            ret (heap', None)
          else
            impl <- liftRes (reflect.Implements bt et) ;;
            if impl then
              heap' <- liftRes (reflect.Set_ heap elem beVal) ;;
              ret (heap', None)
            else
              ret (heap, Some (Error ("invalid type, expected " ++
                     typeName et ++ " and received " ++ typeName bt)))
    end.

(** The loop of [Close] over the entries, in the order the map hands them
    out. *)
Fixpoint closeEntries (l : list (string * string)) (errs : list string)
  : M (list string) :=
  match l with
  | [] => ret errs
  | (key, pi) :: rest =>
      err <- callClose pi ;;
      match err with
      | Some e =>
          closeEntries rest
            (Push errs (Some (Error ("error closing " ++ key ++ ": " ++
                                     Error_text e))))
      | None => closeEntries rest errs
      end
  end.

(** [Close] will close plugins. A Go map is ranged over in an order of its
    own: [picks] tells, entry by entry, which of the remaining ones comes
    next. The results are the registry it leaves, and err. *)
Definition Close (picks : list nat) (r : Registry) : M (Registry * error) :=
  if PluginMap.closed r then ret (r, Some ErrIsClosed)
  else
    let entries := PluginMap.pm r in
    errs <- closeEntries (schedule picks (List.length entries) entries) [] ;;
    ret ({| PluginMap.pm := PluginMap.pm r; PluginMap.closed := true |},
         Err_ errs).

End WithEnv.

End PluginMapOps.

(* ================================================================== *)
(** ** Runs of single tests, of loads and of closes *)

(** The error [test] makes of a failed test of a record. *)
Definition failedTest (pi : Plugin) : Err := Error (alias pi ++ " failed test").

(** [TestRun env h results h']: starting from the history [h], the records
    of [results] were tested one after the other, each with the outcome
    paired with it, leaving the history [h']. *)
Inductive TestRun (env : Env) : History -> list (Plugin * error) -> History
  -> Prop :=
| TestRun_nil (h : History) : TestRun env h [] h
| TestRun_cons (h h1 h2 : History) (pi : Plugin) (err : error)
    (rest : list (Plugin * error)) :
    test env pi h = (Ret err, h1) ->
    TestRun env h1 rest h2 ->
    TestRun env h ((pi, err) :: rest) h2.

(** The record has a [Close] symbol of the type func() error. *)
Definition closes (pi : Plugin) : bool :=
  match p pi with
  | Some handle =>
      match find (fun kv => String.eqb (fst kv) "Close") (syms handle) with
      | Some (_, FuncError) => true
      | _ => false
      end
  | None => false
  end.

Definition loaded (pi : Plugin) : bool :=
  match p pi with Some _ => true | None => false end.

(** The call of the [Close] symbol of a loaded record. *)
Definition closeCall (pi : Plugin) : Call :=
  CallSymbol (match p pi with Some handle => pluginpath handle | None => "" end)
    "Close".

(** The outcome of a test, as go test ends. *)
Definition goTestEnv (answer : Output) : Env :=
  {| run := fun _ c => match c with GoTest _ => answer | _ => succeeded end;
     stat := fun _ _ => None;
     goSrcDir := fun u => ("/go/src/" ++ u)%string;
     pluginOpen := fun _ f =>
       (None, Some (Error ("plugin.Open(" ++ f ++ "): realpath failed")));
     callError := fun _ _ _ => None;
     callInterface := fun _ _ _ => None |}.

(** Plugin code that answers [Backend()] with [backend] and [Close()] with
    [closeErr]; every file loads, with a [Close] and a [Backend] symbol. *)
Definition pluginEnv (backend : iface) (closeErr : error) : Env :=
  {| run := fun _ _ => succeeded;
     stat := fun _ _ => Some true;
     goSrcDir := fun u => ("/go/src/" ++ u)%string;
     pluginOpen := fun _ f =>
       (Some {| pluginpath := f;
                syms := [("Close", FuncError); ("Backend", FuncInterface)] |},
        None);
     callError := fun _ _ _ => closeErr;
     callInterface := fun _ _ _ => backend |}.

(** Git pulls with [pullAnswer]; the sources are there. *)
Definition pullEnv (pullAnswer : Output) : Env :=
  {| run := fun _ c => match c with GitPull _ => pullAnswer | _ => succeeded end;
     stat := fun _ _ => Some true;
     goSrcDir := fun u => ("/go/src/" ++ u)%string;
     pluginOpen := fun _ f =>
       (None, Some (Error ("plugin.Open(" ++ f ++ "): realpath failed")));
     callError := fun _ _ _ => None;
     callInterface := fun _ _ _ => None |}.

(** The file named [bad] fails to load; every other file loads, with a
    [Close] and a [Backend] symbol. *)
Definition oneBadLoadEnv (bad : string) : Env :=
  {| run := fun _ _ => succeeded;
     stat := fun _ _ => Some false;
     goSrcDir := fun u => ("/go/src/" ++ u)%string;
     pluginOpen := fun _ f =>
       if String.eqb f bad
       then (None, Some (Error ("plugin.Open(" ++ f ++ "): realpath failed")))
       else (Some {| pluginpath := f;
                     syms := [("Close", FuncError);
                              ("Backend", FuncInterface)] |}, None);
     callError := fun _ _ _ => None;
     callInterface := fun _ _ _ => None |}.

(* ================================================================== *)
(** * Properties *)

(** ** Strings *)

Lemma length_append (s t : string) :
  String.length (s ++ t) = String.length s + String.length t.
Proof. induction s as [|c s IH]; simpl; [reflexivity | now rewrite IH]. Qed.

Lemma append_assoc (s t u : string) : ((s ++ t) ++ u = s ++ t ++ u)%string.
Proof. induction s as [|c s IH]; simpl; [reflexivity | now rewrite IH]. Qed.

Lemma length_drop (n : nat) (s : string) :
  String.length (drop n s) = String.length s - n.
Proof.
  revert s; induction n as [|n IH]; intros s.
  - simpl. lia.
  - destruct s as [|c s]; simpl; [reflexivity | apply IH].
Qed.

Lemma take_append (s t : string) : take (String.length s) (s ++ t) = s.
Proof. induction s as [|c s IH]; simpl; [now destruct t | now rewrite IH]. Qed.

Lemma drop_append (s t : string) (n : nat) :
  drop (String.length s + n) (s ++ t) = drop n t.
Proof. induction s as [|c s IH]; simpl; [reflexivity | apply IH]. Qed.

Lemma HasPrefix_refl_append (sep a : string) :
  strings.HasPrefix (sep ++ a) sep = true.
Proof.
  induction sep as [|c sep IH]; simpl; [reflexivity |].
  now rewrite Ascii.eqb_refl, IH.
Qed.

(** A prefix test only reads as many bytes as the prefix has. *)
Lemma HasPrefix_append (pre t u : string) :
  String.length pre <= String.length t ->
  strings.HasPrefix (t ++ u) pre = strings.HasPrefix t pre.
Proof.
  revert t; induction pre as [|c pre IH]; intros t Hlen; [reflexivity |].
  destruct t as [|d t]; simpl in *; [lia |].
  rewrite IH by lia. reflexivity.
Qed.

Lemma HasPrefix_length (s pre : string) :
  strings.HasPrefix s pre = true -> String.length pre <= String.length s.
Proof.
  revert s; induction pre as [|c pre IH]; intros s H; simpl; [lia |].
  destruct s as [|d s]; simpl in *; [discriminate |].
  apply andb_true_iff in H as [_ H]. apply IH in H. lia.
Qed.

Lemma Index_bound (s sep : string) (m : nat) :
  strings.Index s sep = Some m -> m + String.length sep <= String.length s.
Proof.
  revert m; induction s as [|c s IH]; intros m; simpl.
  - destruct (strings.HasPrefix "" sep) eqn:E; [|discriminate].
    intros [= <-]. apply HasPrefix_length in E. simpl in *. lia.
  - destruct (strings.HasPrefix (String c s) sep) eqn:E.
    + intros [= <-]. apply HasPrefix_length in E. simpl in *. lia.
    + destruct (strings.Index s sep) as [k|]; simpl; [|discriminate].
      intros [= <-]. specialize (IH k eq_refl). lia.
Qed.

Lemma Index_unfold (s sep : string) :
  strings.Index s sep =
  if strings.HasPrefix s sep then Some 0
  else match s with
       | EmptyString => None
       | String _ s' => option_map S (strings.Index s' sep)
       end.
Proof. destruct s; reflexivity. Qed.

(** With a non-empty separator, the rounds [genSplit] is given beyond the
    length of the string are never used. *)
Lemma genSplit_fuel (c : ascii) (sep' : string) (f1 f2 : nat) (s : string) :
  String.length s <= f1 -> String.length s <= f2 ->
  strings.genSplit f1 s (String c sep') = strings.genSplit f2 s (String c sep').
Proof.
  revert f2 s; induction f1 as [|f1 IH]; intros f2 s H1 H2.
  - destruct s; simpl in H1; [|lia]. destruct f2; reflexivity.
  - destruct f2 as [|f2].
    + destruct s; simpl in H2; [|lia]. reflexivity.
    + simpl. destruct (strings.Index s (String c sep')) as [m|] eqn:E;
        [|reflexivity].
      apply Index_bound in E. simpl in E.
      f_equal. apply IH; rewrite length_drop; simpl; lia.
Qed.

(** The equation of [strings.Split] for a non-empty separator. *)
Lemma Split_unfold (c : ascii) (sep' s : string) :
  let sep := String c sep' in
  strings.Split s sep =
  match strings.Index s sep with
  | None => [s]
  | Some m => take m s :: strings.Split (drop (m + String.length sep) s) sep
  end.
Proof.
  intros sep. unfold strings.Split, sep.
  destruct (String.length s) as [|n] eqn:Hn.
  - destruct s; [|discriminate]. reflexivity.
  - simpl strings.genSplit.
    destruct (strings.Index s (String c sep')) as [m|] eqn:E; [|reflexivity].
    apply Index_bound in E. simpl in E. f_equal.
    apply genSplit_fuel; rewrite length_drop; simpl; lia.
Qed.

Lemma Split_no_sep (c : ascii) (sep' s : string) :
  strings.Contains s (String c sep') = false ->
  strings.Split s (String c sep') = [s].
Proof.
  unfold strings.Contains. intros H. rewrite Split_unfold.
  destruct (strings.Index s (String c sep')); [discriminate | reflexivity].
Qed.

(** [strings.Split] never returns an empty slice for a non-empty
    separator. *)
Lemma Split_head (c : ascii) (sep' s : string) :
  exists x rest, strings.Split s (String c sep') = x :: rest.
Proof.
  rewrite Split_unfold.
  destruct (strings.Index s (String c sep')); eauto.
Qed.

(** The first occurrence of [" as "] in [s ++ " as " ++ a] is the one
    written there, unless one starts inside [s]. *)
Lemma Index_as (s a : string) :
  strings.Contains (s ++ " as") " as " = false ->
  strings.Index (s ++ " as " ++ a) " as " = Some (String.length s).
Proof.
  unfold strings.Contains.
  induction s as [|c s IH]; intros H.
  - reflexivity.
  - change ((String c s ++ " as " ++ a)%string)
      with (String c (s ++ " as " ++ a)).
    change ((String c s ++ " as")%string) with (String c (s ++ " as")) in H.
    rewrite Index_unfold in H. rewrite Index_unfold.
    destruct (strings.HasPrefix (String c (s ++ " as")) " as ") eqn:E;
      [discriminate |].
    replace (String c (s ++ " as " ++ a))
      with ((String c (s ++ " as")) ++ (" " ++ a))%string
      by (simpl; f_equal; rewrite append_assoc; reflexivity).
    rewrite HasPrefix_append, E
      by (simpl; rewrite length_append; simpl; lia).
    replace ((s ++ " as") ++ " " ++ a)%string with (s ++ " as " ++ a)%string
      by (rewrite append_assoc; reflexivity).
    destruct (strings.Index (s ++ " as") " as ") eqn:E2; [discriminate |].
    rewrite IH by reflexivity. reflexivity.
Qed.

(** ** Keys *)

(** X2: [ParseKey] never panics, whatever the key: every index it takes is
    in range. *)
Lemma ParseKey_total (key : string) : exists newKey alias,
  ParseKey key = Ret (newKey, alias).
Proof.
  unfold ParseKey.
  destruct (Split_head " " "as " key) as (x & rest & ->).
  destruct rest as [|y rest]; cbn -[strings.Split path.Split]; [|eauto].
  destruct (path.Split x) as [d name].
  destruct (Split_head "-" "" name) as (x1 & r1 & ->).
  cbn -[strings.Split].
  destruct (Split_head "@" "" x1) as (x2 & r2 & ->).
  cbn -[strings.Split].
  destruct (Split_head "#" "" x2) as (x3 & r3 & ->).
  cbn. eauto.
Qed.

(** C4, as the code has it: for every source [s] in which the delimiter
    [" as "] starts nowhere (it occurs neither inside [s] nor across its end,
    that is, [s ++ " as"] does not contain it) and every alias [a] that does
    not contain the delimiter, parsing [s ++ " as " ++ a] returns the source
    [s] and exactly the alias [a]. *)
Theorem ParseKey_explicit_alias (s a : string) :
  strings.Contains (s ++ " as") " as " = false ->
  strings.Contains a " as " = false ->
  ParseKey (s ++ " as " ++ a) = Ret (s, a).
Proof.
  intros Hs Ha. unfold ParseKey.
  rewrite Split_unfold, (Index_as s a Hs), take_append.
  change (String.length " as ") with 4.
  rewrite (drop_append s (" as " ++ a) 4). simpl drop.
  rewrite (Split_no_sep _ _ _ Ha). reflexivity.
Qed.

(** A repository key with an explicit alias. *)
Lemma ParseKey_explicit_alias_witness :
  ParseKey ("github.com/vroomy/plugins" ++ " as " ++ "core")
  = Ret ("github.com/vroomy/plugins", "core").
Proof.
  apply (ParseKey_explicit_alias "github.com/vroomy/plugins" "core");
    reflexivity.
Defined.

(** C4, as the claim states it, fails: [strings.Split] cuts at every
    delimiter and the alias is the second piece, so a source that holds the
    delimiter gives away a part of itself as the alias. *)
Lemma ParseKey_alias_counterexample :
  ParseKey ("x as y" ++ " as " ++ "z") = Ret ("x", "y") /\ "y" <> "z".
Proof. split; [reflexivity | discriminate]. Qed.

(** C8: the handler key "alias.Method(1,2,3)" parses to the alias "alias",
    the method "Method" and the arguments "1", "2", "3", in this order;
    "alias.Method(1,2,3", which opens a parenthesis and never closes it,
    fails with [ErrExpectedEndParen]. *)
Theorem getHandlerParts_examples :
  getHandlerParts "alias.Method(1,2,3)"
    = Ret ("alias", "Method", ["1"; "2"; "3"], None) /\
  getHandlerParts "alias.Method(1,2,3"
    = Ret ("alias", "Method", [], Some ErrExpectedEndParen).
Proof. split; reflexivity. Qed.

(** C10: [getHandlerParts] is not total. It panics with an index out of
    range on every key without a dot (the method segment [spl[1]] is taken
    unconditionally), and on every key whose method segment opens a
    parenthesis with nothing behind it, such as "alias.Method(" (the check
    of the last byte reads position -1 of the empty string). *)
Theorem getHandlerParts_panics :
  (forall key : string,
      strings.Contains key "." = false ->
      getHandlerParts key = Panic (IndexOutOfRange 1 1)) /\
  (forall (key k h m : string) (tl rest : list string),
      strings.Split key "." = k :: h :: tl ->
      strings.Split h "(" = m :: "" :: rest ->
      getHandlerParts key = Panic (IndexOutOfRange (-1) 0)) /\
  getHandlerParts "alias.Method(" = Panic (IndexOutOfRange (-1) 0).
Proof.
  split; [|split].
  - intros key H. unfold getHandlerParts.
    rewrite (Split_no_sep _ _ _ H). reflexivity.
  - intros key k h m tl rest Hk Hh. unfold getHandlerParts.
    rewrite Hk. cbn -[strings.Split]. rewrite Hh. reflexivity.
  - reflexivity.
Qed.

(** A key without a dot, and a key whose arguments start with a second
    opening parenthesis. *)
Lemma getHandlerParts_panics_witness :
  getHandlerParts "alias" = Panic (IndexOutOfRange 1 1) /\
  getHandlerParts "alias.Method((1)" = Panic (IndexOutOfRange (-1) 0).
Proof.
  split.
  - apply (proj1 getHandlerParts_panics). reflexivity.
  - apply (proj1 (proj2 getHandlerParts_panics)
             "alias.Method((1)" "alias" "Method((1)" "Method" [] ["1)"]);
      reflexivity.
Defined.

(** C3: where the code stands on the key "./local/foo.so". The record
    constructor of plugin.go makes it a local plugin (no git URL) with the
    key as its file name, verbatim, but under the alias "foo.so": the key
    parser has already derived that alias from the last path element, so the
    fallback that strips the extension ([getPluginKey], which gives "foo") is
    not taken. The constructor of the slice-based registry keeps the same
    alias whatever [url.Parse] says of the key. An alias with a dot in it is
    out of reach of handler keys: [getHandlerParts] reads "foo.so.Method" as
    the method "so" of the plugin "foo". *)
Theorem newPlugin_local_foo :
  (forall (lib : GoLib) (d : string) (u : bool),
      PluginGo.newPlugin lib d "./local/foo.so" u
      = Ret (Some {| p := None; importKey := "./local/foo.so";
                     alias := "foo.so"; gitURL := "";
                     filename := "./local/foo.so"; branch := "";
                     update := u |}, None)) /\
  ParseKey "./local/foo.so" = Ret ("./local/foo.so", "foo.so") /\
  getPluginKey "./local/foo.so" = Ret "foo" /\
  (forall (lib : GoLib) (d : string) (u : bool),
      match newPlugin lib d "./local/foo.so" u with
      | Ret (Some pi, _) => alias pi = "foo.so"
      | _ => True
      end) /\
  getHandlerParts "foo.so.Method" = Ret ("foo", "so", [], None).
Proof.
  split; [|split; [|split; [|split]]]; try reflexivity.
  intros lib d u. unfold newPlugin.
  change (ParseKey "./local/foo.so") with (Ret ("./local/foo.so", "foo.so")).
  cbn [res_bind]. destruct (isGitReference lib "./local/foo.so").
  - destruct (getGitURLParts lib "./local/foo.so")
      as [[[[gu rn] br] [e|]]|]; simpl; auto.
  - reflexivity.
Qed.

(** ** The tools and the methods of an entry *)

Lemma length_eqb_0 (s : string) :
  (String.length s =? 0)%nat = false <-> s <> "".
Proof. destruct s; cbn; split; intros H; try congruence; discriminate. Qed.

Lemma length_ltb_0 (s : string) :
  (0 <? String.length s)%nat = true <-> s <> "".
Proof. destruct s; cbn; split; intros H; try congruence; discriminate. Qed.

Lemma checkout_history (env : Env) (pi : Plugin) (h : History) :
  exists err, checkout env pi h
              = (Ret err, h ++ [GitCheckout (gitURL pi) (branch pi)]).
Proof.
  unfold checkout, gitCheckout, bind, exec, ret.
  set (o := run env h (GitCheckout (gitURL pi) (branch pi))).
  destruct (runErr o); destruct (String.length (stderr o));
    repeat match goal with |- context [if ?b then _ else _] => destruct b end;
    eauto.
Qed.

Lemma gitFetchTags_history (env : Env) (u : string) (h : History) :
  exists err, gitFetchTags env u h = (Ret err, h ++ [GitFetchTags u]).
Proof. unfold gitFetchTags, bind, exec, ret. eauto. Qed.

Lemma updateDependencies_history (env : Env) (pi : Plugin) (h : History) :
  exists err, updateDependencies env pi h
              = (Ret err, h ++ [GoModDownload (gitURL pi)]).
Proof.
  unfold updateDependencies, updatePluginDependencies, bind, exec, ret.
  destruct (runErr (run env h (GoModDownload (gitURL pi)))); eauto.
Qed.

Lemma build_history (env : Env) (pi : Plugin) (h : History) :
  exists err, build env pi h = (Ret err, h ++ [buildCall pi]).
Proof.
  unfold build, goBuild, bind, exec, ret, buildCall.
  set (o := run env h (GoBuild (gitURL pi) (filename pi))).
  destruct (runErr o); [destruct (0 <? String.length (stderr o))%nat|]; eauto.
Qed.

(** C6: for every record whose artifact file exists ([os.Stat] answers, and
    not with a directory) and whose update flag is false, [test] returns nil
    and leaves the history as it found it: no tool was run. ([test] assigns
    to no field of the record.) *)
Theorem test_skips_built_plugin (env : Env) (pi : Plugin) (h : History) :
  stat env h (filename pi) = Some false ->
  update pi = false ->
  test env pi h = (Ret None, h).
Proof.
  intros Hstat Hupdate.
  unfold test, doesPluginExist, osStat, bind, ret.
  rewrite Hstat, Hupdate. reflexivity.
Qed.

(** A built plugin that is not to be updated. *)
Lemma test_skips_built_plugin_witness :
  test builtEnv foo [] = (Ret None, []).
Proof. apply (test_skips_built_plugin builtEnv foo []); reflexivity. Defined.

(** After a failed checkout that is no detached-head notice: what
    [setTargetBranch] goes on to do. *)
Lemma setTargetBranch_unfold (env : Env) (pi : Plugin) (h h1 : History)
  (err : error) :
  checkout env pi h = (Ret err, h1) ->
  setTargetBranch env pi h =
  match err with
  | None => (Ret (true, None), h1)
  | Some e =>
      if headIsNowAt e then
        bind (updateDependencies env pi) (fun d => ret (false, d)) h1
      else
        bind (gitFetchTags env (gitURL pi)) (fun ferr =>
          match ferr with
          | Some _ => ret (true, ferr)
          | None =>
              bind (checkout env pi) (fun err2 =>
                match err2 with
                | None => ret (true, err2)
                | Some e' =>
                    if negb (headIsNowAt e') then ret (true, err2)
                    else bind (updateDependencies env pi)
                           (fun d => ret (false, d))
                end)
          end) h1
  end.
Proof.
  intros H. unfold setTargetBranch. unfold bind at 1. rewrite H.
  destruct err as [e|]; [|reflexivity].
  destruct (headIsNowAt e); reflexivity.
Qed.

(** C5, as the code has it. Resolution of a pinned branch or version
    ([setTargetBranch]) after a first checkout that returned an error [e]:
    - if [e] holds "HEAD is now at", the dependencies are refreshed and the
      result is (no pull, the outcome of the refresh): the history gains the
      checkout and the download, nothing else;
    - otherwise the tags are fetched, once. If the fetch fails, its error is
      returned and the checkout is not tried again. If it succeeds, the
      checkout is tried again, once; an error of the retry that again does
      not hold "HEAD is now at" is returned to the caller, and one that
      holds it ends as the first case does.
    And [updatePlugin] pulls nothing once [setTargetBranch] has told it not
    to pull or has returned an error: it returns that outcome, with the
    history [setTargetBranch] left. *)
Theorem setTargetBranch_resolution :
  (forall (env : Env) (pi : Plugin) (h h1 : History) (e : Err),
      checkout env pi h = (Ret (Some e), h1) ->
      let co := GitCheckout (gitURL pi) (branch pi) in
      let fetch := GitFetchTags (gitURL pi) in
      let download := GoModDownload (gitURL pi) in
      (headIsNowAt e = true ->
       exists derr,
         updateDependencies env pi h1 = (Ret derr, h ++ [co; download]) /\
         setTargetBranch env pi h = (Ret (false, derr), h ++ [co; download]))
      /\
      (headIsNowAt e = false ->
       forall (ferr : error) (h2 : History),
         gitFetchTags env (gitURL pi) h1 = (Ret ferr, h2) ->
         h2 = h ++ [co; fetch] /\
         (forall fe, ferr = Some fe ->
            setTargetBranch env pi h = (Ret (true, Some fe), h2)) /\
         (ferr = None ->
          forall (err2 : error) (h3 : History),
            checkout env pi h2 = (Ret err2, h3) ->
            h3 = h ++ [co; fetch; co] /\
            (err2 = None ->
               setTargetBranch env pi h = (Ret (true, None), h3)) /\
            (forall e2, err2 = Some e2 -> headIsNowAt e2 = false ->
               setTargetBranch env pi h = (Ret (true, Some e2), h3)) /\
            (forall e2, err2 = Some e2 -> headIsNowAt e2 = true ->
               exists derr,
                 setTargetBranch env pi h
                 = (Ret (false, derr), h ++ [co; fetch; co; download]))))) /\
  (forall (env : Env) (pi : Plugin) (b : string) (h h1 : History)
          (shouldPull : bool) (err : error),
      gitURL pi <> "" ->
      let pi' := if (0 <? String.length b)%nat then set_branch b pi else pi in
      let h0 := match stat env h (goSrcDir env (gitURL pi)) with
                | Some true => h
                | _ => h ++ [GoGet (gitURL pi)]
                end in
      branch pi' <> "" ->
      setTargetBranch env pi' h0 = (Ret (shouldPull, err), h1) ->
      shouldPull = false \/ err <> None ->
      updatePlugin env pi b h = (Ret (pi', err), h1)).
Proof.
  split.
  - intros env pi h h1 e Hco co fetch download.
    destruct (checkout_history env pi h) as [x Hx]. fold co in Hx.
    rewrite Hx in Hco. injection Hco as -> <-.
    rewrite (setTargetBranch_unfold env pi h Hx).
    split.
    + intros ->.
      destruct (updateDependencies_history env pi (h ++ [co])) as [d Hd].
      fold download in Hd. rewrite <- app_assoc in Hd. simpl app in Hd.
      exists d. unfold bind. rewrite Hd. split; reflexivity.
    + intros -> ferr h2 Hf.
      destruct (gitFetchTags_history env (gitURL pi) (h ++ [co])) as [y Hy].
      fold fetch in Hy. rewrite <- app_assoc in Hy. simpl app in Hy.
      rewrite Hy in Hf. injection Hf as -> <-.
      split; [reflexivity | split].
      * intros fe ->. unfold bind at 1. rewrite Hy. reflexivity.
      * intros -> err2 h3 Hco2.
        destruct (checkout_history env pi (h ++ [co; fetch])) as [z Hz].
        fold co in Hz. rewrite <- app_assoc in Hz. simpl app in Hz.
        rewrite Hz in Hco2. injection Hco2 as -> <-.
        split; [reflexivity | split; [|split]].
        -- intros ->. unfold bind at 1. rewrite Hy.
           unfold bind at 1. rewrite Hz. reflexivity.
        -- intros e2 -> He2. unfold bind at 1. rewrite Hy.
           unfold bind at 1. rewrite Hz, He2. reflexivity.
        -- intros e2 -> He2.
           destruct (updateDependencies_history env pi
                       (h ++ [co; fetch; co])) as [d Hd].
           fold download in Hd. rewrite <- app_assoc in Hd.
           simpl app in Hd.
           exists d. unfold bind at 1. rewrite Hy.
           unfold bind at 1. rewrite Hz, He2. cbn [negb].
           unfold bind. rewrite Hd. reflexivity.
  - intros env pi b h h1 shouldPull err Hurl pi' h0 Hbr Hset Hstop.
    unfold updatePlugin.
    apply length_eqb_0 in Hurl. rewrite Hurl.
    apply length_ltb_0 in Hbr.
    assert (Hu : gitURL pi' = gitURL pi)
      by (unfold pi'; destruct (0 <? String.length b)%nat; reflexivity).
    unfold bind at 1. unfold doesPluginSourceExist, osStat, bind at 1.
    fold pi'. rewrite Hbr.
    assert (Hpre : forall (k : M (Plugin * error)),
      (let (r, h') :=
         (match stat env h (goSrcDir env (gitURL pi)) with
          | Some isDir => ret isDir
          | None => ret false
          end) h in
       match r with
       | Ret a =>
           bind (if negb a then goGet env (gitURL pi) else ret None)
             (fun _ => k) h'
       | Panic e => (Panic e, h')
       end) = k h0).
    { intros k. unfold h0, ret.
      destruct (stat env h (goSrcDir env (gitURL pi))) as [[|]|]; simpl;
        try reflexivity;
        unfold bind, goGet, bind, exec, ret;
        destruct (runErr (run env h (GoGet (gitURL pi)))); reflexivity. }
    etransitivity; [apply Hpre|].
    unfold bind at 1. rewrite Hset.
    destruct Hstop as [-> | Hne].
    + reflexivity.
    + destruct err; [|congruence]. destruct shouldPull; reflexivity.
Qed.

(** A pinned version whose checkout leaves a detached head; one whose
    reference git does not know, before and after the fetch of the tags; and
    [updatePlugin] on the first. *)
Lemma setTargetBranch_resolution_witness :
  let co := GitCheckout "github.com/user/plugin" "v1.2.0" in
  let fetch := GitFetchTags "github.com/user/plugin" in
  let download := GoModDownload "github.com/user/plugin" in
  setTargetBranch (gitEnv detachedNotice succeeded) pinned []
    = (Ret (false, None), [co; download]) /\
  setTargetBranch (gitEnv unknownRef succeeded) pinned []
    = (Ret (true, Some (Error (stderr unknownRef))), [co; fetch; co]) /\
  updatePlugin (gitEnv detachedNotice succeeded) pinned "" []
    = (Ret (pinned, None), [co; download]).
Proof.
  cbv zeta. split; [|split].
  - destruct (proj1 (proj1 setTargetBranch_resolution
                       (gitEnv detachedNotice succeeded) pinned []
                       [GitCheckout "github.com/user/plugin" "v1.2.0"]
                       (Error (stderr detachedNotice)) eq_refl) eq_refl)
      as [derr [Hd Hs]].
    vm_compute in Hd. injection Hd as <-. exact Hs.
  - destruct (proj2 (proj1 setTargetBranch_resolution
                       (gitEnv unknownRef succeeded) pinned []
                       [GitCheckout "github.com/user/plugin" "v1.2.0"]
                       (Error (stderr unknownRef)) eq_refl) eq_refl
                None _ eq_refl) as [_ [_ Hretry]].
    destruct (Hretry eq_refl (Some (Error (stderr unknownRef))) _ eq_refl)
      as [_ [_ [Hfail _]]].
    exact (Hfail _ eq_refl eq_refl).
  - apply (proj2 setTargetBranch_resolution
             (gitEnv detachedNotice succeeded) pinned "" []
             [GitCheckout "github.com/user/plugin" "v1.2.0";
              GoModDownload "github.com/user/plugin"] false None).
    + discriminate.
    + discriminate.
    + reflexivity.
    + left; reflexivity.
Defined.

(** C5, as the claim states it, fails where the fetch of the tags fails: the
    first checkout fails on an unknown reference, the tags are fetched, the
    fetch fails, and [setTargetBranch] returns the error of the fetch. The
    checkout is not tried again. *)
Lemma setTargetBranch_counterexample :
  setTargetBranch (gitEnv unknownRef (failed "fatal: unable to access"))
    pinned []
  = (Ret (true, Some (Error "exit status 1")),
     [GitCheckout "github.com/user/plugin" "v1.2.0";
      GitFetchTags "github.com/user/plugin"]).
Proof. reflexivity. Qed.

(** ** The registry: builds *)

Lemma Push_app (errs : list string) (e : error) :
  Push errs e = errs ++ Push [] e.
Proof.
  destruct e as [[msg|msgs]|]; simpl; [reflexivity | reflexivity |].
  now rewrite app_nil_r.
Qed.

Lemma nth_split_at {A} (l : list A) (i : nat) (d : A) :
  i < List.length l ->
  l = firstn i l ++ nth i l d :: skipn (S i) l.
Proof.
  revert i; induction l as [|x l IH]; intros i Hi; simpl in Hi; [lia |].
  destruct i as [|i]; simpl; [reflexivity |].
  f_equal. apply IH. lia.
Qed.

(** Whatever the queue picks, every waiting task runs, once. *)
Lemma schedule_Permutation {A} (picks : list nat) (l : list A) :
  Permutation (schedule picks (List.length l) l) l.
Proof.
  remember (List.length l) as n eqn:Hn.
  revert picks l Hn; induction n as [|n IH]; intros picks l Hn.
  - destruct l; [constructor | discriminate].
  - destruct l as [|x l']; [discriminate |].
    cbn [schedule].
    set (l := x :: l') in *. clearbody l.
    set (i := hd 0 picks mod List.length l).
    assert (Hi : i < List.length l).
    { subst i. apply Nat.mod_upper_bound. rewrite <- Hn. discriminate. }
    clearbody i.
    pose proof (nth_split_at l x Hi) as Hsplit.
    assert (Hperm : Permutation
                      (nth i l x :: firstn i l ++ skipn (S i) l) l).
    { etransitivity; [apply Permutation_middle |].
      rewrite <- Hsplit. reflexivity. }
    etransitivity; [|exact Hperm].
    apply perm_skip, IH.
    apply (f_equal (@List.length A)) in Hsplit.
    rewrite length_app in Hsplit. cbn [List.length] in Hsplit.
    rewrite length_app. lia.
Qed.

Lemma buildAll_app_fail (env : Env) (l1 l2 : list Plugin) (pi : Plugin)
  (h h1 h2 : History) (e : Err) :
  BuildRun env h (map (fun x => (x, None)) l1) h1 ->
  build env pi h1 = (Ret (Some e), h2) ->
  buildAll env (l1 ++ pi :: l2) h = (Ret (Some e), h2) /\
  h2 = h ++ map buildCall (l1 ++ [pi]).
Proof.
  revert h; induction l1 as [|x l1 IH]; intros h Hrun Hfail.
  - inversion Hrun; subst. simpl. unfold bind. rewrite Hfail.
    split; [reflexivity |].
    destruct (build_history env pi h1) as [y Hy]. congruence.
  - inversion Hrun as [|? hx ? ? ? ? Hx Hrest]; subst.
    destruct (IH hx Hrest Hfail) as [Hb Hh].
    simpl. unfold bind at 1. rewrite Hx. split; [exact Hb |].
    destruct (build_history env x h) as [y Hy].
    rewrite Hy in Hx. injection Hx as _ <-.
    rewrite Hh, <- app_assoc. reflexivity.
Qed.

Lemma buildTasks_run (env : Env) (order : list Plugin) (errs : list string)
  (h : History) :
  exists results,
    map fst results = order /\
    BuildRun env h results (h ++ map buildCall order) /\
    buildTasks env order errs h
    = (Ret (errs ++ failures results), h ++ map buildCall order).
Proof.
  revert errs h; induction order as [|pi order IH]; intros errs h.
  - exists []. simpl. rewrite !app_nil_r. repeat split. constructor.
  - destruct (build_history env pi h) as [err Herr].
    destruct (IH (Push errs err) (h ++ [buildCall pi]))
      as (results & Hfst & Hrun & Htasks).
    exists ((pi, err) :: results).
    replace (h ++ map buildCall (pi :: order))
      with ((h ++ [buildCall pi]) ++ map buildCall order)
      by (rewrite <- app_assoc; reflexivity).
    split; [simpl; now rewrite Hfst | split].
    + econstructor; eassumption.
    + simpl. unfold bind at 1. rewrite Herr, Htasks.
      unfold failures. simpl. fold (failures results).
      rewrite (Push_app errs err), <- app_assoc. reflexivity.
Qed.

(** C7. [Build] stops at the first build that fails and returns its error:
    when the records before [pi] build and the build of [pi] fails, the
    builds run are those up to [pi], none behind it. [BuildAsync] runs a
    build for every record, in the order the queue picks, whatever their
    outcomes, and returns the errors of exactly the builds that failed,
    gathered in one list (nil when none failed). *)
Theorem Build_stops_BuildAsync_gathers (env : Env) :
  (forall (r : Plugins) (l1 l2 : list Plugin) (pi : Plugin)
          (h h1 h2 : History) (e : Err),
      ps r = l1 ++ pi :: l2 ->
      BuildRun env h (map (fun x => (x, None)) l1) h1 ->
      build env pi h1 = (Ret (Some e), h2) ->
      Build env r h = (Ret (Some e), h2) /\
      h2 = h ++ map buildCall (l1 ++ [pi])) /\
  (forall (picks : list nat) (r : Plugins) (h : History),
    exists results,
      Permutation (map fst results) (ps r) /\
      BuildRun env h results (h ++ map buildCall (map fst results)) /\
      BuildAsync env picks r h
      = (Ret (Err_ (failures results)),
         h ++ map buildCall (map fst results))).
Proof.
  split.
  - intros r l1 l2 pi h h1 h2 e Hps Hrun Hfail.
    unfold Build. rewrite Hps.
    apply buildAll_app_fail with (h1 := h1); assumption.
  - intros picks r h. unfold BuildAsync.
    destruct (buildTasks_run env
                (schedule picks (List.length (ps r)) (ps r)) [] h)
      as (results & Hfst & Hrun & Htasks).
    exists results. rewrite Hfst. split; [apply schedule_Permutation | split].
    + exact Hrun.
    + unfold bind. rewrite Htasks. reflexivity.
Qed.

(** Three records, the build of the second fails: [Build] stops there,
    [BuildAsync] builds all three and returns the one error. *)
Lemma Build_stops_BuildAsync_gathers_witness :
  Build (oneBadBuildEnv "plugins/bar.so") (registryOf [foo; bar; baz]) []
    = (Ret (Some (Error "build failed")), [buildCall foo; buildCall bar]) /\
  BuildAsync (oneBadBuildEnv "plugins/bar.so") [2; 0; 0]
    (registryOf [foo; bar; baz]) []
    = (Ret (Some (ErrorList ["build failed"])),
       [buildCall baz; buildCall foo; buildCall bar]).
Proof.
  split.
  - apply (proj1 (Build_stops_BuildAsync_gathers
                    (oneBadBuildEnv "plugins/bar.so"))
             (registryOf [foo; bar; baz]) [foo] [baz] bar []
             [buildCall foo] [buildCall foo; buildCall bar]
             (Error "build failed")).
    + reflexivity.
    + apply BuildRun_cons with (h1 := [buildCall foo]);
        [reflexivity | constructor].
    + reflexivity.
  - reflexivity.
Defined.

(** ** The registry: registration and Close *)

Lemma set_ps_same (r : Plugins) : set_ps (ps r) r = r.
Proof. destruct r; reflexivity. Qed.

(** A record registered under an alias is found by [append]. *)
Lemma pluginslice_append_duplicate (s : list Plugin) (pi : Plugin) :
  (exists x, In x s /\ alias x = alias pi) ->
  pluginslice_append s pi = (s, Some ErrPluginKeyExists).
Proof.
  intros (x & Hin & Halias). unfold pluginslice_append.
  replace (existsb (fun y => String.eqb (alias y) (alias pi)) s) with true;
    [reflexivity |].
  symmetry. apply existsb_exists. exists x. split; [exact Hin |].
  now apply String.eqb_eq.
Qed.

Lemma Plugins_New_registers (lib : GoLib) (r r1 : Plugins) (k : string)
  (u : bool) (a : string) :
  Plugins_New lib r k u = Ret (r1, (a, None)) ->
  dir r1 = dir r /\ exists x, In x (ps r1) /\ alias x = a /\
  List.length (ps r1) = S (List.length (ps r)).
Proof.
  unfold Plugins_New.
  destruct (newPlugin lib (dir r) k u) as [[[pi|] [e|]]|]; simpl;
    try discriminate.
  unfold pluginslice_append.
  destruct (existsb _ (ps r)); simpl; [discriminate |].
  intros [= <- <-]. simpl. split; [reflexivity |].
  exists pi. rewrite in_app_iff, length_app. simpl.
  repeat split; [now right; left | lia].
Qed.

(** ** The registry: what its operations keep *)

Lemma bind_Ret {A B} (m : M A) (k : A -> M B) (h h' : History) (b : B) :
  bind m k h = (Ret b, h') ->
  exists a h1, m h = (Ret a, h1) /\ k a h1 = (Ret b, h').
Proof.
  unfold bind. destruct (m h) as [[a|pe] h1]; [eauto | discriminate].
Qed.

(** [updatePlugin] returns the entry it was given, up to its branch. *)
Lemma updatePlugin_entry (env : Env) (pi pi' : Plugin) (b : string)
  (h h' : History) (e : error) :
  updatePlugin env pi b h = (Ret (pi', e), h') ->
  pi' = pi \/ pi' = set_branch b pi.
Proof.
  unfold updatePlugin.
  destruct (String.length (gitURL pi) =? 0)%nat.
  - intros [= <- _ _]. now left.
  - intros H.
    apply bind_Ret in H as (ex & h1 & _ & H).
    apply bind_Ret in H as (ge & h2 & _ & H).
    set (pi0 := if (0 <? String.length b)%nat then set_branch b pi else pi)
      in H.
    assert (Hpi0 : pi0 = pi \/ pi0 = set_branch b pi)
      by (unfold pi0; destruct (0 <? String.length b)%nat; auto).
    assert (Hpull : forall hx hy x,
      bind (gitPull env (gitURL pi0))
        (fun x0 => let '(status, err) := x0 in
           match err, String.length status with
           | None, 0 => ret (pi0, None)
           | _, _ => bind (updateDependencies env pi0)
                       (fun err0 => ret (pi0, err0))
           end) hx = (Ret x, hy) -> fst x = pi0).
    { intros hx hy x Hx.
      apply bind_Ret in Hx as ([status err] & h3 & _ & Hx).
      destruct err as [e3|].
      - apply bind_Ret in Hx as (d & h4 & _ & Hx).
        now injection Hx as <- _.
      - destruct (String.length status).
        + now injection Hx as <- _.
        + apply bind_Ret in Hx as (d & h4 & _ & Hx).
          now injection Hx as <- _. }
    destruct (0 <? String.length (branch pi0))%nat.
    + apply bind_Ret in H as ([sp err] & h3 & _ & H).
      destruct sp, err; try (injection H as <- _ _; exact Hpi0).
      apply Hpull in H. simpl in H. now subst.
    + apply Hpull in H. simpl in H. now subst.
Qed.

Lemma updatePlugin_alias (env : Env) (pi pi' : Plugin) (b : string)
  (h h' : History) (e : error) :
  updatePlugin env pi b h = (Ret (pi', e), h') -> alias pi' = alias pi.
Proof.
  intros H. apply updatePlugin_entry in H as [-> | ->]; reflexivity.
Qed.

Lemma retrieveAll_aliases (env : Env) (lib : GoLib) (l l' : list Plugin)
  (b : string) (keys : list (string * string)) (h h' : History) (e : error) :
  retrieveAll env lib l b keys h = (Ret (l', e), h') ->
  map alias l' = map alias l.
Proof.
  revert l' keys h h' e; induction l as [|pi rest IH];
    intros l' keys h h' e H.
  - now injection H as <- _ _.
  - cbn [retrieveAll] in H.
    apply bind_Ret in H as (repo & h1 & _ & H).
    destruct (addToMap repo "" keys) as [keys' added].
    assert (Hskip : forall hx,
      bind (retrieveAll env lib rest b keys')
        (fun x => let '(rest', err) := x in ret (pi :: rest', err)) hx
      = (Ret (l', e), h') -> map alias l' = map alias (pi :: rest)).
    { intros hx Hx.
      apply bind_Ret in Hx as ([rest' err] & h2 & Hrest & Hx).
      injection Hx as <- _ _. simpl. f_equal. eapply IH, Hrest. }
    destruct (negb added); [now apply Hskip in H |].
    destruct (isLocal (gitURL pi)); [now apply Hskip in H |].
    apply bind_Ret in H as ([pi' err] & h2 & Hup & H).
    apply updatePlugin_alias in Hup.
    destruct err as [e2|].
    + injection H as <- _ _. simpl. now rewrite Hup.
    + apply bind_Ret in H as ([rest' err] & h3 & Hrest & H).
      injection H as <- _ _. simpl. rewrite Hup. f_equal.
      eapply IH, Hrest.
Qed.

Lemma initAll_aliases (env : Env) (l l' : list Plugin) (h h' : History)
  (e : error) :
  initAll env l h = (Ret (l', e), h') -> map alias l' = map alias l.
Proof.
  revert l' h h' e; induction l as [|pi rest IH]; intros l' h h' e H.
  - now injection H as <- _ _.
  - cbn [initAll] in H.
    apply bind_Ret in H as ([pi' err] & h1 & Hinit & H).
    assert (Hpi' : alias pi' = alias pi).
    { unfold init in Hinit.
      destruct (pluginOpen env h (filename pi)) as [handle err0].
      now injection Hinit as <- _ _. }
    destruct err as [e1|].
    + injection H as <- _ _. simpl. now rewrite Hpi'.
    + apply bind_Ret in H as ([rest' err] & h2 & Hrest & H).
      injection H as <- _ _. simpl. rewrite Hpi'. f_equal.
      eapply IH, Hrest.
Qed.

(** No operation of the registry takes a record away or renames it:
    [Retrieve], [Initialize] and [Close] leave the aliases as they are, a
    registration leaves them or adds one behind them. *)
Lemma registry_keeps_aliases (env : Env) (lib : GoLib) (r r' : Plugins)
  (h h' : History) (e : error) :
  (Retrieve env lib r h = (Ret (r', e), h') ->
   map alias (ps r') = map alias (ps r)) /\
  (Initialize env r h = (Ret (r', e), h') ->
   map alias (ps r') = map alias (ps r)) /\
  (Close env r h = (Ret (r', e), h') -> ps r' = ps r) /\
  (forall k u out,
      Plugins_New lib r k u = Ret (r', out) ->
      exists added, map alias (ps r') = map alias (ps r) ++ added).
Proof.
  split; [|split; [|split]].
  - unfold Retrieve. intros H.
    apply bind_Ret in H as ([l err] & h1 & Hl & H).
    injection H as <- _ _. simpl. eapply retrieveAll_aliases, Hl.
  - unfold Initialize. intros H.
    apply bind_Ret in H as ([l err] & h1 & Hl & H).
    injection H as <- _ _. simpl. eapply initAll_aliases, Hl.
  - unfold Close. destruct (closed r).
    + now intros [= <- _ _].
    + intros H. apply bind_Ret in H as (errs & h1 & _ & H).
      now injection H as <- _ _.
  - intros k u out. unfold Plugins_New.
    destruct (newPlugin lib (dir r) k u) as [[[pi|] [e1|]]|]; simpl;
      try discriminate;
      try (intros [= <- _]; exists []; now rewrite app_nil_r).
    unfold pluginslice_append.
    destruct (existsb _ (ps r)); simpl.
    + intros [= <- _]. exists []. now rewrite app_nil_r.
    + intros [= <- _]. simpl. exists [alias pi]. apply map_app.
Qed.

Lemma lookup_added {P} (m : list (string * P)) (key : string) (pi : P) :
  PluginMap.lookup key m = None ->
  PluginMap.lookup key (m ++ [(key, pi)]) = Some pi.
Proof.
  unfold PluginMap.lookup. induction m as [|[k v] m IH]; simpl.
  - now rewrite String.eqb_refl.
  - destruct (String.eqb k key); simpl; [discriminate | exact IH].
Qed.

(** C2. On the registry that keeps a slice of records, with the method
    [append] of the slice as the specification describes it: a registration
    that succeeds leaves a record under the alias it returns; the registry
    holds a record under that alias through whatever operation comes next;
    and on a registry that holds a record under some alias, the registration
    of a key that resolves to the same alias fails with [ErrPluginKeyExists]
    and leaves the registry as it was: it holds as many records as before
    the call. On the registry of plugin.go, where the key is the name a plugin
    goes by: a [Register] that succeeds leaves the plugin under its key, and
    on an open registry a [Register] under a key that is taken fails with the
    key-already-loaded error and leaves the registry as it was. *)
Theorem Plugins_New_duplicate_alias :
  (forall (lib : GoLib) (r r1 : Plugins) (k1 : string) (u1 : bool)
          (a : string),
      Plugins_New lib r k1 u1 = Ret (r1, (a, None)) ->
      dir r1 = dir r /\ exists x, In x (ps r1) /\ alias x = a) /\
  (forall (env : Env) (lib : GoLib) (r r' : Plugins) (h h' : History)
          (e : error) (a : string),
      (exists x, In x (ps r) /\ alias x = a) ->
      Retrieve env lib r h = (Ret (r', e), h') \/
      Initialize env r h = (Ret (r', e), h') \/
      Close env r h = (Ret (r', e), h') \/
      (exists k u out, Plugins_New lib r k u = Ret (r', out)) ->
      exists x, In x (ps r') /\ alias x = a) /\
  (forall (lib : GoLib) (r : Plugins) (k2 : string) (u2 : bool)
          (pi2 : Plugin),
      newPlugin lib (dir r) k2 u2 = Ret (Some pi2, None) ->
      (exists x, In x (ps r) /\ alias x = alias pi2) ->
      exists r2,
        Plugins_New lib r k2 u2 = Ret (r2, ("", Some ErrPluginKeyExists)) /\
        r2 = r /\
        List.length (ps r2) = List.length (ps r)) /\
  (forall (P : Type) (r r1 : PluginMap.Plugins P) (key : string) (pi1 : P),
      PluginMap.Register r key pi1 = (r1, None) ->
      PluginMap.closed r1 = false /\
      PluginMap.lookup key (PluginMap.pm r1) = Some pi1) /\
  (forall (P : Type) (r : PluginMap.Plugins P) (key : string) (pi1 pi2 : P),
      PluginMap.closed r = false ->
      PluginMap.lookup key (PluginMap.pm r) = Some pi1 ->
      PluginMap.Register r key pi2 = (r, Some (PluginMap.keyLoaded key))).
Proof.
  split; [|split; [|split; [|split]]].
  - intros lib r r1 k1 u1 a Hfirst.
    apply Plugins_New_registers in Hfirst as (Hdir & x & Hin & Hx & _).
    split; [exact Hdir | exists x; split; assumption].
  - intros env lib r r' h h' e a (x & Hin & Hx) Hop.
    assert (Hheld : In a (map alias (ps r)))
      by (apply in_map_iff; exists x; split; assumption).
    destruct (registry_keeps_aliases env lib r r' h h' e)
      as (HR & HI & HC & HN).
    assert (Hheld' : In a (map alias (ps r'))).
    { destruct Hop as [H | [H | [H | (k & u & out & H)]]].
      - now rewrite (HR H).
      - now rewrite (HI H).
      - now rewrite (HC H).
      - destruct (HN k u out H) as [added ->].
        apply in_or_app. now left. }
    apply in_map_iff in Hheld' as (y & Hy & Hin'). exists y.
    split; assumption.
  - intros lib r k2 u2 pi2 Hnew Hdup.
    exists r. split; [|split; reflexivity].
    unfold Plugins_New. rewrite Hnew. simpl.
    rewrite (pluginslice_append_duplicate _ _ Hdup), set_ps_same.
    reflexivity.
  - intros P r r1 key pi1. unfold PluginMap.Register.
    destruct (PluginMap.closed r) eqn:Hc; [discriminate |].
    destruct (PluginMap.lookup key (PluginMap.pm r)) eqn:Hl; [discriminate |].
    intros [= <-]. simpl. split; [reflexivity | now apply lookup_added].
  - intros P r key pi1 pi2 Hc Hl. unfold PluginMap.Register.
    rewrite Hc, Hl. reflexivity.
Qed.

(** Two repositories whose last path element is the same. *)
Lemma Plugins_New_duplicate_alias_witness :
  exists r2,
    Plugins_New plainLib (registryOf [bar]) "github.com/other/bar" true
      = Ret (r2, ("", Some ErrPluginKeyExists)) /\
    r2 = registryOf [bar] /\
    List.length (ps r2) = 1.
Proof.
  destruct (proj1 Plugins_New_duplicate_alias plainLib (registryOf [])
              (registryOf [bar]) "github.com/user/bar" false "bar" eq_refl)
    as [_ Hheld].
  apply (proj1 (proj2 (proj2 Plugins_New_duplicate_alias)) plainLib
           (registryOf [bar]) "github.com/other/bar" true
           {| p := None; importKey := "github.com/other/bar";
              alias := "bar"; gitURL := "github.com/other/bar";
              filename := "plugins/bar.so"; branch := "";
              update := true |} eq_refl Hheld).
Defined.

(** C1, as the code has it. On the registry that keeps a slice of records,
    a [Close] that returns leaves the registry closed, and every later
    [Close] returns [ErrIsClosed], leaves the registry as it is and the
    history as it is: no [Close] symbol of a record is called again. On the
    registry of plugin.go, [Register] and [Get] on a closed registry return
    [ErrIsClosed] and leave it as it is. The other operations of the
    slice-based registry do not read the closed flag: [Build], [BuildAsync],
    [Test], [TestAsync], [Get], [Backend], [Retrieve], [Initialize] and
    [New] do on a registry whose flag is set to [b] what they do on the
    registry itself, and hand the flag on. *)
Theorem Close_then_Close :
  (forall (env : Env) (r r' : Plugins) (h h' : History) (e : error),
      Close env r h = (Ret (r', e), h') ->
      closed r' = true /\
      forall h2 : History, Close env r' h2 = (Ret (r', Some ErrIsClosed), h2))
  /\
  (forall (P : Type) (r : PluginMap.Plugins P) (key : string) (pi : P),
      PluginMap.closed r = true ->
      PluginMap.Register r key pi = (r, Some ErrIsClosed) /\
      PluginMap.Get r key = (None, Some ErrIsClosed))
  /\
  (forall (env : Env) (lib : GoLib) (r : Plugins) (b : bool),
      Build env (set_closed b r) = Build env r /\
      Test env (set_closed b r) = Test env r /\
      (forall picks,
          BuildAsync env picks (set_closed b r) = BuildAsync env picks r /\
          TestAsync env picks (set_closed b r) = TestAsync env picks r) /\
      (forall key backend heap,
          Get (set_closed b r) key = Get r key /\
          Backend env (set_closed b r) key backend heap
          = Backend env r key backend heap) /\
      (forall h,
          Retrieve env lib (set_closed b r) h
          = (flagged b (fst (Retrieve env lib r h)),
             snd (Retrieve env lib r h)) /\
          Initialize env (set_closed b r) h
          = (flagged b (fst (Initialize env r h)),
             snd (Initialize env r h))) /\
      (forall k u,
          Plugins_New lib (set_closed b r) k u
          = flagged b (Plugins_New lib r k u))).
Proof.
  split; [|split].
  - intros env r r' h h' e HClose.
    assert (Hclosed : closed r' = true).
    { unfold Close in HClose. destruct (closed r) eqn:Hc.
      - injection HClose as <- _ _. exact Hc.
      - unfold bind in HClose.
        destruct (closeAll env (ps r) [] h) as [[errs|pe] hx];
          [|discriminate].
        injection HClose as <- _ _. reflexivity. }
    split; [exact Hclosed |].
    intros h2. unfold Close. rewrite Hclosed. reflexivity.
  - intros P r key pi Hc. unfold PluginMap.Register, PluginMap.Get.
    rewrite Hc. split; reflexivity.
  - intros env lib r b.
    split; [reflexivity |]. split; [reflexivity |].
    split; [intros picks; split; reflexivity |].
    split; [intros key backend heap; split; reflexivity |].
    split; [intros h; split | intros k u].
    + unfold Retrieve, bind. cbn [ps Branch set_closed].
      destruct (retrieveAll env lib (ps r) (Branch r) [] h)
        as [[[l err]|pe] h']; reflexivity.
    + unfold Initialize, bind. cbn [ps set_closed].
      destruct (initAll env (ps r) h) as [[[l err]|pe] h']; reflexivity.
    + unfold Plugins_New. cbn [dir ps set_closed].
      destruct (newPlugin lib (dir r) k u) as [[[pi|] [e|]]|];
        try reflexivity.
      cbn [res_bind]. destruct (pluginslice_append (ps r) pi) as [out [e|]];
        reflexivity.
Qed.

(** A registry with one loaded plugin, closed twice. *)
Lemma Close_then_Close_witness :
  Close quietEnv (set_closed true (registryOf [foo]))
    [CallSymbol "plugins/foo.so" "Close"]
  = (Ret (set_closed true (registryOf [foo]), Some ErrIsClosed),
     [CallSymbol "plugins/foo.so" "Close"]).
Proof.
  apply (proj1 Close_then_Close quietEnv (registryOf [foo])
           (set_closed true (registryOf [foo])) []
           [CallSymbol "plugins/foo.so" "Close"] None eq_refl).
Defined.

(** C1, as the claim states it, fails on every operation but [Close]: the
    registry that keeps a slice of records reads its closed flag nowhere
    else. Here a registry with one loaded plugin is closed (the plugin's
    [Close] is called, the flag is set); [Build] on the closed registry then
    runs the build and returns nil, and a registration adds a record and
    returns its alias. *)
Lemma closed_registry_counterexample :
  let closedRegistry := set_closed true (registryOf [foo]) in
  Close quietEnv (registryOf [foo]) []
    = (Ret (closedRegistry, None), [CallSymbol "plugins/foo.so" "Close"]) /\
  Build quietEnv closedRegistry [CallSymbol "plugins/foo.so" "Close"]
    = (Ret None, [CallSymbol "plugins/foo.so" "Close"; buildCall foo]) /\
  Plugins_New plainLib closedRegistry "github.com/user/bar" false
    = Ret (set_closed true (registryOf [foo; bar]), ("bar", None)).
Proof. cbv zeta. repeat split. Qed.

(** ** The registry: Backend *)

(** C9: [Backend] is not total. For a key whose plugin is loaded and has a
    [Backend] symbol of the type func() interface{}:
    - when the destination is not a pointer, [Backend] panics in
      [reflect.Value.Elem], before the plugin is asked for its backend;
    - when the destination points to a variable and the plugin's
      [Backend()] returns nil, [Backend] panics in [reflect.Value.Type] on
      the zero Value.
    In neither case is [ErrNotAddressable] or the invalid-type error
    returned. ([ErrNotAddressable] is what a nil pointer as destination
    gets, before the plugin is asked.) *)
Theorem Backend_panics (env : Env) (r : Plugins) (key : string)
  (handle : Handle) (heap : Heap) (h : History) :
  Get r key = (Some handle, None) ->
  plugin_Lookup (Some handle) "Backend" = Ret (Some FuncInterface, None) ->
  (forall backend : iface,
      notPointer backend ->
      exists what, Backend env r key backend heap h
                   = (Panic (ReflectPanic what), h)) /\
  (forall (t : GoType) (l : nat) (cell : GoType * GoVal),
      nth_error heap l = Some cell ->
      callInterface env h (pluginpath handle) "Backend" = None ->
      Backend env r key (Some (TPtr t, VPtr (Some l))) heap h
      = (Panic (ReflectPanic "reflect.Value.Type on zero Value"),
         h ++ [CallSymbol (pluginpath handle) "Backend"])) /\
  (forall t : GoType,
      Backend env r key (Some (TPtr t, VPtr None)) heap h
      = (Ret (heap, Some ErrNotAddressable), h)).
Proof.
  intros HGet HLookup. split; [|split].
  - intros backend Hnp. unfold Backend. rewrite HGet.
    unfold bind at 1, liftRes at 1. rewrite HLookup.
    destruct backend as [[t v]|]; simpl in Hnp.
    + destruct t; try contradiction;
        unfold bind, liftRes; simpl; eauto.
    + unfold bind, liftRes; simpl; eauto.
  - intros t l [ct cv] Hcell Hnil. unfold Backend. rewrite HGet.
    unfold bind at 1, liftRes at 1. rewrite HLookup.
    unfold bind at 1, liftRes at 1. simpl reflect.Elem. rewrite Hcell.
    cbn [reflect.CanSet negb].
    unfold bind at 1, callSymbolInterface. cbv beta. rewrite Hnil.
    reflexivity.
  - intros t. unfold Backend. rewrite HGet.
    unfold bind at 1, liftRes at 1. rewrite HLookup. reflexivity.
Qed.

(** An int as destination; and a pointer to an int, with a plugin whose
    [Backend()] is nil. *)
Lemma Backend_panics_witness :
  Backend quietEnv (registryOf [foo]) "foo" (Some (TInt, VInt 0)) [] []
    = (Panic (ReflectPanic "reflect.Value.Elem on int Value"), []) /\
  Backend quietEnv (registryOf [foo]) "foo" (Some (TPtr TInt, VPtr (Some 0)))
    [(TInt, VInt 0)] []
    = (Panic (ReflectPanic "reflect.Value.Type on zero Value"),
       [CallSymbol "plugins/foo.so" "Backend"]).
Proof.
  pose proof (Backend_panics quietEnv (registryOf [foo]) "foo"
                (handle := fooHandle) [] [] eq_refl eq_refl) as [Ha _].
  pose proof (Backend_panics quietEnv (registryOf [foo]) "foo"
                (handle := fooHandle) [(TInt, VInt 0)] [] eq_refl eq_refl)
    as [_ [Hb _]].
  split.
  - destruct (Ha (Some (TInt, VInt 0)) I) as [what Hw].
    rewrite Hw. vm_compute in Hw. injection Hw as ->. reflexivity.
  - exact (Hb TInt 0 (TInt, VInt 0) eq_refl eq_refl).
Defined.

(* ================================================================== *)
(** * Further properties of the package *)

(** ** Strings: pieces of a split *)

Lemma HasPrefix_take (n : nat) (s pre : string) :
  strings.HasPrefix (take n s) pre = true -> strings.HasPrefix s pre = true.
Proof.
  revert n s; induction pre as [|c pre IH]; intros n s H; [reflexivity |].
  destruct n as [|n], s as [|d s]; simpl in *; try discriminate.
  apply andb_true_iff in H as [Hc H]. rewrite Hc. simpl. eapply IH, H.
Qed.

Lemma HasPrefix_empty (pre : string) :
  strings.HasPrefix "" pre = true -> pre = "".
Proof. destruct pre; [reflexivity | discriminate]. Qed.

(** A prefix of a string without [sep] is without [sep]. *)
Lemma Contains_take (n : nat) (s sep : string) :
  strings.Contains s sep = false -> strings.Contains (take n s) sep = false.
Proof.
  unfold strings.Contains.
  revert n; induction s as [|c s IH]; intros n H.
  - destruct n; exact H.
  - rewrite Index_unfold in H.
    destruct (strings.HasPrefix (String c s) sep) eqn:E; [discriminate |].
    destruct (strings.Index s sep) eqn:Ei; [discriminate |].
    destruct n as [|n].
    + simpl take. rewrite Index_unfold.
      destruct (strings.HasPrefix "" sep) eqn:E0; [|reflexivity].
      apply HasPrefix_empty in E0. subst sep. discriminate.
    + change (take (S n) (String c s)) with (String c (take n s)).
      rewrite Index_unfold.
      destruct (strings.HasPrefix (String c (take n s)) sep) eqn:E1.
      * apply (HasPrefix_take (S n) (String c s)) in E1. congruence.
      * specialize (IH n eq_refl).
        destruct (strings.Index (take n s) sep); [discriminate | reflexivity].
Qed.

(** The text before the first occurrence of a non-empty [sep] is without
    [sep]. *)
Lemma Contains_take_Index (c : ascii) (sep' s : string) (m : nat) :
  strings.Index s (String c sep') = Some m ->
  strings.Contains (take m s) (String c sep') = false.
Proof.
  unfold strings.Contains.
  revert m; induction s as [|d s IH]; intros m H.
  - simpl in H. destruct m; [reflexivity | discriminate].
  - rewrite Index_unfold in H.
    destruct (strings.HasPrefix (String d s) (String c sep')) eqn:E.
    + injection H as <-. reflexivity.
    + destruct (strings.Index s (String c sep')) as [k|] eqn:Ek;
        [|discriminate].
      injection H as <-.
      change (take (S k) (String d s)) with (String d (take k s)).
      rewrite Index_unfold.
      destruct (strings.HasPrefix (String d (take k s)) (String c sep'))
        eqn:E1.
      * apply (HasPrefix_take (S k) (String d s)) in E1. congruence.
      * specialize (IH k eq_refl).
        destruct (strings.Index (take k s) (String c sep'));
          [discriminate | reflexivity].
Qed.

Lemma take_all (s : string) : take (String.length s) s = s.
Proof. induction s as [|c s IH]; simpl; [reflexivity | now rewrite IH]. Qed.

Lemma take_take (a b : nat) (s : string) :
  take a (take b s) = take (Nat.min a b) s.
Proof.
  revert b s; induction a as [|a IH]; intros b s; [reflexivity |].
  destruct b as [|b]; [reflexivity |].
  destruct s as [|c s]; [reflexivity |].
  simpl. now rewrite IH.
Qed.

(** The first piece of a split: a prefix of the string, without the
    separator. *)
Lemma Split_first (c : ascii) (sep' s : string) :
  exists n,
    index (strings.Split s (String c sep')) 0 = Ret (take n s) /\
    strings.Contains (take n s) (String c sep') = false.
Proof.
  rewrite Split_unfold.
  destruct (strings.Index s (String c sep')) as [m|] eqn:E.
  - exists m. split; [reflexivity | now apply Contains_take_Index in E].
  - exists (String.length s). rewrite take_all. split; [reflexivity |].
    unfold strings.Contains. now rewrite E.
Qed.

Lemma Split_first_same (c : ascii) (sep' s : string) :
  strings.Contains s (String c sep') = false ->
  index (strings.Split s (String c sep')) 0 = Ret s.
Proof. intros H. now rewrite (Split_no_sep _ _ _ H). Qed.

(** ** Strings: single bytes *)

Lemma HasPrefix_byte (c d : ascii) (s : string) :
  strings.HasPrefix (String d s) (String c "") = Ascii.eqb c d.
Proof. simpl. apply andb_true_r. Qed.

Lemma Contains_byte_cons (c d : ascii) (s : string) :
  strings.Contains (String d s) (String c "")
  = Ascii.eqb c d || strings.Contains s (String c "").
Proof.
  unfold strings.Contains. rewrite Index_unfold, HasPrefix_byte.
  destruct (Ascii.eqb c d); [reflexivity |].
  destruct (strings.Index s (String c "")); reflexivity.
Qed.

Lemma Contains_byte_app (c : ascii) (s t : string) :
  strings.Contains (s ++ t) (String c "")
  = strings.Contains s (String c "") || strings.Contains t (String c "").
Proof.
  induction s as [|d s IH]; [reflexivity |].
  change ((String d s ++ t)%string) with (String d (s ++ t)).
  rewrite !Contains_byte_cons, IH. apply orb_assoc.
Qed.

(** The first occurrence of a byte behind a text that is without it. *)
Lemma Index_byte_app (c : ascii) (s t : string) :
  strings.Contains s (String c "") = false ->
  strings.Index (s ++ String c t) (String c "") = Some (String.length s).
Proof.
  induction s as [|d s IH]; intros H.
  - simpl. now rewrite Ascii.eqb_refl.
  - rewrite Contains_byte_cons in H. apply orb_false_iff in H as [Hd Hs].
    change ((String d s ++ String c t)%string)
      with (String d (s ++ String c t)).
    rewrite Index_unfold, HasPrefix_byte, Hd, (IH Hs). reflexivity.
Qed.

(** Cutting [s ++ c ++ t] at the byte [c], when [s] is without it. *)
Lemma Split_byte_app (c : ascii) (s t : string) :
  strings.Contains s (String c "") = false ->
  strings.Split (s ++ String c t) (String c "")
  = s :: strings.Split t (String c "").
Proof.
  intros H. rewrite Split_unfold, (Index_byte_app c s t H), take_append.
  change (String.length (String c "")) with 1.
  rewrite (drop_append s (String c t) 1). reflexivity.
Qed.

(** Joining and splitting: a non-empty list of texts without the byte [c],
    joined by [c] and split at [c], is the list. *)
Lemma Split_concat (c : ascii) (l : list string) :
  l <> [] ->
  Forall (fun x => strings.Contains x (String c "") = false) l ->
  strings.Split (String.concat (String c "") l) (String c "") = l.
Proof.
  induction l as [|x l IH]; intros Hne Hall; [congruence |].
  inversion Hall as [|? ? Hx Hl]; subst.
  destruct l as [|y l].
  - simpl. now apply Split_no_sep.
  - change (String.concat (String c "") (x :: y :: l))
      with (x ++ String c (String.concat (String c "") (y :: l)))%string.
    rewrite (Split_byte_app c x _ Hx). f_equal. apply IH; [discriminate | exact Hl].
Qed.

Lemma Contains_concat (c b : ascii) (l : list string) :
  Ascii.eqb b c = false ->
  Forall (fun x => strings.Contains x (String b "") = false) l ->
  strings.Contains (String.concat (String c "") l) (String b "") = false.
Proof.
  intros Hbc. induction l as [|x l IH]; intros Hall; [reflexivity |].
  inversion Hall as [|? ? Hx Hl]; subst.
  destruct l as [|y l]; [exact Hx |].
  change (String.concat (String c "") (x :: y :: l))
    with (x ++ String c (String.concat (String c "") (y :: l)))%string.
  rewrite Contains_byte_app, Hx, Contains_byte_cons, Hbc, (IH Hl).
  reflexivity.
Qed.

(** ** Paths *)

Lemma LastIndexByte_none (c : ascii) (s : string) :
  strings.LastIndexByte s c = None ->
  strings.Contains s (String c "") = false.
Proof.
  induction s as [|d s IH]; intros H; [reflexivity |].
  simpl in H. destruct (strings.LastIndexByte s c); [discriminate |].
  destruct (Ascii.eqb d c) eqn:E; [discriminate |].
  rewrite Contains_byte_cons, Ascii.eqb_sym, E, IH; reflexivity.
Qed.

Lemma LastIndexByte_split (c : ascii) (s : string) (i : nat) :
  strings.LastIndexByte s c = Some i ->
  s = (take (S i) s ++ drop (S i) s)%string /\
  strings.Contains (drop (S i) s) (String c "") = false.
Proof.
  revert i; induction s as [|d s IH]; intros i H; [discriminate |].
  simpl in H. destruct (strings.LastIndexByte s c) as [j|] eqn:E.
  - injection H as <-. destruct (IH j eq_refl) as [Hs Hc].
    split; [|exact Hc].
    change (String d s = String d (take (S j) s ++ drop (S j) s)).
    f_equal. exact Hs.
  - destruct (Ascii.eqb d c); [|discriminate]. injection H as <-.
    split; [reflexivity |]. simpl. now apply LastIndexByte_none.
Qed.

(** [path.Split] cuts the path in two, and the file part has no slash. *)
Lemma path_Split_parts (p0 : string) :
  p0 = (fst (path.Split p0) ++ snd (path.Split p0))%string /\
  strings.Contains (snd (path.Split p0)) "/" = false.
Proof.
  unfold path.Split.
  destruct (strings.LastIndexByte p0 "/") as [i|] eqn:E.
  - rewrite Nat.add_1_r. simpl fst. simpl snd.
    now apply LastIndexByte_split.
  - split; [reflexivity | now apply LastIndexByte_none].
Qed.

(** [path.Split] of a directory, a slash and a name without slash. *)
Lemma LastIndexByte_app (c : ascii) (d f : string) :
  strings.Contains f (String c "") = false ->
  strings.LastIndexByte (d ++ String c f) c = Some (String.length d).
Proof.
  intros Hf.
  assert (Hnone : strings.LastIndexByte f c = None).
  { induction f as [|x f IH]; [reflexivity |].
    rewrite Contains_byte_cons in Hf. apply orb_false_iff in Hf as [Hx Hf].
    simpl. rewrite (IH Hf), Ascii.eqb_sym, Hx. reflexivity. }
  induction d as [|x d IH].
  - simpl. now rewrite Hnone, Ascii.eqb_refl.
  - change ((String x d ++ String c f)%string)
      with (String x (d ++ String c f)).
    simpl. now rewrite IH.
Qed.

Lemma path_Split_app (d f : string) :
  strings.Contains f "/" = false ->
  path.Split (d ++ "/" ++ f) = ((d ++ "/")%string, f).
Proof.
  intros Hf. unfold path.Split.
  change ((d ++ "/" ++ f)%string) with ((d ++ String "/" f)%string).
  rewrite (LastIndexByte_app "/" d f Hf), Nat.add_1_r.
  f_equal.
  - replace (d ++ String "/" f)%string with ((d ++ "/") ++ f)%string
      by (rewrite append_assoc; reflexivity).
    replace (S (String.length d)) with (String.length (d ++ "/"))
      by (rewrite length_append; simpl; lia).
    apply take_append.
  - replace (S (String.length d)) with (String.length d + 1) by lia.
    apply (drop_append d (String "/" f) 1).
Qed.

(** ** Keys, further *)

(** X1: without an explicit alias ([" as "] does not occur in the key),
    [ParseKey] returns the key itself and, as the alias, a prefix of the
    last path element that holds no hyphen, no at sign, no hash and no
    slash. *)
Theorem ParseKey_default_alias (key : string) :
  strings.Contains key " as " = false ->
  exists n,
    let alias := take n (snd (path.Split key)) in
    ParseKey key = Ret (key, alias) /\
    strings.Contains alias "-" = false /\
    strings.Contains alias "@" = false /\
    strings.Contains alias "#" = false /\
    strings.Contains alias "/" = false.
Proof.
  intros Hkey. unfold ParseKey.
  rewrite (Split_no_sep _ _ _ Hkey). cbn -[strings.Split path.Split].
  destruct (path_Split_parts key) as [_ Hslash].
  destruct (path.Split key) as [d name]. simpl snd in *.
  destruct (Split_first "-" "" name) as (n1 & -> & H1).
  cbn -[strings.Split].
  destruct (Split_first "@" "" (take n1 name)) as (n2 & -> & H2).
  cbn -[strings.Split].
  destruct (Split_first "#" "" (take n2 (take n1 name))) as (n3 & -> & H3).
  cbn -[strings.Split].
  exists (Nat.min n3 (Nat.min n2 n1)). cbv zeta.
  rewrite <- !take_take. repeat split.
  - now apply Contains_take, Contains_take.
  - now apply Contains_take.
  - exact H3.
  - now apply Contains_take, Contains_take, Contains_take.
Qed.

Lemma ParseKey_default_alias_witness :
  exists n,
    let alias := take n (snd (path.Split "github.com/user/my-plugin@v1.2.0")) in
    ParseKey "github.com/user/my-plugin@v1.2.0"
      = Ret ("github.com/user/my-plugin@v1.2.0", alias) /\
    strings.Contains alias "-" = false /\
    strings.Contains alias "@" = false /\
    strings.Contains alias "#" = false /\
    strings.Contains alias "/" = false.
Proof.
  apply (ParseKey_default_alias "github.com/user/my-plugin@v1.2.0").
  reflexivity.
Defined.

(** X3: [removeBranchHash] never panics; it returns a prefix of the URL that
    holds neither a hash nor an at sign, and the URL itself when the URL
    holds neither. *)
Theorem removeBranchHash_prefix (gitURL : string) :
  (exists n,
      removeBranchHash gitURL = Ret (take n gitURL) /\
      strings.Contains (take n gitURL) "#" = false /\
      strings.Contains (take n gitURL) "@" = false) /\
  (strings.Contains gitURL "#" = false ->
   strings.Contains gitURL "@" = false ->
   removeBranchHash gitURL = Ret gitURL).
Proof.
  unfold removeBranchHash. split.
  - destruct (Split_first "#" "" gitURL) as (n1 & -> & H1).
    cbn -[strings.Split].
    destruct (Split_first "@" "" (take n1 gitURL)) as (n2 & -> & H2).
    exists (Nat.min n2 n1). rewrite <- take_take.
    split; [reflexivity | split; [now apply Contains_take | exact H2]].
  - intros Hh Ha. rewrite (Split_first_same _ _ _ Hh).
    cbn -[strings.Split]. now apply Split_first_same.
Qed.

Lemma removeBranchHash_prefix_witness :
  removeBranchHash "github.com/user/plugin" = Ret "github.com/user/plugin".
Proof.
  apply (proj2 (removeBranchHash_prefix "github.com/user/plugin"));
    reflexivity.
Defined.

Lemma trimSlashes_same (y : string) :
  strings.Contains y "/" = false -> filepath.trimSlashes y = y.
Proof.
  induction y as [|c y IH]; intros H; [reflexivity |].
  rewrite Contains_byte_cons in H. apply orb_false_iff in H as [Hc Hy].
  simpl. rewrite (IH Hy). destruct y; [|reflexivity].
  rewrite Ascii.eqb_sym, Hc. reflexivity.
Qed.

Lemma trimSlashes_app (x y : string) :
  strings.Contains y "/" = false -> y <> "" ->
  filepath.trimSlashes (x ++ y) = (x ++ y)%string.
Proof.
  intros Hy Hne. induction x as [|c x IH]; [now apply trimSlashes_same |].
  change ((String c x ++ y)%string) with (String c (x ++ y)).
  simpl. rewrite IH.
  destruct (x ++ y)%string eqn:E; [|reflexivity].
  destruct x; simpl in E; [congruence | discriminate].
Qed.

Lemma LastIndexByte_absent (c : ascii) (f : string) :
  strings.Contains f (String c "") = false ->
  strings.LastIndexByte f c = None.
Proof.
  induction f as [|x f IH]; intros Hf; [reflexivity |].
  rewrite Contains_byte_cons in Hf. apply orb_false_iff in Hf as [Hx Hf].
  simpl. rewrite (IH Hf), Ascii.eqb_sym, Hx. reflexivity.
Qed.

(** [filepath.Base] of a directory part and a file name. *)
Lemma Base_app (dirPart name : string) :
  dirPart = "" \/ (exists d, dirPart = (d ++ "/")%string) ->
  strings.Contains name "/" = false -> name <> "" ->
  filepath.Base (dirPart ++ name) = name.
Proof.
  intros Hdir Hname Hne. unfold filepath.Base.
  destruct (dirPart ++ name)%string eqn:E.
  - destruct dirPart; simpl in E; [congruence | discriminate].
  - rewrite <- E, (@trimSlashes_app dirPart name Hname Hne).
    unfold filepath.lastElem.
    assert (Hs : snd (path.Split (dirPart ++ name)) = name).
    { destruct Hdir as [-> | [d ->]].
      - simpl. unfold path.Split.
        now rewrite (@LastIndexByte_absent "/" name Hname).
      - rewrite append_assoc, path_Split_app by exact Hname. reflexivity. }
    rewrite Hs. destruct name; [congruence | reflexivity].
Qed.

(** X4: [getPluginKey] never panics and its key holds no dot; for a plugin
    file, in a directory or not, whose name [f] holds no dot and no slash,
    the key is [f], whatever the extension. *)
Theorem getPluginKey_name :
  (forall filename : string,
      exists n,
        getPluginKey filename = Ret (take n (filepath.Base filename)) /\
        strings.Contains (take n (filepath.Base filename)) "." = false) /\
  (forall dirPart f ext : string,
      dirPart = "" \/ (exists d, dirPart = (d ++ "/")%string) ->
      strings.Contains f "." = false ->
      strings.Contains f "/" = false ->
      strings.Contains ext "/" = false ->
      getPluginKey (dirPart ++ f ++ "." ++ ext) = Ret f).
Proof.
  split.
  - intros filename. unfold getPluginKey. apply Split_first.
  - intros dirPart f ext Hdir Hdot Hslash Hext. unfold getPluginKey.
    rewrite Base_app.
    + change ((f ++ "." ++ ext)%string) with ((f ++ String "." ext)%string).
      rewrite (Split_byte_app "." f ext Hdot). reflexivity.
    + exact Hdir.
    + change ((f ++ "." ++ ext)%string) with ((f ++ String "." ext)%string).
      rewrite Contains_byte_app, Hslash, Contains_byte_cons, Hext.
      reflexivity.
    + destruct f; discriminate.
Qed.

Lemma getPluginKey_name_witness :
  getPluginKey ("./local/" ++ "foo" ++ "." ++ "so") = Ret "foo".
Proof.
  apply (proj2 getPluginKey_name "./local/" "foo" "so");
    [right; exists "./local"; reflexivity | reflexivity ..].
Defined.

(** ** Handler keys, further *)

Lemma get_last (s t : string) (c : ascii) :
  String.get (String.length s) (s ++ String c t) = Some c.
Proof. induction s as [|d s IH]; [reflexivity | exact IH]. Qed.

Lemma byteAt_last (s : string) (c : ascii) :
  byteAt (s ++ String c "")
    (Z.of_nat (String.length (s ++ String c "")) - 1) = Ret c.
Proof.
  unfold byteAt. rewrite length_append. simpl String.length.
  replace (Z.of_nat (String.length s + 1) - 1)%Z
    with (Z.of_nat (String.length s)) by lia.
  destruct (Z.of_nat (String.length s) <? 0)%Z eqn:E;
    [apply Z.ltb_lt in E; lia |].
  now rewrite Nat2Z.id, get_last.
Qed.

Lemma take_init (s : string) (c : ascii) :
  take (String.length (s ++ String c "") - 1) (s ++ String c "") = s.
Proof.
  rewrite length_append. simpl String.length.
  replace (String.length s + 1 - 1) with (String.length s) by lia.
  apply take_append.
Qed.

(** X5: writing and parsing a handler key. For an alias and a method name
    without dot and parenthesis, [alias.method] parses to the two with no
    arguments; and with a non-empty list of arguments that hold no dot, no
    opening parenthesis and no comma, [alias.method(a1,...,an)] parses to the
    alias, the method and the arguments, in their order, and no error. *)
Theorem getHandlerParts_round_trip (a m : string) (args : list string) :
  strings.Contains a "." = false ->
  strings.Contains m "." = false ->
  strings.Contains m "(" = false ->
  Forall (fun x => strings.Contains x "." = false) args ->
  Forall (fun x => strings.Contains x "(" = false) args ->
  Forall (fun x => strings.Contains x "," = false) args ->
  getHandlerParts (a ++ "." ++ m) = Ret (a, m, [], None) /\
  (args <> [] ->
   getHandlerParts (a ++ "." ++ m ++ "(" ++ String.concat "," args ++ ")")
   = Ret (a, m, args, None)).
Proof.
  intros Ha Hm Hmp Hdot Hpar Hcom. split.
  - unfold getHandlerParts.
    change ((a ++ "." ++ m)%string) with ((a ++ String "." m)%string).
    rewrite (Split_byte_app "." a m Ha), (Split_no_sep _ _ _ Hm).
    cbn -[strings.Split]. rewrite (Split_no_sep _ _ _ Hmp). reflexivity.
  - intros Hne. unfold getHandlerParts.
    set (argsStr := String.concat "," args).
    set (rest := (m ++ "(" ++ argsStr ++ ")")%string).
    assert (Hargs_dot : strings.Contains argsStr "." = false)
      by (apply Contains_concat; [reflexivity | exact Hdot]).
    assert (Hargs_par : strings.Contains argsStr "(" = false)
      by (apply Contains_concat; [reflexivity | exact Hpar]).
    assert (Hrest : strings.Contains rest "." = false).
    { unfold rest.
      change ((m ++ "(" ++ argsStr ++ ")")%string)
        with ((m ++ String "(" (argsStr ++ ")"))%string).
      rewrite Contains_byte_app, Hm, Contains_byte_cons, Contains_byte_app,
        Hargs_dot. reflexivity. }
    change ((a ++ "." ++ rest)%string) with ((a ++ String "." rest)%string).
    rewrite (Split_byte_app "." a rest Ha), (Split_no_sep _ _ _ Hrest).
    cbn -[strings.Split]. unfold rest.
    change ((m ++ "(" ++ argsStr ++ ")")%string)
      with ((m ++ String "(" (argsStr ++ ")"))%string).
    rewrite (Split_byte_app "(" m _ Hmp).
    rewrite Split_no_sep
      by (rewrite Contains_byte_app, Hargs_par; reflexivity).
    cbn -[strings.Split byteAt take String.length].
    rewrite (byteAt_last argsStr ")"). cbn -[strings.Split take String.length].
    rewrite (take_init argsStr ")").
    unfold argsStr. rewrite (Split_concat "," Hne Hcom). reflexivity.
Qed.

Lemma getHandlerParts_round_trip_witness :
  getHandlerParts ("jump" ++ "." ++ "Login" ++ "(" ++
                   String.concat "," ["users"; "admin"] ++ ")")
  = Ret ("jump", "Login", ["users"; "admin"], None).
Proof.
  refine (proj2 (@getHandlerParts_round_trip "jump" "Login"
                   ["users"; "admin"] eq_refl eq_refl eq_refl _ _ _) _).
  - repeat constructor.
  - repeat constructor.
  - repeat constructor.
  - discriminate.
Defined.

(** X6: [getHandlerParts] reads the first two pieces of the key between
    dots and nothing else: what stands behind a second dot changes nothing.
    (So an argument with a dot in it, as in [a.m(1.5)], cuts the call
    short.) *)
Theorem getHandlerParts_second_dot (a h rest : string) :
  strings.Contains a "." = false ->
  strings.Contains h "." = false ->
  getHandlerParts (a ++ "." ++ h ++ "." ++ rest)
  = getHandlerParts (a ++ "." ++ h).
Proof.
  intros Ha Hh. unfold getHandlerParts.
  change ((a ++ "." ++ h ++ "." ++ rest)%string)
    with ((a ++ String "." (h ++ String "." rest))%string).
  change ((a ++ "." ++ h)%string) with ((a ++ String "." h)%string).
  rewrite (Split_byte_app "." a _ Ha), (Split_byte_app "." h rest Hh).
  rewrite (Split_byte_app "." a h Ha), (Split_no_sep _ _ _ Hh).
  reflexivity.
Qed.

Lemma getHandlerParts_second_dot_witness :
  getHandlerParts ("a" ++ "." ++ "m(1" ++ "." ++ "5)")
  = getHandlerParts ("a" ++ "." ++ "m(1").
Proof.
  apply (@getHandlerParts_second_dot "a" "m(1" "5)"); reflexivity.
Defined.

(** ** Git URLs *)

(** X7: what [getGitURLParts] makes of a git URL whose part before the
    first at sign parses as a URL. With fewer than two non-empty path
    segments (a bare host, or a host and a user) it panics on an index out
    of range. With two or more, the first two are the user and the
    repository, and the branch is the text behind the at sign when there is
    one, the fragment of the URL otherwise. *)
Theorem getGitURLParts_segments (lib : GoLib) (gitURL c0 : string)
  (rest : list string) (u : URL) :
  strings.Split gitURL "@" = c0 :: rest ->
  url_Parse lib ("http://" ++ c0) = inl u ->
  let parts := stripEmpty (strings.Split (Path u) "/") in
  (List.length parts < 2 ->
   exists i, getGitURLParts lib gitURL
             = Panic (IndexOutOfRange i (List.length parts))) /\
  (forall (user repo : string) (more : list string),
      parts = user :: repo :: more ->
      getGitURLParts lib gitURL
      = Ret (user, repo,
             match rest with v :: _ => v | [] => Fragment u end, None)).
Proof.
  intros Hsplit Hparse parts. unfold getGitURLParts.
  rewrite Hsplit. cbn [index nth_error res_bind]. rewrite Hparse.
  fold parts. split.
  - intros Hlen. destruct parts as [|x [|y more]]; simpl in Hlen.
    + exists 0%Z. reflexivity.
    + exists 1%Z. reflexivity.
    + lia.
  - intros user repo more ->. cbn. destruct rest; reflexivity.
Qed.

Lemma getGitURLParts_segments_witness :
  (exists i, getGitURLParts plainLib "github.com/user"
             = Panic (IndexOutOfRange i 1)) /\
  getGitURLParts plainLib "github.com/user/plugin@v1.2.0#develop"
  = Ret ("user", "plugin", "v1.2.0#develop", None).
Proof.
  split.
  - apply (proj1 (@getGitURLParts_segments plainLib "github.com/user"
                    "github.com/user" [] {| Path := "/user"; Fragment := "" |}
                    eq_refl eq_refl)).
    simpl. lia.
  - apply (proj2 (@getGitURLParts_segments plainLib
                    "github.com/user/plugin@v1.2.0#develop"
                    "github.com/user/plugin" ["v1.2.0#develop"]
                    {| Path := "/user/plugin"; Fragment := "" |}
                    eq_refl eq_refl) "user" "plugin" []).
    reflexivity.
Defined.

(** X8: the repository of a plugin source. For a git URL made of
    slash-separated components, [getGitDir] is the join of $HOME/go/src and
    the first three components, and [gitRepoFromURL] is the join of the first
    three components when there are more than three, the URL itself
    otherwise. So every source nested in one repository has the directory
    and the key of that repository. *)
Theorem repository_of_nested_source (lib : GoLib) (homeDir : string)
  (comps : list string) :
  comps <> [] ->
  Forall (fun x => strings.Contains x "/" = false) comps ->
  let gitURL := String.concat "/" comps in
  getGitDir lib homeDir gitURL
  = Ret (path_Join lib ([homeDir; "go"; "src"] ++ firstn 3 comps)) /\
  gitRepoFromURL lib gitURL
  = Ret (if (3 <? List.length comps)%nat
         then path_Join lib (firstn 3 comps) else gitURL).
Proof.
  intros Hne Hall gitURL. unfold getGitDir, gitRepoFromURL, gitURL.
  rewrite (Split_concat "/" Hne Hall).
  destruct comps as [|a [|b [|c [|d more]]]]; [congruence | split; reflexivity ..].
Qed.

Lemma repository_of_nested_source_witness :
  let gitURL := String.concat "/" ["github.com"; "vroomy"; "plugins"; "jump"] in
  getGitDir plainLib "/home/me" gitURL
  = Ret "/home/me/go/src/github.com/vroomy/plugins" /\
  gitRepoFromURL plainLib gitURL = Ret "github.com/vroomy/plugins".
Proof.
  refine (@repository_of_nested_source plainLib "/home/me"
            ["github.com"; "vroomy"; "plugins"; "jump"] _ _).
  - discriminate.
  - repeat constructor.
Defined.

(** X9: [trimSlash] never panics: the empty string stays empty, one final
    slash is taken away (one only), and a string that ends in another byte
    is returned as it is. *)
Theorem trimSlash_cases :
  trimSlash "" = Ret "" /\
  (forall s : string, trimSlash (s ++ "/") = Ret s) /\
  (forall (s : string) (c : ascii),
      c <> "/"%char -> trimSlash (s ++ String c "") = Ret (s ++ String c "")%string).
Proof.
  split; [reflexivity | split].
  - intros s. unfold trimSlash.
    replace (String.length (s ++ "/") =? 0)%nat with false
      by (rewrite length_append, Nat.add_1_r; reflexivity).
    rewrite (byteAt_last s "/"), (take_init s "/"). reflexivity.
  - intros s c Hc. unfold trimSlash.
    replace (String.length (s ++ String c "") =? 0)%nat with false
      by (rewrite length_append, Nat.add_1_r; reflexivity).
    rewrite (byteAt_last s c). cbn -[take String.length].
    apply Ascii.eqb_neq in Hc. rewrite Hc. reflexivity.
Qed.

Lemma trimSlash_cases_witness :
  trimSlash ("plugins//" ++ "/") = Ret "plugins//" /\
  trimSlash ("plugins" ++ "x") = Ret "pluginsx".
Proof.
  split.
  - apply (proj1 (proj2 trimSlash_cases)).
  - apply (proj2 (proj2 trimSlash_cases) "plugins" "x"%char). discriminate.
Defined.

(** X10: [addToMap] adds a key once. After an attempt to add a key,
    whatever its answer, a second attempt for that key answers false and
    leaves the map as it is; and the answer for any other key is what it was
    before. *)
Theorem addToMap_once (key val val' : string) (m : list (string * string)) :
  let m1 := fst (addToMap key val m) in
  addToMap key val' m1 = (m1, false) /\
  (forall key' v v',
      key' <> key ->
      snd (addToMap key' v' m1) = snd (addToMap key' v m)).
Proof.
  cbv zeta. unfold addToMap.
  destruct (existsb (fun kv => String.eqb (fst kv) key) m) eqn:E; simpl.
  - rewrite E. split; [reflexivity |].
    intros key' v v' _.
    destruct (existsb (fun kv => String.eqb (fst kv) key') m); reflexivity.
  - assert (Hin : existsb (fun kv => String.eqb (fst kv) key)
                    (m ++ [(key, val)]) = true).
    { rewrite existsb_app. simpl. rewrite String.eqb_refl. simpl.
      apply orb_true_r. }
    rewrite Hin. split; [reflexivity |].
    intros key' v v' Hne. rewrite existsb_app. simpl.
    apply String.eqb_neq in Hne. rewrite String.eqb_sym in Hne.
    rewrite Hne. simpl. rewrite orb_false_r.
    destruct (existsb (fun kv => String.eqb (fst kv) key') m); reflexivity.
Qed.

(** ** Acquisition, further *)

Lemma Contains_empty (c : ascii) (sep' : string) :
  strings.Contains "" (String c sep') = false.
Proof. reflexivity. Qed.

(** What [gitCheckout] returns when git's error stream holds neither
    "Already on" nor "Switched to" and is not empty: an error with the text
    of the stream, whatever the exit status. *)
Lemma gitCheckout_unrecognized (env : Env) (u b : string) (h : History) :
  let o := run env h (GitCheckout u b) in
  stderr o <> "" ->
  strings.Contains (stderr o) "Already on" = false ->
  strings.Contains (stderr o) "Switched to" = false ->
  gitCheckout env u b h
  = (Ret ("", Some (Error (stderr o))), h ++ [GitCheckout u b]).
Proof.
  intros o Hne Ha Hs. unfold gitCheckout, bind, exec, ret. fold o.
  apply String.eqb_neq in Hne. rewrite Hne, Ha, Hs.
  destruct (runErr o); [reflexivity |].
  destruct (String.length (stderr o)) eqn:El; [|reflexivity].
  destruct (stderr o); [discriminate Hne | discriminate El].
Qed.

(** X11: a checkout that leaves a detached head, seen from git's output.
    When the error stream of git checkout holds "HEAD is now at" and neither
    "Already on" nor "Switched to", then, whatever git's exit status,
    [setTargetBranch] refreshes the dependencies and answers that no pull is
    needed: it runs the checkout and the download, nothing else, and returns
    the outcome of the download. *)
Theorem setTargetBranch_detached_output (env : Env) (pi : Plugin)
  (h : History) :
  let co := GitCheckout (gitURL pi) (branch pi) in
  let download := GoModDownload (gitURL pi) in
  strings.Contains (stderr (run env h co)) "HEAD is now at" = true ->
  strings.Contains (stderr (run env h co)) "Already on" = false ->
  strings.Contains (stderr (run env h co)) "Switched to" = false ->
  exists derr,
    updateDependencies env pi (h ++ [co]) = (Ret derr, h ++ [co; download]) /\
    setTargetBranch env pi h = (Ret (false, derr), h ++ [co; download]).
Proof.
  intros co download Hhead Ha Hs.
  assert (Hne : stderr (run env h co) <> "").
  { intros E. rewrite E in Hhead. discriminate. }
  pose proof (gitCheckout_unrecognized env (gitURL pi) (branch pi) h Hne Ha Hs)
    as Hco.
  assert (Hcheckout : checkout env pi h
                      = (Ret (Some (Error (stderr (run env h co)))),
                         h ++ [co])).
  { unfold checkout, bind. rewrite Hco. reflexivity. }
  rewrite (setTargetBranch_unfold env pi h Hcheckout).
  unfold headIsNowAt. simpl Error_text. rewrite Hhead.
  destruct (updateDependencies_history env pi (h ++ [co])) as [d Hd].
  fold download in Hd. rewrite <- app_assoc in Hd. simpl app in Hd.
  exists d. unfold bind. rewrite Hd. split; reflexivity.
Qed.

Lemma setTargetBranch_detached_output_witness :
  exists derr,
    updateDependencies (gitEnv detachedNotice succeeded) pinned
      [GitCheckout "github.com/user/plugin" "v1.2.0"]
    = (Ret derr, [GitCheckout "github.com/user/plugin" "v1.2.0";
                  GoModDownload "github.com/user/plugin"]) /\
    setTargetBranch (gitEnv detachedNotice succeeded) pinned []
    = (Ret (false, derr), [GitCheckout "github.com/user/plugin" "v1.2.0";
                           GoModDownload "github.com/user/plugin"]).
Proof.
  apply (@setTargetBranch_detached_output (gitEnv detachedNotice succeeded)
           pinned []); reflexivity.
Defined.

(** The start of [updatePlugin] for an entry with a git URL: the source is
    looked for and fetched when it is not there (the outcome of the fetch is
    dropped), and the branch is overridden. *)
Lemma updatePlugin_start (env : Env) (pi : Plugin) (b : string) (h : History) :
  gitURL pi <> "" ->
  let pi' := if (0 <? String.length b)%nat then set_branch b pi else pi in
  let h0 := match stat env h (goSrcDir env (gitURL pi)) with
            | Some true => h
            | _ => h ++ [GoGet (gitURL pi)]
            end in
  let pull : M (Plugin * error) :=
    bind (gitPull env (gitURL pi'))
      (fun x => let '(status, err) := x in
         match err, String.length status with
         | None, 0 => ret (pi', None)
         | _, _ => bind (updateDependencies env pi')
                     (fun err0 => ret (pi', err0))
         end) in
  updatePlugin env pi b h =
  (if (0 <? String.length (branch pi'))%nat
   then bind (setTargetBranch env pi')
          (fun x => let '(shouldPull, err) := x in
             match shouldPull, err with
             | true, None => pull
             | _, _ => ret (pi', err)
             end)
   else pull) h0.
Proof.
  intros Hurl pi' h0 pull. unfold updatePlugin.
  apply length_eqb_0 in Hurl. rewrite Hurl.
  unfold bind at 1. unfold doesPluginSourceExist, osStat, bind at 1.
  fold pi'. unfold h0, ret.
  destruct (stat env h (goSrcDir env (gitURL pi))) as [[|]|]; simpl negb;
    cbv iota.
  - reflexivity.
  - unfold bind at 1, goGet, bind at 1, exec, ret.
    destruct (runErr (run env h (GoGet (gitURL pi)))); reflexivity.
  - unfold bind at 1, goGet, bind at 1, exec, ret.
    destruct (runErr (run env h (GoGet (gitURL pi)))); reflexivity.
Qed.

Lemma gitPull_history (env : Env) (u : string) (h : History) :
  exists status err, gitPull env u h = (Ret (status, err), h ++ [GitPull u]).
Proof.
  unfold gitPull, bind, exec, ret.
  set (o := run env h (GitPull u)).
  destruct (runErr o);
    [destruct (0 <? String.length (stderr o))%nat
    | destruct (strings.Contains (stdout o) "up to date")]; eauto.
Qed.

Lemma setTargetBranch_returns (env : Env) (pi : Plugin) (h : History) :
  exists shouldPull err h', setTargetBranch env pi h
                            = (Ret (shouldPull, err), h').
Proof.
  destruct (checkout_history env pi h) as [e1 H1].
  rewrite (setTargetBranch_unfold env pi h H1).
  destruct e1 as [e1|]; [|unfold ret; eauto].
  set (h1 := h ++ [GitCheckout (gitURL pi) (branch pi)]).
  assert (Hset : forall hx, exists d hy,
             bind (updateDependencies env pi) (fun d => ret (false, d)) hx
             = (Ret (false, d), hy)).
  { intros hx. destruct (updateDependencies_history env pi hx) as [d Hd].
    unfold bind. rewrite Hd. unfold ret. eauto. }
  destruct (headIsNowAt e1).
  - destruct (Hset h1) as (d & hy & ->). eauto.
  - destruct (gitFetchTags_history env (gitURL pi) h1) as [fe Hf].
    unfold bind at 1. rewrite Hf.
    destruct fe as [fe|]; [unfold ret; eauto |].
    destruct (checkout_history env pi (h1 ++ [GitFetchTags (gitURL pi)]))
      as [e2 H2].
    unfold bind at 1. rewrite H2.
    destruct e2 as [e2|]; [|unfold ret; eauto].
    destruct (headIsNowAt e2); cbn [negb]; [|unfold ret; eauto].
    destruct (Hset ((h1 ++ [GitFetchTags (gitURL pi)]) ++
                    [GitCheckout (gitURL pi) (branch pi)]))
      as (d & hy & ->). eauto.
Qed.

(** X12: what [updatePlugin] returns once it pulls (no branch is pinned, or
    the checkout of the branch went through). When the pull brings nothing
    new, it returns nil. In every other case, also when the pull fails,
    the dependencies are refreshed and the outcome of the refresh is what
    [updatePlugin] returns: the error of a failed pull is not returned. *)
Theorem updatePlugin_after_pull (env : Env) (pi : Plugin) (b : string)
  (h hp h1 : History) (status : string) (perr : error) :
  gitURL pi <> "" ->
  let pi' := if (0 <? String.length b)%nat then set_branch b pi else pi in
  let h0 := match stat env h (goSrcDir env (gitURL pi)) with
            | Some true => h
            | _ => h ++ [GoGet (gitURL pi)]
            end in
  (branch pi' = "" /\ hp = h0) \/
  (branch pi' <> "" /\ setTargetBranch env pi' h0 = (Ret (true, None), hp)) ->
  gitPull env (gitURL pi) hp = (Ret (status, perr), h1) ->
  (perr = None -> status = "" ->
   updatePlugin env pi b h = (Ret (pi', None), h1)) /\
  (perr <> None \/ status <> "" ->
   exists derr,
     updateDependencies env pi' h1
     = (Ret derr, h1 ++ [GoModDownload (gitURL pi)]) /\
     updatePlugin env pi b h
     = (Ret (pi', derr), h1 ++ [GoModDownload (gitURL pi)])).
Proof.
  intros Hurl pi' h0 Hreach Hpull.
  assert (Hu : gitURL pi' = gitURL pi)
    by (unfold pi'; destruct (0 <? String.length b)%nat; reflexivity).
  rewrite (updatePlugin_start env pi b h Hurl). fold pi' h0.
  set (pull := bind (gitPull env (gitURL pi')) _).
  assert (Hgo : (if (0 <? String.length (branch pi'))%nat
                 then bind (setTargetBranch env pi')
                        (fun x => let '(shouldPull, err) := x in
                           match shouldPull, err with
                           | true, None => pull
                           | _, _ => ret (pi', err)
                           end)
                 else pull) h0 = pull hp).
  { destruct Hreach as [[Hb ->] | [Hb Hset]].
    - rewrite Hb. reflexivity.
    - apply length_ltb_0 in Hb. rewrite Hb. unfold bind at 1.
      rewrite Hset. reflexivity. }
  rewrite Hgo. unfold pull. rewrite Hu. unfold bind at 1. rewrite Hpull.
  destruct (updateDependencies_history env pi' h1) as [d Hd].
  rewrite Hu in Hd.
  split.
  - intros -> ->. reflexivity.
  - intros Hnot. exists d. split; [exact Hd |].
    destruct perr as [e|].
    + unfold bind. rewrite Hpull. cbv beta iota. rewrite Hd. reflexivity.
    + destruct status as [|c status].
      * destruct Hnot as [Hnot | Hnot]; congruence.
      * unfold bind. rewrite Hpull.
        change (String.length (String c status))
          with (S (String.length status)).
        cbv beta iota. rewrite Hd. reflexivity.
Qed.

Lemma updatePlugin_after_pull_witness :
  updatePlugin (pullEnv (failed "fatal: unable to access")) bar "" []
  = (Ret (bar, None),
     [GitPull "github.com/user/bar"; GoModDownload "github.com/user/bar"]).
Proof.
  assert (Hurl : gitURL bar <> "") by (vm_compute; discriminate).
  assert (Hn : Some (Error "fatal: unable to access") <> None \/ "" <> "")
    by (left; discriminate).
  pose proof (@updatePlugin_after_pull
                (pullEnv (failed "fatal: unable to access")) bar ""
                [] [] [GitPull "github.com/user/bar"] ""
                (Some (Error "fatal: unable to access"))
                Hurl (or_introl (conj eq_refl eq_refl)) eq_refl) as H.
  destruct (proj2 H Hn) as [derr [Hd Hu]].
  vm_compute in Hd. injection Hd as <-. exact Hu.
Defined.

(** X13: [updatePlugin] never panics. An entry without a git URL (a plugin
    file) is left alone: nothing is run. Any other entry comes back with the
    override as its branch when an override is given, also when the update
    fails, and unchanged otherwise. *)
Theorem updatePlugin_entry_left :
  (forall (env : Env) (pi : Plugin) (b : string) (h : History),
      gitURL pi = "" -> updatePlugin env pi b h = (Ret (pi, None), h)) /\
  (forall (env : Env) (pi : Plugin) (b : string) (h : History),
      gitURL pi <> "" ->
      exists e h',
        updatePlugin env pi b h
        = (Ret (if (0 <? String.length b)%nat then set_branch b pi else pi,
                e), h')).
Proof.
  split.
  - intros env pi b h Hurl. unfold updatePlugin. rewrite Hurl. reflexivity.
  - intros env pi b h Hurl.
    rewrite (updatePlugin_start env pi b h Hurl).
    set (pi' := if (0 <? String.length b)%nat then set_branch b pi else pi).
    set (h0 := match stat env h (goSrcDir env (gitURL pi)) with
               | Some true => h
               | _ => h ++ [GoGet (gitURL pi)]
               end).
    set (pull := bind (gitPull env (gitURL pi')) _).
    assert (Hpull : forall hx, exists e h', pull hx = (Ret (pi', e), h')).
    { intros hx. unfold pull, bind at 1.
      destruct (gitPull_history env (gitURL pi') hx) as (st & pe & ->).
      destruct (updateDependencies_history env pi'
                  (hx ++ [GitPull (gitURL pi')])) as [d Hd].
      destruct pe as [pe|]; [|destruct (String.length st)];
        try (unfold bind; rewrite Hd); unfold ret; eauto. }
    destruct (0 <? String.length (branch pi'))%nat; [|apply Hpull].
    destruct (setTargetBranch_returns env pi' h0) as (sp & e & h1 & Hs).
    unfold bind at 1. rewrite Hs.
    destruct sp, e; try apply Hpull; unfold ret; eauto.
Qed.

Lemma updatePlugin_entry_left_witness :
  updatePlugin quietEnv
    {| p := None; importKey := "./local/foo.so"; alias := "foo.so";
       gitURL := ""; filename := "./local/foo.so"; branch := "";
       update := false |} "develop" []
  = (Ret ({| p := None; importKey := "./local/foo.so"; alias := "foo.so";
             gitURL := ""; filename := "./local/foo.so"; branch := "";
             update := false |}, None), []).
Proof. apply (proj1 updatePlugin_entry_left). reflexivity. Defined.

(** ** Tests *)

Lemma test_history (env : Env) (pi : Plugin) (h : History) :
  exists err calls,
    test env pi h = (Ret err, h ++ calls) /\
    (err = None \/ err = Some (failedTest pi)) /\
    (calls = [] \/ calls = [GoTest (gitURL pi)]).
Proof.
  unfold test, doesPluginExist, osStat, goTest, exec, bind, ret, failedTest.
  destruct (stat env h (filename pi)) as [[|]|]; cbn [negb andb];
    try destruct (update pi); cbn [negb andb];
    try destruct (runErr (run env h (GoTest (gitURL pi))));
    try (exists None, []; rewrite app_nil_r; now auto);
    eauto 8.
Qed.

(** X14: when the file of the plugin is missing, or is a directory, or the
    update flag is set, [test] runs go test, once, and its result follows
    the exit status alone: a run that fails gives the error that names the
    alias, whatever go test wrote; a run that ends well gives nil, also when
    its output holds no PASS. *)
Theorem test_outcome (env : Env) (pi : Plugin) (h : History) :
  stat env h (filename pi) <> Some false \/ update pi = true ->
  test env pi h
  = (Ret (match runErr (run env h (GoTest (gitURL pi))) with
          | Some _ => Some (failedTest pi)
          | None => None
          end),
     h ++ [GoTest (gitURL pi)]).
Proof.
  intros Hrun.
  unfold test, doesPluginExist, osStat, goTest, exec, bind, ret, failedTest.
  destruct (stat env h (filename pi)) as [[|]|]; cbn [negb andb];
    try destruct (update pi); cbn [negb andb];
    try (destruct Hrun; congruence);
    destruct (runErr (run env h (GoTest (gitURL pi)))); reflexivity.
Qed.

Lemma test_outcome_witness :
  test (goTestEnv (failed "--- FAIL: TestLoad")) bar []
  = (Ret (Some (Error "bar failed test")), [GoTest "github.com/user/bar"]).
Proof.
  apply (test_outcome (goTestEnv (failed "--- FAIL: TestLoad")) bar []).
  left. discriminate.
Defined.

Lemma testAll_app_fail (env : Env) (l1 l2 : list Plugin) (pi : Plugin)
  (h h1 h2 : History) (e : Err) :
  TestRun env h (map (fun x => (x, None)) l1) h1 ->
  test env pi h1 = (Ret (Some e), h2) ->
  testAll env (l1 ++ pi :: l2) h = (Ret (Some e), h2).
Proof.
  revert h; induction l1 as [|x l1 IH]; intros h Hrun Hfail.
  - inversion Hrun; subst. simpl. unfold bind. rewrite Hfail. reflexivity.
  - inversion Hrun as [|? hx ? ? ? ? Hx Hrest]; subst.
    simpl. unfold bind at 1. rewrite Hx. apply IH; assumption.
Qed.

Lemma testTasks_run (env : Env) (order : list Plugin) (errs : list string)
  (h : History) :
  exists results h',
    map fst results = order /\
    TestRun env h results h' /\
    testTasks env order errs h = (Ret (errs ++ failures results), h').
Proof.
  revert errs h; induction order as [|pi order IH]; intros errs h.
  - exists [], h. simpl. rewrite app_nil_r. repeat split. constructor.
  - destruct (test_history env pi h) as (err & calls & Herr & _ & _).
    destruct (IH (Push errs err) (h ++ calls))
      as (results & h' & Hfst & Hrun & Htasks).
    exists ((pi, err) :: results), h'.
    split; [simpl; now rewrite Hfst | split].
    + econstructor; eassumption.
    + simpl. unfold bind at 1. rewrite Herr, Htasks.
      unfold failures. simpl. fold (failures results).
      rewrite (Push_app errs err), <- app_assoc. reflexivity.
Qed.

Lemma TestRun_named (env : Env) (results : list (Plugin * error))
  (h h' : History) :
  TestRun env h results h' ->
  failures results
  = map (fun x => alias (fst x) ++ " failed test")%string
      (filter (fun x => match snd x with Some _ => true | None => false end)
         results).
Proof.
  induction 1 as [h | h h1 h2 pi err rest Htest _ IH]; [reflexivity |].
  unfold failures in *. simpl. rewrite IH.
  destruct (test_history env pi h) as (err' & calls & Herr & Hnamed & _).
  rewrite Herr in Htest. injection Htest as -> _.
  destruct Hnamed as [-> | ->]; reflexivity.
Qed.

(** X15: [Test] stops at the first test that fails, and its error names
    that record by its alias. [TestAsync] tests every record once, in the
    order the queue picks, whatever the outcomes, and returns one list with
    a text for each record whose test failed, each naming its record by the
    alias (nil when none failed). *)
Theorem Test_stops_TestAsync_names (env : Env) :
  (forall (r : Plugins) (l1 l2 : list Plugin) (pi : Plugin)
          (h h1 h2 : History) (e : Err),
      ps r = l1 ++ pi :: l2 ->
      TestRun env h (map (fun x => (x, None)) l1) h1 ->
      test env pi h1 = (Ret (Some e), h2) ->
      Test env r h = (Ret (Some (failedTest pi)), h2)) /\
  (forall (picks : list nat) (r : Plugins) (h : History),
    exists results h',
      Permutation (map fst results) (ps r) /\
      TestRun env h results h' /\
      TestAsync env picks r h
      = (Ret (Err_ (map (fun x => alias (fst x) ++ " failed test")%string
                      (filter (fun x => match snd x with
                                        | Some _ => true
                                        | None => false
                                        end) results))), h')).
Proof.
  split.
  - intros r l1 l2 pi h h1 h2 e Hps Hrun Hfail.
    unfold Test. rewrite Hps.
    destruct (test_history env pi h1) as (err & calls & Herr & Hnamed & _).
    rewrite Herr in Hfail. injection Hfail as -> <-.
    destruct Hnamed as [Hn | Hn]; [discriminate |].
    injection Hn as ->.
    apply testAll_app_fail with (h1 := h1); assumption.
  - intros picks r h. unfold TestAsync.
    destruct (testTasks_run env
                (schedule picks (List.length (ps r)) (ps r)) [] h)
      as (results & h' & Hfst & Hrun & Htasks).
    exists results, h'. rewrite Hfst.
    split; [apply schedule_Permutation | split; [exact Hrun |]].
    unfold bind. rewrite Htasks. simpl.
    rewrite (TestRun_named Hrun). reflexivity.
Qed.

(** Three records, the test of each fails: [Test] stops at the first,
    [TestAsync] tests the three and names them. *)
Lemma Test_stops_TestAsync_names_witness :
  Test (goTestEnv (failed "--- FAIL")) (registryOf [foo; bar; baz]) []
  = (Ret (Some (Error "foo failed test")), [GoTest "github.com/user/foo"]).
Proof.
  apply (proj1 (Test_stops_TestAsync_names (goTestEnv (failed "--- FAIL")))
           (registryOf [foo; bar; baz]) [] [bar; baz] foo []
           [] [GoTest "github.com/user/foo"] (Error "foo failed test")).
  - reflexivity.
  - constructor.
  - reflexivity.
Defined.

(** ** The registry: loading *)

Lemma initAll_stops (env : Env) (l1 l2 : list Plugin) (pi : Plugin)
  (h : History) (handle : option Handle) (e : Err) :
  (forall hx x, In x l1 -> snd (pluginOpen env hx (filename x)) = None) ->
  pluginOpen env (h ++ map (fun x => OpenPlugin (filename x)) l1) (filename pi)
  = (handle, Some e) ->
  exists l1',
    initAll env (l1 ++ pi :: l2) h
    = (Ret (l1' ++ set_p handle pi :: l2, Some e),
       h ++ map (fun x => OpenPlugin (filename x)) (l1 ++ [pi])) /\
    Forall2 (fun x x' => exists hx, x' = set_p hx x) l1 l1'.
Proof.
  revert h; induction l1 as [|x l1 IH]; intros h Hopen Hfail.
  - exists []. simpl in *. rewrite app_nil_r in Hfail.
    unfold bind, init, ret. rewrite Hfail. split; [reflexivity | constructor].
  - assert (Hx : snd (pluginOpen env h (filename x)) = None)
      by (apply Hopen; left; reflexivity).
    destruct (pluginOpen env h (filename x)) as [hx ex] eqn:Eo.
    simpl in Hx. subst ex.
    destruct (IH (h ++ [OpenPlugin (filename x)])) as (l1' & Hrun & Hsame).
    + intros hy y Hy. apply Hopen. right. exact Hy.
    + simpl in Hfail. rewrite <- app_assoc. exact Hfail.
    + exists (set_p hx x :: l1'). split.
      * simpl. unfold bind at 1, init at 1. rewrite Eo.
        unfold bind at 1. rewrite Hrun. unfold ret.
        rewrite <- app_assoc. reflexivity.
      * constructor; [eauto | exact Hsame].
Qed.

(** X16: [Initialize] stops at the first record that fails to load and
    returns that error: when the records before [pi] load and the load of
    [pi] fails, the loads attempted are those up to [pi], in the order of
    the registry; the records behind [pi] are as they were, and the records
    before it differ from what they were in the handle alone. *)
Theorem Initialize_stops (env : Env) (r : Plugins) (l1 l2 : list Plugin)
  (pi : Plugin) (h : History) (handle : option Handle) (e : Err) :
  ps r = l1 ++ pi :: l2 ->
  (forall hx x, In x l1 -> snd (pluginOpen env hx (filename x)) = None) ->
  pluginOpen env (h ++ map (fun x => OpenPlugin (filename x)) l1) (filename pi)
  = (handle, Some e) ->
  exists l1',
    Initialize env r h
    = (Ret (set_ps (l1' ++ set_p handle pi :: l2) r, Some e),
       h ++ map (fun x => OpenPlugin (filename x)) (l1 ++ [pi])) /\
    Forall2 (fun x x' => exists hx, x' = set_p hx x) l1 l1'.
Proof.
  intros Hps Hopen Hfail.
  destruct (initAll_stops env l1 l2 pi h Hopen Hfail) as (l1' & Hrun & Hsame).
  exists l1'. split; [| exact Hsame].
  unfold Initialize, bind. rewrite Hps, Hrun. reflexivity.
Qed.

(** Three records, the second fails to load: the third is not tried. *)
Lemma Initialize_stops_witness :
  exists l1',
    Initialize (oneBadLoadEnv "plugins/baz.so") (registryOf [bar; baz; foo]) []
    = (Ret (set_ps (l1' ++ set_p None baz :: [foo])
              (registryOf [bar; baz; foo]),
            Some (Error "plugin.Open(plugins/baz.so): realpath failed")),
       [] ++ map (fun x => OpenPlugin (filename x)) ([bar] ++ [baz])) /\
    Forall2 (fun x x' => exists hx, x' = set_p hx x) [bar] l1'.
Proof.
  apply (@Initialize_stops (oneBadLoadEnv "plugins/baz.so")
           (registryOf [bar; baz; foo]) [bar] [foo] baz [] None
           (Error "plugin.Open(plugins/baz.so): realpath failed")).
  - reflexivity.
  - intros hx x [<- | []]. reflexivity.
  - reflexivity.
Defined.

(** ** The registry: Close of the records *)

Lemma closePlugin_loaded (env : Env) (pi : Plugin) (h : History) :
  loaded pi = true ->
  exists err,
    closePlugin env (p pi) h
    = (Ret err, h ++ (if closes pi then [closeCall pi] else [])).
Proof.
  unfold loaded, closes, closeCall, closePlugin, plugin_Lookup, liftRes,
    bind, ret, callSymbolError.
  destruct (p pi) as [handle|]; [intros _ | discriminate].
  destruct (find (fun kv => String.eqb (fst kv) "Close") (syms handle))
    as [[name [| |other]]|]; rewrite ?app_nil_r; eauto.
Qed.

Lemma closeAll_loaded (env : Env) (l : list Plugin) (errs : list string)
  (h : History) :
  Forall (fun x => loaded x = true) l ->
  exists errs',
    closeAll env l errs h
    = (Ret (errs ++ errs'), h ++ map closeCall (filter closes l)) /\
    List.length errs' <= List.length (filter closes l).
Proof.
  intros Hall. revert errs h.
  induction Hall as [|pi l Hpi _ IH]; intros errs h.
  - exists []. simpl. rewrite !app_nil_r. split; [reflexivity | lia].
  - destruct (closePlugin_loaded env pi h Hpi) as [err Herr].
    cbn [closeAll filter]. unfold bind at 1. rewrite Herr.
    destruct err as [e|].
    + destruct (closes pi) eqn:Hc.
      * destruct (IH (Push errs (Some (Error ("error closing " ++ alias pi ++
                  " (" ++ filename pi ++ "): " ++ Error_text e))))
                  (h ++ [closeCall pi])) as (errs' & -> & Hlen).
        cbn [Push]. eexists. rewrite <- !app_assoc. split; [reflexivity |].
        cbn [List.length app]. lia.
      * exfalso. revert Herr.
        unfold loaded, closes, closePlugin, plugin_Lookup, liftRes, bind, ret,
          callSymbolError in *.
        destruct (p pi) as [handle|]; [| discriminate].
        destruct (find (fun kv => String.eqb (fst kv) "Close") (syms handle))
          as [[name [| |other]]|]; discriminate.
    + destruct (IH errs (h ++ (if closes pi then [closeCall pi] else [])))
        as (errs' & -> & Hlen).
      exists errs'. destruct (closes pi); cbn [map List.length];
        rewrite <- ?app_assoc, ?app_nil_r; split; try reflexivity; lia.
Qed.

Lemma closeAll_unloaded (env : Env) (l1 l2 : list Plugin) (pi : Plugin)
  (errs : list string) (h : History) :
  Forall (fun x => loaded x = true) l1 ->
  p pi = None ->
  closeAll env (l1 ++ pi :: l2) errs h
  = (Panic NilPointerDereference, h ++ map closeCall (filter closes l1)).
Proof.
  intros Hall Hnil. revert errs h.
  induction Hall as [|x l Hx _ IH]; intros errs h.
  - simpl. unfold bind, closePlugin, liftRes, bind. rewrite Hnil. simpl.
    now rewrite app_nil_r.
  - destruct (closePlugin_loaded env x h Hx) as [err Herr].
    cbn [closeAll filter app]. unfold bind at 1. rewrite Herr.
    destruct err as [e|]; rewrite IH; destruct (closes x);
      cbn [map]; rewrite <- ?app_assoc, ?app_nil_r; reflexivity.
Qed.

(** X17: [Close] of an open registry whose records are all loaded never
    panics: it calls the [Close] function of each record that has one of the
    type func() error, once, in the order of the registry, goes on after a
    failure, and leaves the registry closed whatever the outcomes, with at
    most one error for each call. When a record was never loaded (its handle
    is nil) and the records before it are, [Close] panics at that record,
    after the calls for the records before it: the registry is not marked
    closed and the errors gathered so far are lost. *)
Theorem Close_loaded_or_panics (env : Env) (r : Plugins) (h : History) :
  closed r = false ->
  (Forall (fun x => loaded x = true) (ps r) ->
   exists errs,
     Close env r h
     = (Ret (set_closed true r, Err_ errs),
        h ++ map closeCall (filter closes (ps r))) /\
     List.length errs <= List.length (filter closes (ps r))) /\
  (forall l1 pi l2,
      ps r = l1 ++ pi :: l2 ->
      Forall (fun x => loaded x = true) l1 ->
      p pi = None ->
      Close env r h
      = (Panic NilPointerDereference, h ++ map closeCall (filter closes l1))).
Proof.
  intros Hopen. unfold Close. rewrite Hopen. split.
  - intros Hall.
    destruct (closeAll_loaded env [] h Hall) as (errs & Hrun & Hlen).
    exists errs. split; [| exact Hlen].
    unfold bind. rewrite Hrun. reflexivity.
  - intros l1 pi l2 Hps Hall Hnil.
    unfold bind. rewrite Hps, (@closeAll_unloaded env l1 l2 pi [] h Hall Hnil).
    reflexivity.
Qed.

(** A loaded record and one that was never loaded. *)
Lemma Close_loaded_or_panics_witness :
  Close (pluginEnv None (Some (Error "busy"))) (registryOf [foo; bar]) []
  = (Panic NilPointerDereference, [CallSymbol "plugins/foo.so" "Close"]).
Proof.
  apply (proj2 (@Close_loaded_or_panics
                  (pluginEnv None (Some (Error "busy")))
                  (registryOf [foo; bar]) [] eq_refl) [foo] bar []).
  - reflexivity.
  - repeat constructor.
  - reflexivity.
Defined.

(** ** plugin.go: the registry that maps keys, further *)

Lemma lookup_other {P} (m : list (string * P)) (key k : string) (pi : P) :
  k <> key ->
  PluginMap.lookup k (m ++ [(key, pi)]) = PluginMap.lookup k m.
Proof.
  intros Hne. unfold PluginMap.lookup. induction m as [|[k' v] m IH]; simpl.
  - apply String.eqb_neq in Hne. rewrite String.eqb_sym in Hne.
    now rewrite Hne.
  - destruct (String.eqb k' k); [reflexivity | exact IH].
Qed.

Lemma lookup_None_not_In {P} (m : list (string * P)) (key : string) :
  PluginMap.lookup key m = None -> ~ In key (map fst m).
Proof.
  unfold PluginMap.lookup. induction m as [|[k v] m IH]; simpl; [tauto |].
  destruct (String.eqb k key) eqn:E; [discriminate |].
  intros Hm [Hk | Hin]; [| exact (IH Hm Hin)].
  apply String.eqb_neq in E. contradiction.
Qed.

(** X18: a [Register] that succeeds can be read back: [Get] of the key
    returns the plugin that was registered; [Get] of every other key
    answers what it answered before; and the keys of the map stay pairwise
    different. *)
Theorem Register_Get_round_trip {P} (r r' : PluginMap.Plugins P)
  (key : string) (pi : P) :
  PluginMap.Register r key pi = (r', None) ->
  PluginMap.Get r' key = (Some pi, None) /\
  (forall k, k <> key -> PluginMap.Get r' k = PluginMap.Get r k) /\
  (NoDup (map fst (PluginMap.pm r)) -> NoDup (map fst (PluginMap.pm r'))).
Proof.
  unfold PluginMap.Register, PluginMap.Get.
  destruct (PluginMap.closed r) eqn:Hc; [discriminate |].
  destruct (PluginMap.lookup key (PluginMap.pm r)) eqn:Hl; [discriminate |].
  intros Hreg. injection Hreg as <-. simpl.
  split; [| split].
  - now rewrite (lookup_added _ _ pi Hl).
  - intros k Hne. now rewrite (lookup_other _ pi Hne).
  - intros Hnd. rewrite map_app. simpl.
    apply NoDup_app; [exact Hnd | repeat constructor; simpl; tauto |].
    intros k Hin [<- | []]. exact (lookup_None_not_In _ _ Hl Hin).
Qed.

Lemma Register_Get_round_trip_witness :
  PluginMap.Get
    {| PluginMap.pm := [("auth", "auth-plugin"); ("mail", "mail-plugin")];
       PluginMap.closed := false |} "mail"
  = (Some "mail-plugin", None).
Proof.
  apply (proj1 (@Register_Get_round_trip string
                  {| PluginMap.pm := [("auth", "auth-plugin")];
                     PluginMap.closed := false |}
                  {| PluginMap.pm := [("auth", "auth-plugin");
                                      ("mail", "mail-plugin")];
                     PluginMap.closed := false |}
                  "mail" "mail-plugin" eq_refl)).
Defined.

Lemma nth_error_store_same {A} (l : list A) (i : nat) (a b : A) :
  nth_error l i = Some b -> nth_error (store l i a) i = Some a.
Proof.
  revert i; induction l as [|x l IH]; intros [|i]; simpl;
    try discriminate; auto.
Qed.

Lemma nth_error_store_other {A} (l : list A) (i j : nat) (a : A) :
  j <> i -> nth_error (store l i a) j = nth_error l j.
Proof.
  revert i j; induction l as [|x l IH]; intros [|i] [|j] Hne; simpl;
    try reflexivity; try congruence.
  apply IH. congruence.
Qed.

(** X19: on an open registry, with a pointer to a variable as the
    destination and a plugin under the key whose [Backend()] returns a value:
    when the type of the variable is the type of that value, or is an
    interface type whose methods the type of the value has, [Backend] calls
    the plugin once, returns nil and leaves the value in the variable; every
    other variable keeps its content. *)
Theorem Backend_sets_destination (env : Env) (r : PluginMapOps.Registry)
  (key pi : string) (t bt : GoType) (v0 bv : GoVal) (l : nat) (heap : Heap)
  (h : History) :
  PluginMap.closed r = false ->
  PluginMap.lookup key (PluginMap.pm r) = Some pi ->
  nth_error heap l = Some (t, v0) ->
  callInterface env h pi "Backend" = Some (bt, bv) ->
  (t = bt \/
   exists n ms, t = TInterface n ms /\
     forallb (fun m => existsb (String.eqb m) (methodSet bt)) ms = true) ->
  exists heap',
    PluginMapOps.Backend env r key (Some (TPtr t, VPtr (Some l))) heap h
    = (Ret (heap', None), h ++ [CallSymbol pi "Backend"]) /\
    nth_error heap' l
    = Some (t, match t with TInterface _ _ => VIface bt bv | _ => bv end) /\
    (forall l', l' <> l -> nth_error heap' l' = nth_error heap l').
Proof.
  intros Hopen Hkey Hvar Hbe Hty.
  exists (store heap l
            (t, match t with TInterface _ _ => VIface bt bv | _ => bv end)).
  split; [| split].
  - unfold PluginMapOps.Backend. rewrite Hopen, Hkey.
    unfold bind, liftRes, ret, PluginMapOps.callBackend.
    cbn [reflect.ValueOf reflect.Elem]. rewrite Hvar.
    cbn [reflect.CanSet negb]. rewrite Hbe.
    cbn [reflect.ValueOf reflect.Type_].
    destruct (GoType_eq_dec t bt) as [Heq | Hne].
    + destruct t; reflexivity.
    + destruct Hty as [Heq | (n & ms & -> & Himpl)]; [contradiction |].
      cbn [reflect.Implements]. rewrite Himpl. reflexivity.
  - apply nth_error_store_same with (b := (t, v0)). exact Hvar.
  - intros l' Hne. apply nth_error_store_other. exact Hne.
Qed.

(** A variable of an interface type, and a backend whose type has the
    method. *)
Lemma Backend_sets_destination_witness :
  exists heap',
    PluginMapOps.Backend
      (pluginEnv (Some (TPtr (TNamed "Store" ["Get() string"]),
                        VPtr (Some 7))) None)
      {| PluginMap.pm := [("db", "db-plugin")]; PluginMap.closed := false |}
      "db" (Some (TPtr (TInterface "Getter" ["Get() string"]), VPtr (Some 1)))
      [(TInt, VInt 0); (TInterface "Getter" ["Get() string"], VNilIface)] []
    = (Ret (heap', None), [] ++ [CallSymbol "db-plugin" "Backend"]) /\
    nth_error heap' 1
    = Some (TInterface "Getter" ["Get() string"],
            VIface (TPtr (TNamed "Store" ["Get() string"])) (VPtr (Some 7))) /\
    (forall l', l' <> 1 -> nth_error heap' l'
       = nth_error [(TInt, VInt 0);
                    (TInterface "Getter" ["Get() string"], VNilIface)] l').
Proof.
  apply (@Backend_sets_destination
           (pluginEnv (Some (TPtr (TNamed "Store" ["Get() string"]),
                             VPtr (Some 7))) None)
           {| PluginMap.pm := [("db", "db-plugin")];
              PluginMap.closed := false |}
           "db" "db-plugin" (TInterface "Getter" ["Get() string"])
           (TPtr (TNamed "Store" ["Get() string"])) VNilIface (VPtr (Some 7))
           1 [(TInt, VInt 0);
              (TInterface "Getter" ["Get() string"], VNilIface)] []
           eq_refl eq_refl eq_refl eq_refl).
  right. exists "Getter", ["Get() string"]. split; reflexivity.
Defined.

(** X20: in the same situation, when the type of the variable is neither
    the type of the value the plugin returns nor an interface type that this
    type implements: for a variable of an interface type [Backend] returns
    the invalid-type error and leaves the variable as it is; for a variable
    of any other type it panics, in [Type.Implements], which takes an
    interface type only. The plugin has been called in both cases. *)
Theorem Backend_type_mismatch (env : Env) (r : PluginMapOps.Registry)
  (key pi : string) (t bt : GoType) (v0 bv : GoVal) (l : nat) (heap : Heap)
  (h : History) :
  PluginMap.closed r = false ->
  PluginMap.lookup key (PluginMap.pm r) = Some pi ->
  nth_error heap l = Some (t, v0) ->
  callInterface env h pi "Backend" = Some (bt, bv) ->
  t <> bt ->
  (forall n ms, t = TInterface n ms ->
     forallb (fun m => existsb (String.eqb m) (methodSet bt)) ms = false) ->
  PluginMapOps.Backend env r key (Some (TPtr t, VPtr (Some l))) heap h
  = (match t with
     | TInterface _ _ =>
         Ret (heap, Some (Error ("invalid type, expected " ++ typeName t ++
                                 " and received " ++ typeName bt)))
     | _ => Panic (ReflectPanic "non-interface type passed to Type.Implements")
     end, h ++ [CallSymbol pi "Backend"]).
Proof.
  intros Hopen Hkey Hvar Hbe Hne Hmiss.
  unfold PluginMapOps.Backend. rewrite Hopen, Hkey.
  unfold bind, liftRes, ret, PluginMapOps.callBackend.
  cbn [reflect.ValueOf reflect.Elem]. rewrite Hvar.
  cbn [reflect.CanSet negb]. rewrite Hbe.
  cbn [reflect.ValueOf reflect.Type_].
  destruct (GoType_eq_dec t bt) as [Heq | _]; [contradiction |].
  destruct t as [| | n ms | elem | n ms]; try reflexivity.
  cbn [reflect.Implements]. rewrite (Hmiss n ms eq_refl). reflexivity.
Qed.

(** A variable of type int, and a backend of type string. *)
Lemma Backend_type_mismatch_witness :
  PluginMapOps.Backend (pluginEnv (Some (TString, VString "dsn")) None)
    {| PluginMap.pm := [("db", "db-plugin")]; PluginMap.closed := false |}
    "db" (Some (TPtr TInt, VPtr (Some 0))) [(TInt, VInt 0)] []
  = (Panic (ReflectPanic "non-interface type passed to Type.Implements"),
     [CallSymbol "db-plugin" "Backend"]).
Proof.
  apply (@Backend_type_mismatch (pluginEnv (Some (TString, VString "dsn")) None)
           {| PluginMap.pm := [("db", "db-plugin")];
              PluginMap.closed := false |}
           "db" "db-plugin" TInt TString (VInt 0) (VString "dsn") 0
           [(TInt, VInt 0)] [] eq_refl eq_refl eq_refl eq_refl).
  - discriminate.
  - discriminate.
Defined.

(** X21: whenever [Backend] returns an error, the variables are as they
    were: the destination is written only by a call that returns nil. And
    the plugin is called at most once, and only on an open registry that
    holds the key. *)
Theorem Backend_error_leaves_heap (env : Env) (r : PluginMapOps.Registry)
  (key : string) (backend : iface) (heap heap' : Heap) (h h' : History)
  (e : Err) :
  PluginMapOps.Backend env r key backend heap h = (Ret (heap', Some e), h') ->
  heap' = heap /\
  (h' = h \/
   exists pi, PluginMap.closed r = false /\
     PluginMap.lookup key (PluginMap.pm r) = Some pi /\
     h' = h ++ [CallSymbol pi "Backend"]).
Proof.
  unfold PluginMapOps.Backend.
  destruct (PluginMap.closed r) eqn:Hopen.
  { unfold ret. intros H. injection H as <- _ <-. auto. }
  destruct (PluginMap.lookup key (PluginMap.pm r)) as [pi|] eqn:Hkey.
  2: { unfold ret. intros H. injection H as <- _ <-. auto. }
  unfold bind, liftRes, ret, PluginMapOps.callBackend.
  destruct (reflect.Elem heap (reflect.ValueOf backend)) as [elem | pe];
    [| discriminate].
  destruct (reflect.CanSet elem); cbn [negb].
  2: { intros H. injection H as <- _ <-. auto. }
  destruct (reflect.Type_ elem) as [et | pe]; [| discriminate].
  destruct (reflect.Type_ (reflect.ValueOf
              (callInterface env h pi "Backend"))) as [bt | pe];
    [| discriminate].
  destruct (GoType_eq_dec et bt) as [Heq | Hne].
  - destruct (reflect.Set_ heap elem _); discriminate.
  - destruct (reflect.Implements bt et) as [[|] | pe]; try discriminate.
    + destruct (reflect.Set_ heap elem _); discriminate.
    + intros H. injection H as <- _ <-. split; [reflexivity |].
      right. exists pi. auto.
Qed.

Lemma Backend_error_leaves_heap_witness :
  [(TInt, VInt 0)] = [(TInt, VInt 0)] /\
  ([] = @nil Call \/
   exists pi,
     PluginMap.closed
       {| PluginMap.pm := [("db", "db-plugin")];
          PluginMap.closed := true |} = false /\
     PluginMap.lookup "db" [("db", "db-plugin")] = Some pi /\
     [] = [] ++ [CallSymbol pi "Backend"]).
Proof.
  apply (@Backend_error_leaves_heap
           (pluginEnv (Some (TInt, VInt 1)) None)
           {| PluginMap.pm := [("db", "db-plugin")];
              PluginMap.closed := true |}
           "db" (Some (TPtr TInt, VPtr (Some 0))) [(TInt, VInt 0)]
           [(TInt, VInt 0)] [] [] ErrIsClosed eq_refl).
Defined.

Lemma closeEntries_run (env : Env) (l : list (string * string))
  (errs : list string) (h : History) :
  exists errs',
    PluginMapOps.closeEntries env l errs h
    = (Ret (errs ++ errs'),
       h ++ map (fun kv => CallSymbol (snd kv) "Close") l) /\
    List.length errs' <= List.length l.
Proof.
  revert errs h; induction l as [|[key pi] l IH]; intros errs h.
  - exists []. simpl. rewrite !app_nil_r. split; [reflexivity | lia].
  - cbn [PluginMapOps.closeEntries map snd].
    unfold bind at 1, PluginMapOps.callClose at 1.
    destruct (callError env h pi "Close") as [e|].
    + destruct (IH (Push errs (Some (Error ("error closing " ++ key ++ ": " ++
                  Error_text e)))) (h ++ [CallSymbol pi "Close"]))
        as (errs' & -> & Hlen).
      cbn [Push]. eexists. rewrite <- !app_assoc. split; [reflexivity |].
      cbn [List.length app]. lia.
    + destruct (IH errs (h ++ [CallSymbol pi "Close"])) as (errs' & -> & Hlen).
      exists errs'. rewrite <- app_assoc. split; [reflexivity |].
      cbn [List.length]. lia.
Qed.

(** X22: [Close] of the registry that maps keys, when it is open: in
    whatever order the map hands out its entries, the [Close] of every
    registered plugin is called, once, also after one of them failed; the
    registry is then closed and holds the entries it held, and there is at
    most one error for each plugin. After that, [Close] and [Backend] return
    the closed-registry error and call no plugin; [Loaded] still answers
    with the entries. *)
Theorem Close_closes_every_plugin (env : Env) (picks : list nat)
  (r : PluginMapOps.Registry) (h : History) :
  PluginMap.closed r = false ->
  exists order errs r',
    Permutation order (PluginMap.pm r) /\
    List.length errs <= List.length (PluginMap.pm r) /\
    PluginMapOps.Close env picks r h
    = (Ret (r', Err_ errs),
       h ++ map (fun kv => CallSymbol (snd kv) "Close") order) /\
    PluginMapOps.Loaded r' = PluginMapOps.Loaded r /\
    (forall picks' h2,
        PluginMapOps.Close env picks' r' h2
        = (Ret (r', Some ErrIsClosed), h2)) /\
    (forall key backend heap h2,
        PluginMapOps.Backend env r' key backend heap h2
        = (Ret (heap, Some ErrIsClosed), h2)).
Proof.
  intros Hopen.
  set (order := schedule picks (List.length (PluginMap.pm r)) (PluginMap.pm r)).
  destruct (closeEntries_run env order [] h) as (errs & Hrun & Hlen).
  exists order, errs,
    {| PluginMap.pm := PluginMap.pm r; PluginMap.closed := true |}.
  assert (Hperm : Permutation order (PluginMap.pm r))
    by apply schedule_Permutation.
  split; [exact Hperm | split; [| split; [| repeat split]]].
  - rewrite <- (Permutation_length Hperm). exact Hlen.
  - unfold PluginMapOps.Close. rewrite Hopen. fold order.
    unfold bind. rewrite Hrun. reflexivity.
Qed.

(** Two plugins, each failing to close; the map hands out the second
    first. *)
Lemma Close_closes_every_plugin_witness :
  exists order errs r',
    Permutation order [("auth", "auth-plugin"); ("mail", "mail-plugin")] /\
    List.length errs <= 2 /\
    PluginMapOps.Close (pluginEnv None (Some (Error "busy"))) [1]
      {| PluginMap.pm := [("auth", "auth-plugin"); ("mail", "mail-plugin")];
         PluginMap.closed := false |} []
    = (Ret (r', Err_ errs),
       [] ++ map (fun kv => CallSymbol (snd kv) "Close") order) /\
    PluginMapOps.Loaded r'
    = [("auth", "auth-plugin"); ("mail", "mail-plugin")] /\
    (forall picks' h2,
        PluginMapOps.Close (pluginEnv None (Some (Error "busy"))) picks' r' h2
        = (Ret (r', Some ErrIsClosed), h2)) /\
    (forall key backend heap h2,
        PluginMapOps.Backend (pluginEnv None (Some (Error "busy"))) r' key
          backend heap h2
        = (Ret (heap, Some ErrIsClosed), h2)).
Proof.
  apply (@Close_closes_every_plugin (pluginEnv None (Some (Error "busy"))) [1]
           {| PluginMap.pm := [("auth", "auth-plugin");
                               ("mail", "mail-plugin")];
              PluginMap.closed := false |} [] eq_refl).
Defined.

(** ** plugin.go: retrieve and checkout of an entry *)

Lemma doesPluginSourceExist_stat (env : Env) (u : string) (h : History) :
  doesPluginSourceExist env u h
  = (Ret (match stat env h (goSrcDir env u) with
          | Some true => true
          | _ => false
          end), h).
Proof.
  unfold doesPluginSourceExist, osStat, bind, ret.
  destruct (stat env h (goSrcDir env u)) as [[|]|]; reflexivity.
Qed.

Lemma goGet_history (env : Env) (u : string) (h : History) :
  exists err, goGet env u h = (Ret err, h ++ [GoGet u]).
Proof.
  unfold goGet, exec, bind, ret.
  destruct (runErr (run env h (GoGet u))); eauto.
Qed.

(** X23: [retrieve] never panics, and runs one of four sequences of tools:
    none, for an entry without a git URL; go get alone, when the sources
    are not there; git pull alone, when the pull failed; git pull and then
    the download of the dependencies. It never runs both go get and git
    pull, and an error tells by its first words which tool failed. *)
Theorem retrieve_calls (env : Env) (pi : Plugin) (h : History) :
  exists err calls,
    PluginGoEntry.retrieve env pi h = (Ret err, h ++ calls) /\
    ((gitURL pi = "" /\ calls = [] /\ err = None) \/
     (stat env h (goSrcDir env (gitURL pi)) <> Some true /\
      calls = [GoGet (gitURL pi)] /\
      (err = None \/
       exists t, err = Some (Error ("error performing go get: " ++ t)))) \/
     (stat env h (goSrcDir env (gitURL pi)) = Some true /\
      calls = [GitPull (gitURL pi)] /\
      exists t, err = Some (Error ("error performing git pull: " ++ t))) \/
     (stat env h (goSrcDir env (gitURL pi)) = Some true /\
      calls = [GitPull (gitURL pi); GoModDownload (gitURL pi)] /\
      (err = None \/
       exists t,
         err = Some (Error ("error updating plugin dependencies: " ++ t))))).
Proof.
  unfold PluginGoEntry.retrieve.
  destruct (String.length (gitURL pi) =? 0)%nat eqn:Hlen.
  { exists None, []. rewrite app_nil_r. split; [reflexivity |].
    left. destruct (gitURL pi); [auto | discriminate]. }
  unfold bind at 1. rewrite doesPluginSourceExist_stat.
  destruct (stat env h (goSrcDir env (gitURL pi))) as [[|]|] eqn:Hstat;
    cbn [negb].
  1: { unfold bind at 1.
       destruct (gitPull_history env (gitURL pi) h) as (st & pe & ->).
       destruct pe as [e|].
       - unfold ret. eexists _, [GitPull (gitURL pi)].
         split; [reflexivity |]. right; right; left. eauto.
       - unfold bind.
         destruct (updateDependencies_history env pi
                     (h ++ [GitPull (gitURL pi)])) as [d Hd].
         unfold updateDependencies in Hd. rewrite Hd.
         destruct d as [e|]; unfold ret;
           eexists _, [GitPull (gitURL pi); GoModDownload (gitURL pi)];
           rewrite <- app_assoc; (split; [reflexivity |]);
           right; right; right; eauto. }
  all: unfold bind; destruct (goGet_history env (gitURL pi) h) as [g ->];
    destruct g as [e|]; unfold ret; eexists _, [GoGet (gitURL pi)];
    (split; [reflexivity |]); right; left;
    (split; [discriminate |]); eauto.
Qed.

(** X24: [checkout] of plugin.go does nothing for an entry without a git
    URL or without a branch. For any other entry, a checkout that fails ends
    it, with no pull; after a checkout that went well it pulls, once, and
    downloads the dependencies exactly when the pull brought something: it
    ended well and its output is neither empty nor tells that the branch is
    up to date. A pull that failed is the error of [checkout]. *)
Theorem checkout_downloads_after_changes (env : Env) (pi : Plugin)
  (h : History) :
  (gitURL pi = "" \/ branch pi = "" ->
   PluginGoEntry.checkout env pi h = (Ret None, h)) /\
  (gitURL pi <> "" -> branch pi <> "" ->
   forall (st : string) (e : Err) (h1 : History),
     gitCheckout env (gitURL pi) (branch pi) h = (Ret (st, Some e), h1) ->
     exists t,
       PluginGoEntry.checkout env pi h
       = (Ret (Some (Error ("error encountered while switching to " ++ quote
                            ++ branch pi ++ quote ++ ": " ++ t))), h1)) /\
  (gitURL pi <> "" -> branch pi <> "" ->
   forall (st : string) (h1 : History),
     gitCheckout env (gitURL pi) (branch pi) h = (Ret (st, None), h1) ->
     let o := run env h1 (GitPull (gitURL pi)) in
     let brought :=
       match runErr o with
       | None => negb (strings.Contains (stdout o) "up to date")
                 && (0 <? String.length (stdout o))%nat
       | Some _ => false
       end in
     exists err,
       PluginGoEntry.checkout env pi h
       = (Ret err,
          h1 ++ GitPull (gitURL pi)
             :: (if brought then [GoModDownload (gitURL pi)] else [])) /\
       (runErr o <> None -> err <> None) /\
       (runErr o = None -> brought = false -> err = None)).
Proof.
  unfold PluginGoEntry.checkout. split; [| split].
  - intros [-> | ->]; [reflexivity |].
    destruct (String.length (gitURL pi) =? 0)%nat; reflexivity.
  - intros Hu Hb st e h1 Hco.
    apply length_eqb_0 in Hu. apply length_eqb_0 in Hb. rewrite Hu, Hb.
    cbn [orb]. unfold bind. rewrite Hco. unfold ret. eauto.
  - intros Hu Hb st h1 Hco.
    set (o := run env h1 (GitPull (gitURL pi))).
    apply length_eqb_0 in Hu. apply length_eqb_0 in Hb. rewrite Hu, Hb.
    cbn [orb]. unfold bind at 1. rewrite Hco. cbv beta iota.
    unfold bind at 1, gitPull, exec, bind at 1, ret at 1. fold o.
    destruct (runErr o) as [e|].
    + destruct (0 <? String.length (stderr o))%nat; unfold ret;
        eexists; (split; [reflexivity |]); split; congruence.
    + destruct (strings.Contains (stdout o) "up to date"); cbn [negb andb].
      * unfold ret. eexists; (split; [reflexivity |]); split; congruence.
      * destruct (stdout o) as [|c s]; cbn [String.length Nat.ltb Nat.leb].
        -- unfold ret. eexists; (split; [reflexivity |]); split; congruence.
        -- destruct (updateDependencies_history env pi
                       (h1 ++ [GitPull (gitURL pi)])) as [d Hd].
           unfold updateDependencies in Hd.
           exists d. unfold ret at 1. cbn [String.length]. cbv beta iota.
           rewrite Hd, <- app_assoc.
           split; [reflexivity |]. split; congruence.
Qed.

(** The branch is checked out and the pull brings a commit. *)
Lemma checkout_downloads_after_changes_witness :
  exists err,
    PluginGoEntry.checkout
      (pullEnv {| runErr := None; stdout := "Updating 1a2b3c4..5d6e7f8";
                  stderr := "" |}) pinned []
    = (Ret err,
       [GitCheckout "github.com/user/plugin" "v1.2.0"]
         ++ [GitPull "github.com/user/plugin";
             GoModDownload "github.com/user/plugin"]) /\
    (@None Err <> None -> err <> None) /\
    (@None Err = None -> true = false -> err = None).
Proof.
  apply (proj2 (proj2 (checkout_downloads_after_changes
           (pullEnv {| runErr := None; stdout := "Updating 1a2b3c4..5d6e7f8";
                       stderr := "" |}) pinned []))
           ltac:(discriminate) ltac:(discriminate) ""
           [GitCheckout "github.com/user/plugin" "v1.2.0"] eq_refl).
Defined.

(** ** The registry: Retrieve *)

Lemma gitRepoFromURL_returns (lib : GoLib) (u : string) :
  exists k, gitRepoFromURL lib u = Ret k.
Proof.
  unfold gitRepoFromURL.
  destruct (strings.Split u "/") as [|a [|b [|c [|d more]]]]; simpl; eauto.
Qed.

Lemma retrieveAll_nothing_to_fetch (env : Env) (lib : GoLib) (l : list Plugin)
  (b : string) (keys : list (string * string)) (h : History) :
  Forall (fun x => gitURL x = "" \/ isLocal (gitURL x) = true) l ->
  retrieveAll env lib l b keys h = (Ret (l, None), h).
Proof.
  intros Hall. revert keys.
  induction Hall as [|x l Hx _ IH]; intros keys; [reflexivity |].
  cbn [retrieveAll]. unfold bind at 1, liftRes.
  destruct (gitRepoFromURL_returns lib (gitURL x)) as [k ->].
  destruct (addToMap k "" keys) as [keys' added].
  destruct added; cbn [negb].
  - destruct (isLocal (gitURL x)) eqn:Hlocal.
    + unfold bind. rewrite IH. reflexivity.
    + destruct Hx as [Hx | Hx]; [| congruence].
      unfold bind at 1, updatePlugin. rewrite Hx. simpl.
      unfold bind. rewrite IH. reflexivity.
  - unfold bind. rewrite IH. reflexivity.
Qed.

(** X25: [Retrieve] runs no tool for a registry whose records are all plugin
    files, without a git URL, or local sources, with a URL that starts with
    a dot and a slash: it returns nil and leaves every record as it is. *)
Theorem Retrieve_nothing_to_fetch (env : Env) (lib : GoLib) (r : Plugins)
  (h : History) :
  Forall (fun x => gitURL x = "" \/ isLocal (gitURL x) = true) (ps r) ->
  Retrieve env lib r h = (Ret (r, None), h).
Proof.
  intros Hall. unfold Retrieve, bind.
  rewrite (retrieveAll_nothing_to_fetch env lib (Branch r) [] h Hall).
  unfold ret. now rewrite set_ps_same.
Qed.

Lemma Retrieve_nothing_to_fetch_witness :
  Retrieve quietEnv plainLib
    (registryOf [{| p := None; importKey := "./local/foo.so";
                    alias := "foo.so"; gitURL := "";
                    filename := "./local/foo.so"; branch := "";
                    update := false |};
                 {| p := None; importKey := "./plugins/auth";
                    alias := "auth"; gitURL := "./plugins/auth";
                    filename := "plugins/auth.so"; branch := "";
                    update := false |}]) []
  = (Ret (registryOf [{| p := None; importKey := "./local/foo.so";
                         alias := "foo.so"; gitURL := "";
                         filename := "./local/foo.so"; branch := "";
                         update := false |};
                      {| p := None; importKey := "./plugins/auth";
                         alias := "auth"; gitURL := "./plugins/auth";
                         filename := "plugins/auth.so"; branch := "";
                         update := false |}], None), []).
Proof.
  apply Retrieve_nothing_to_fetch.
  constructor; [left; reflexivity |].
  constructor; [right; reflexivity | constructor].
Defined.

Lemma retrieveAll_skips_known (env : Env) (lib : GoLib) (b k : string)
  (pi : Plugin) (l2 : list Plugin) :
  gitRepoFromURL lib (gitURL pi) = Ret k ->
  forall (l1 : list Plugin) (keys : list (string * string)) (h h' : History)
         (l' : list Plugin) (e : error),
    (existsb (fun kv => String.eqb (fst kv) k) keys = true \/
     exists x, In x l1 /\ gitRepoFromURL lib (gitURL x) = Ret k) ->
    retrieveAll env lib (l1 ++ l2) b keys h = (Ret (l', e), h') ->
    retrieveAll env lib (l1 ++ pi :: l2) b keys h
    = (Ret (firstn (List.length l1) l' ++ pi :: skipn (List.length l1) l', e),
       h').
Proof.
  intros Hpi. induction l1 as [|x l1 IH]; intros keys h h' l' e Hknown Hrun.
  - destruct Hknown as [Hk | (x & [] & _)].
    cbn [app List.length firstn skipn retrieveAll] in *.
    unfold bind at 1, liftRes. rewrite Hpi.
    unfold addToMap. rewrite Hk. cbn [negb].
    unfold bind. rewrite Hrun. reflexivity.
  - cbn [app List.length retrieveAll] in *.
    unfold bind at 1, liftRes in Hrun. unfold bind at 1, liftRes.
    destruct (gitRepoFromURL lib (gitURL x)) as [kx | pe] eqn:Hx;
      [| discriminate].
    assert (Hnext : existsb (fun kv => String.eqb (fst kv) k)
                      (fst (addToMap kx "" keys)) = true \/
                    exists y, In y l1 /\ gitRepoFromURL lib (gitURL y) = Ret k).
    { destruct Hknown as [Hk | (y & [<- | Hy] & Hyk)].
      - left. unfold addToMap.
        destruct (existsb (fun kv => String.eqb (fst kv) kx) keys);
          cbn [fst]; [exact Hk |].
        rewrite existsb_app, Hk. reflexivity.
      - left. rewrite Hx in Hyk. injection Hyk as ->. unfold addToMap.
        destruct (existsb (fun kv => String.eqb (fst kv) k) keys) eqn:Hk;
          cbn [fst]; [exact Hk |].
        rewrite existsb_app. cbn [existsb fst]. rewrite String.eqb_refl.
        now rewrite orb_true_r.
      - right. eauto. }
    destruct (addToMap kx "" keys) as [keys' added]. cbn [fst] in Hnext.
    assert (Hskip : forall m,
               (x0 <- retrieveAll env lib (l1 ++ l2) b m;;
                (let '(rest', err) := x0 in ret (x :: rest', err)))%M h
               = (Ret (l', e), h') ->
               (existsb (fun kv => String.eqb (fst kv) k) m = true \/
                exists y, In y l1 /\ gitRepoFromURL lib (gitURL y) = Ret k) ->
               (x0 <- retrieveAll env lib (l1 ++ pi :: l2) b m;;
                (let '(rest', err) := x0 in ret (x :: rest', err)))%M h
               = (Ret (firstn (S (List.length l1)) l'
                         ++ pi :: skipn (S (List.length l1)) l', e), h')).
    { intros m Hm Hkn. unfold bind in *.
      destruct (retrieveAll env lib (l1 ++ l2) b m h) as [[[rest' err] | pe] hr]
        eqn:Hrest; [| discriminate].
      unfold ret in Hm. injection Hm as <- <- <-.
      rewrite (IH m h hr rest' err Hkn Hrest). reflexivity. }
    destruct added; cbn [negb] in *.
    + destruct (isLocal (gitURL x)); [apply Hskip; assumption |].
      unfold bind at 1 in Hrun. unfold bind at 1.
      destruct (updatePlugin env x b h) as [[[x' err] | pe] hu];
        [| discriminate].
      destruct err as [eu|].
      * unfold ret in *. injection Hrun as <- <- <-.
        cbn [firstn skipn].
        rewrite firstn_app, Nat.sub_diag, firstn_all, skipn_app, Nat.sub_diag,
          skipn_all.
        cbn [firstn skipn app]. rewrite app_nil_r. reflexivity.
      * unfold bind in *.
        destruct (retrieveAll env lib (l1 ++ l2) b keys' hu)
          as [[[rest' err] | pe] hr] eqn:Hrest; [| discriminate].
        unfold ret in Hrun. injection Hrun as <- <- <-.
        rewrite (IH keys' hu hr rest' err Hnext Hrest). reflexivity.
    + apply Hskip; assumption.
Qed.

(** X26: [Retrieve] updates a repository once. A record whose repository
    (the first three components of its git URL) is that of a record before
    it in the registry is passed over: with or without it, the same tools
    run and the same error comes back, the records around it are left in
    the same state, and the record itself is as it was. *)
Theorem Retrieve_once_per_repository (env : Env) (lib : GoLib) (r : Plugins)
  (l1 l2 l' : list Plugin) (x pi : Plugin) (k : string) (e : error)
  (h h' : History) :
  In x l1 ->
  gitRepoFromURL lib (gitURL x) = Ret k ->
  gitRepoFromURL lib (gitURL pi) = Ret k ->
  Retrieve env lib (set_ps (l1 ++ l2) r) h = (Ret (set_ps l' r, e), h') ->
  Retrieve env lib (set_ps (l1 ++ pi :: l2) r) h
  = (Ret (set_ps (firstn (List.length l1) l'
                    ++ pi :: skipn (List.length l1) l') r, e), h').
Proof.
  intros Hin Hx Hpi. unfold Retrieve, bind. cbn [ps set_ps Branch].
  destruct (retrieveAll env lib (l1 ++ l2) (Branch r) [] h)
    as [[[l0 e0] | pe] h0] eqn:Hrun; [| discriminate].
  unfold ret, set_ps. cbn [dir Branch closed].
  intros H. injection H as <- <- <-.
  rewrite (@retrieveAll_skips_known env lib (Branch r) k pi l2 Hpi l1 [] h h0
             l0 e0 (or_intror (ex_intro _ x (conj Hin Hx))) Hrun).
  reflexivity.
Qed.

(** A repository and a source nested in it: one pull. *)
Lemma Retrieve_once_per_repository_witness :
  Retrieve (pullEnv succeeded) plainLib
    (set_ps ([foo] ++ {| p := None; importKey := "github.com/user/foo/cmd/jump";
                         alias := "jump";
                         gitURL := "github.com/user/foo/cmd/jump";
                         filename := "plugins/jump.so"; branch := "";
                         update := false |} :: [bar]) (registryOf [])) []
  = (Ret (set_ps (firstn (List.length [foo]) [foo; bar]
                    ++ {| p := None;
                          importKey := "github.com/user/foo/cmd/jump";
                          alias := "jump";
                          gitURL := "github.com/user/foo/cmd/jump";
                          filename := "plugins/jump.so"; branch := "";
                          update := false |}
                    :: skipn (List.length [foo]) [foo; bar]) (registryOf []),
          None),
     [GitPull "github.com/user/foo"; GitPull "github.com/user/bar"]).
Proof.
  apply (@Retrieve_once_per_repository (pullEnv succeeded) plainLib
           (registryOf []) [foo] [bar] [foo; bar] foo
           {| p := None; importKey := "github.com/user/foo/cmd/jump";
              alias := "jump"; gitURL := "github.com/user/foo/cmd/jump";
              filename := "plugins/jump.so"; branch := ""; update := false |}
           "github.com/user/foo" None []
           [GitPull "github.com/user/foo"; GitPull "github.com/user/bar"]).
  - left. reflexivity.
  - reflexivity.
  - reflexivity.
  - reflexivity.
Defined.

(** ** utils.go: waiting for processes *)

Ltac int_bounds :=
  change (2 ^ 63)%Z with 9223372036854775808%Z in *;
  change (2 ^ 64)%Z with 18446744073709551616%Z in *.

Lemma wrapInt_small (z : Z) :
  (- 2 ^ 63 <= z < 2 ^ 63)%Z -> wrapInt z = z.
Proof.
  intros Hz. unfold wrapInt. int_bounds.
  rewrite Z.mod_small; lia.
Qed.

Lemma waitLoop_nils (k : nat) (tail : list error) (chClosed : bool)
  (n count : Z) :
  (0 <= n)%Z -> (n + Z.of_nat k < 2 ^ 63)%Z ->
  (count <= n \/ n + Z.of_nat k < count)%Z ->
  waitLoop (repeat None k ++ tail) chClosed n count
  = waitLoop tail chClosed (n + Z.of_nat k) count.
Proof.
  revert n; induction k as [|k IH]; intros n Hn Hmax Hcount.
  - simpl. now rewrite Z.add_0_r.
  - cbn [repeat app waitLoop].
    rewrite wrapInt_small by (int_bounds; lia).
    replace (n + 1 =? count)%Z with false by (symmetry; apply Z.eqb_neq; lia).
    rewrite IH by lia. f_equal. lia.
Qed.

(** X27: [waitForProcesses] with a count of at least one returns the first
    error the channel delivers among its first [count] values and reads
    nothing behind it; when these values are all nil it returns nil after
    exactly [count] of them. When the channel delivers fewer values, all nil,
    it returns nil if the channel is closed and waits for ever if it is
    not. With a count of zero or less the count is never reached: on an open
    channel that delivers nil values only it waits for ever. *)
Theorem waitForProcesses_first_error (chClosed : bool) (count : Z) (k : nat)
  (e : Err) (rest : list error) :
  (Z.of_nat k < 2 ^ 63 - 1)%Z ->
  ((0 < count)%Z -> Z.of_nat k = (count - 1)%Z ->
   waitForProcesses (repeat None k ++ None :: rest) chClosed count
   = Returned None rest) /\
  ((0 < count)%Z -> (Z.of_nat k < count)%Z ->
   waitForProcesses (repeat None k ++ Some e :: rest) chClosed count
   = Returned (Some e) rest /\
   waitForProcesses (repeat None k) chClosed count
   = if chClosed then Returned None [] else Blocked) /\
  ((count <= 0)%Z ->
   waitForProcesses (repeat None k) false count = Blocked).
Proof.
  intros Hk. unfold waitForProcesses. split; [| split].
  - intros Hpos Hlast. rewrite waitLoop_nils by lia.
    cbn [waitLoop]. rewrite wrapInt_small by (int_bounds; lia).
    replace (0 + Z.of_nat k + 1 =? count)%Z with true
      by (symmetry; apply Z.eqb_eq; lia).
    reflexivity.
  - intros Hpos Hlt. split.
    + rewrite waitLoop_nils by lia. reflexivity.
    + rewrite <- (app_nil_r (repeat None k)).
      rewrite waitLoop_nils by lia. reflexivity.
  - intros Hneg. rewrite <- (app_nil_r (repeat None k)).
    rewrite waitLoop_nils by lia. reflexivity.
Qed.

(** Three processes; the second to report failed: the third report is left
    in the channel. *)
Lemma waitForProcesses_first_error_witness :
  waitForProcesses (repeat None 1 ++ Some (Error "exit status 1") :: [None])
    false 3
  = Returned (Some (Error "exit status 1")) [None].
Proof.
  apply (proj1 (proj1 (proj2 (@waitForProcesses_first_error false 3 1
                                (Error "exit status 1") [None]
                                ltac:(reflexivity)))
                  ltac:(reflexivity) ltac:(reflexivity))).
Defined.
